(** * COGnition: the remote HPC session manager and the credential store

    A shallow embedding of the parts of [src/app.py] and
    [src/auth/auth_db.py] that the specification's testable properties are
    about, followed by the properties themselves.

    Conventions of the embedding.

    - A Python [str] that holds a name, a path, a command line or a line of
      command output is a Rocq [string]; its characters are the code points
      below 256.  The text shown in the file editor is decoded with
      replacement characters, so it is kept as a list of code points
      ([Editor.text]).
    - A [reactive.Value] is a field of the record [Hpc.state]; an effect
      decorated with [reactive.event(v)] is run by [Hpc.cycle] in the same
      flush as the handler of the user's action, when the handler gave [v]
      another object ([Value.set] compares with [is]).  The calculation
      [get_hpc_files] is run again in the flush in which a value it read
      was set, and the state keeps its rows for the grid and for the
      handler of the selection.  The outputs are rendered from the state
      the flush ends in.
    - The remote host, the form fields and the browser are the environment
      of a cycle, the record [Hpc.env]: what each remote command line comes
      to, and whether the calls that can raise do.
    - [os.path] is [posixpath]: the dashboard and the cluster are POSIX
      systems.
    - The reactive values no handler reads ([selected_file],
      [modules_loading]) and the progress bars are left out. *)

From Stdlib Require Import ZArith NArith Ascii String Lia.
From stdpp Require Import base option list strings gmap sorting.

Local Open Scope Z_scope.

(** ** Python string operations *)

Module Py.

(** [str.isspace] on one character: the white space of Unicode that lies
    below code point 256 (tab to carriage return, the four separators
    0x1c to 0x1f, space, NEL and the no-break space). *)
Definition isspace (c : ascii) : bool :=
  let n := N_of_ascii c in
  (((9 <=? n) && (n <=? 13)) || ((28 <=? n) && (n <=? 32))
   || (n =? 133) || (n =? 160))%N.

(** [s.lstrip(chars)], the characters to drop given as a predicate. *)
Fixpoint lstrip_by (p : ascii -> bool) (s : string) : string :=
  match s with
  | String c s' => if p c then lstrip_by p s' else s
  | EmptyString => EmptyString
  end.

(** [s.rstrip(chars)]. *)
Fixpoint rstrip_by (p : ascii -> bool) (s : string) : string :=
  match s with
  | EmptyString => EmptyString
  | String c s' =>
      match rstrip_by p s' with
      | EmptyString => if p c then EmptyString else String c EmptyString
      | r => String c r
      end
  end.

(** [s.strip()]. *)
Definition strip (s : string) : string := rstrip_by isspace (lstrip_by isspace s).

(** [s.rstrip('/')] and the like. *)
Definition rstrip_char (c : ascii) (s : string) : string :=
  rstrip_by (fun x => bool_decide (x = c)) s.

(** [s.split(sep)] for a separator of one character: never empty. *)
Fixpoint split (sep : ascii) (s : string) : list string :=
  match s with
  | EmptyString => [EmptyString]
  | String c s' =>
      if bool_decide (c = sep) then EmptyString :: split sep s'
      else match split sep s' with
           | h :: t => String c h :: t
           | [] => [String c EmptyString]
           end
  end.

(** [s.split()]: the maximal runs of characters that are not white space. *)
Fixpoint split_ws (s : string) : list string :=
  match s with
  | EmptyString => []
  | String c s' =>
      if isspace c then split_ws s'
      else match s' with
           | EmptyString => [String c EmptyString]
           | String c' _ =>
               if isspace c' then String c EmptyString :: split_ws s'
               else match split_ws s' with
                    | h :: t => String c h :: t
                    | [] => [String c EmptyString]
                    end
           end
  end.

(** The line boundaries of [str.splitlines] below code point 256. *)
Definition islinebreak (c : ascii) : bool :=
  let n := N_of_ascii c in
  (((10 <=? n) && (n <=? 13)) || ((28 <=? n) && (n <=? 30)) || (n =? 133))%N.

(** [s.splitlines()]: a carriage return followed by a line feed is one
    boundary, and a final boundary opens no empty last line. *)
Fixpoint splitlines (s : string) : list string :=
  match s with
  | EmptyString => []
  | String c s' =>
      if islinebreak c then
        match s' with
        | String c' s'' =>
            if bool_decide (c = "013"%char) && bool_decide (c' = "010"%char)
            then EmptyString :: splitlines s''
            else EmptyString :: splitlines s'
        | EmptyString => [EmptyString]
        end
      else match splitlines s' with
           | h :: t => String c h :: t
           | [] => [String c EmptyString]
           end
  end.

(** [sep.join(l)]. *)
Fixpoint join (sep : string) (l : list string) : string :=
  match l with
  | [] => EmptyString
  | [x] => x
  | x :: t => x +:+ sep +:+ join sep t
  end.

(** [s.startswith(p)]. *)
Definition startswith (s p : string) : bool := String.prefix p s.

(** [s.endswith(c)] for one character. *)
Fixpoint endswith_char (s : string) (c : ascii) : bool :=
  match s with
  | EmptyString => false
  | String x EmptyString => bool_decide (x = c)
  | String _ s' => endswith_char s' c
  end.

(** [c in s] for one character. *)
Fixpoint contains (c : ascii) (s : string) : bool :=
  match s with
  | EmptyString => false
  | String x s' => bool_decide (x = c) || contains c s'
  end.

(** [s.replace(c, '')] for one character. *)
Fixpoint remove_char (c : ascii) (s : string) : string :=
  match s with
  | EmptyString => EmptyString
  | String x s' =>
      if bool_decide (x = c) then remove_char c s' else String x (remove_char c s')
  end.

(** The truth value of a string: it is not empty. *)
Definition truthy (s : string) : bool :=
  match s with EmptyString => false | _ => true end.

(** [sorted] on strings: Python orders strings by code points, which is
    the order of [String.leb]; a stable merge sort. *)
Definition sorted (l : list string) : list string := merge_sort String.le l.

(** [list(set(l))]: the elements of the set in the order the set gives
    them. *)
Definition list_set (l : list string) : list string :=
  elements (list_to_set l : gset string).

End Py.

(** ** posixpath *)

Module PosixPath.

(** [posixpath.join(a, b)]. *)
Definition join (a b : string) : string :=
  if Py.startswith b "/" then b
  else if negb (Py.truthy a) || Py.endswith_char a "/" then a +:+ b
  else a +:+ "/" +:+ b.

(** The text up to and including the last slash ([p[:p.rfind('/') + 1]]). *)
Fixpoint upto_last_slash (p : string) : string :=
  match p with
  | EmptyString => EmptyString
  | String c p' =>
      if Py.contains "/" p' || bool_decide (c = "/"%char)
      then String c (upto_last_slash p')
      else EmptyString
  end.

(** [posixpath.dirname(p)]: the head, without its trailing slashes unless
    it consists of slashes only. *)
Definition dirname (p : string) : string :=
  let head := upto_last_slash p in
  if Py.truthy head && Py.truthy (Py.lstrip_by (fun x => bool_decide (x = "/"%char)) head)
  then Py.rstrip_char "/" head
  else head.

(** The loop of [posixpath.normpath] over the components, [new_comps]
    kept in reverse. *)
Fixpoint norm_comps (initial_slashes : bool) (rev_new : list string)
    (comps : list string) : list string :=
  match comps with
  | [] => rev rev_new
  | comp :: rest =>
      if bool_decide (comp = "") || bool_decide (comp = ".")
      then norm_comps initial_slashes rev_new rest
      else if negb (bool_decide (comp = ".."))
              || (negb initial_slashes && bool_decide (rev_new = []))
              || (match rev_new with x :: _ => bool_decide (x = "..") | [] => false end)
      then norm_comps initial_slashes (comp :: rev_new) rest
      else norm_comps initial_slashes (tail rev_new) rest
  end.

(** [posixpath.normpath(path)]. *)
Definition normpath (path : string) : string :=
  if negb (Py.truthy path) then "."
  else
    let slashes :=
      if Py.startswith path "/" then
        if Py.startswith path "//" && negb (Py.startswith path "///")
        then "//" else "/"
      else "" in
    let comps := norm_comps (Py.truthy slashes) [] (Py.split "/" path) in
    let res := slashes +:+ Py.join "/" comps in
    if Py.truthy res then res else ".".

End PosixPath.

(** ** The remote shell's reading of a command line *)

Module Shell.

(** The double quote, written by its code. *)
Definition dquote : ascii := "034"%char.

(** A token of a command line: a word as the command receives it once
    the quotes are removed ([expands] when the word holds a dollar or a
    back quote that the shell expands), or a control operator. *)
Inductive token : Type :=
| Word (w : string) (expands : bool)
| Op (c : ascii).

Global Instance token_eq_dec : EqDecision token.
Proof. solve_decision. Defined.

Inductive mode : Type := Plain | SQuote | DQuote.

(** The word being read: [None] between words. *)
Definition push (c : ascii) (w : option (string * bool)) : option (string * bool) :=
  match w with
  | Some (s, e) => Some (s +:+ String c EmptyString, e)
  | None => Some (String c EmptyString, false)
  end.

Definition open_word (w : option (string * bool)) : option (string * bool) :=
  match w with
  | Some x => Some x
  | None => Some (EmptyString, false)
  end.

Definition mark (w : option (string * bool)) : option (string * bool) :=
  match w with
  | Some (s, _) => Some (s, true)
  | None => Some (EmptyString, true)
  end.

Definition flush (w : option (string * bool)) (k : list token) : list token :=
  match w with
  | Some (s, e) => Word s e :: k
  | None => k
  end.

Definition is_blank (c : ascii) : bool :=
  bool_decide (c = " "%char) || bool_decide (c = "009"%char).

(** The characters that end a word and stand for themselves: the control
    and redirection operators and the newline. *)
Definition is_operator (c : ascii) : bool :=
  bool_decide (c = ";"%char) || bool_decide (c = "&"%char)
  || bool_decide (c = "|"%char) || bool_decide (c = "("%char)
  || bool_decide (c = ")"%char) || bool_decide (c = "<"%char)
  || bool_decide (c = ">"%char) || bool_decide (c = "010"%char).

Definition is_expansion (c : ascii) : bool :=
  bool_decide (c = "$"%char) || bool_decide (c = "`"%char).

(** What a backslash escapes between double quotes. *)
Definition dq_escapable (c : ascii) : bool :=
  is_expansion c || bool_decide (c = dquote) || bool_decide (c = "\"%char).

(** Token recognition of the POSIX shell (XCU 2.2 and 2.3), without
    comments, here-documents and aliases: between single quotes every
    character is literal; between double quotes a backslash escapes the
    four characters of [dq_escapable]; outside quotes a backslash escapes
    the next character, blanks separate words and an operator character
    ends the word.  [None]: a quote is left open. *)
Fixpoint lex (m : mode) (w : option (string * bool)) (s : string)
    : option (list token) :=
  match s with
  | EmptyString =>
      match m with
      | Plain => Some (flush w [])
      | _ => None
      end
  | String c s' =>
      match m with
      | SQuote =>
          if bool_decide (c = "'"%char) then lex Plain w s'
          else lex SQuote (push c w) s'
      | DQuote =>
          if bool_decide (c = dquote) then lex Plain w s'
          else if bool_decide (c = "\"%char) then
            match s' with
            | String c2 s'' =>
                if dq_escapable c2 then lex DQuote (push c2 w) s''
                else if bool_decide (c2 = "010"%char) then lex DQuote w s''
                else lex DQuote (push c2 (push c w)) s''
            | EmptyString => None
            end
          else if is_expansion c then lex DQuote (mark (push c w)) s'
          else lex DQuote (push c w) s'
      | Plain =>
          if bool_decide (c = "'"%char) then lex SQuote (open_word w) s'
          else if bool_decide (c = dquote) then lex DQuote (open_word w) s'
          else if bool_decide (c = "\"%char) then
            match s' with
            | String c2 s'' =>
                if bool_decide (c2 = "010"%char) then lex Plain w s''
                else lex Plain (push c2 w) s''
            | EmptyString => Some (flush (push c w) [])
            end
          else if is_blank c then option_map (flush w) (lex Plain None s')
          else if is_operator c then
            option_map (fun k => flush w (Op c :: k)) (lex Plain None s')
          else if is_expansion c then lex Plain (mark (push c w)) s'
          else lex Plain (push c w) s'
      end
  end.

(** The tokens of a command line. *)
Definition tokens (cmdline : string) : option (list token) :=
  lex Plain None cmdline.

(** The command line is one simple command whose words are exactly
    [argv], none of them expanded: each argument reaches the command as
    the literal text. *)
Definition runs_exactly (cmdline : string) (argv : list string) : Prop :=
  tokens cmdline = Some (map (fun a => Word a false) argv).

(** The characters [shlex.quote] leaves alone: [[A-Za-z0-9_@%+=:,./-]]. *)
Definition is_safe (c : ascii) : bool :=
  let n := N_of_ascii c in
  (((48 <=? n) && (n <=? 57)) || ((65 <=? n) && (n <=? 90))
   || ((97 <=? n) && (n <=? 122)))%N
  || bool_decide (c = "_"%char) || bool_decide (c = "@"%char)
  || bool_decide (c = "%"%char) || bool_decide (c = "+"%char)
  || bool_decide (c = "="%char) || bool_decide (c = ":"%char)
  || bool_decide (c = ","%char) || bool_decide (c = "."%char)
  || bool_decide (c = "/"%char) || bool_decide (c = "-"%char).

Fixpoint all_safe (s : string) : bool :=
  match s with
  | EmptyString => true
  | String c s' => is_safe c && all_safe s'
  end.

(** A single quote inside single quotes: close, a double-quoted single
    quote, open again. *)
Definition quoted_squote : string :=
  String "'" (String dquote (String "'" (String dquote (String "'" EmptyString)))).

Fixpoint escape_squotes (s : string) : string :=
  match s with
  | EmptyString => EmptyString
  | String c s' =>
      if bool_decide (c = "'"%char) then quoted_squote +:+ escape_squotes s'
      else String c (escape_squotes s')
  end.

(** [shlex.quote(s)]. *)
Definition shlex_quote (s : string) : string :=
  if negb (Py.truthy s) then "''"
  else if all_safe s then s
  else "'" +:+ escape_squotes s +:+ "'".

End Shell.

(** ** The file editor's view of a remote file *)

Module Editor.

Local Open Scope N_scope.

(** Decoded text: a list of code points. *)
Definition text : Type := list N.

Definition of_string (s : string) : text :=
  map N_of_ascii (list_ascii_of_string s).

Definition REPLACEMENT : N := 65533.

(** A continuation byte, 0x80 to 0xBF. *)
Definition cont (b : N) : bool := (128 <=? b) && (b <=? 191).

(** The second byte a three-byte lead admits (no overlong forms, no
    surrogates). *)
Definition second3 (b0 b1 : N) : bool :=
  if b0 =? 224 then (160 <=? b1) && (b1 <=? 191)
  else if b0 =? 237 then (128 <=? b1) && (b1 <=? 159)
  else cont b1.

(** The second byte a four-byte lead admits (nothing above U+10FFFF). *)
Definition second4 (b0 b1 : N) : bool :=
  if b0 =? 240 then (144 <=? b1) && (b1 <=? 191)
  else if b0 =? 244 then (128 <=? b1) && (b1 <=? 143)
  else cont b1.

(** UTF-8 with [errors='replace'], on byte values: an ill-formed lead
    byte, or the well-formed start of a sequence that the next byte or
    the end of the input breaks off, becomes one U+FFFD, and decoding
    goes on at the byte that broke it. *)
Fixpoint decode_values (bs : list N) : text :=
  match bs with
  | [] => []
  | b0 :: r0 =>
      if b0 <? 128 then b0 :: decode_values r0
      else if (194 <=? b0) && (b0 <=? 223) then
        match r0 with
        | b1 :: r1 =>
            if cont b1 then ((b0 - 192) * 64 + (b1 - 128)) :: decode_values r1
            else REPLACEMENT :: decode_values r0
        | [] => [REPLACEMENT]
        end
      else if (224 <=? b0) && (b0 <=? 239) then
        match r0 with
        | b1 :: r1 =>
            if second3 b0 b1 then
              match r1 with
              | b2 :: r2 =>
                  if cont b2
                  then ((b0 - 224) * 4096 + (b1 - 128) * 64 + (b2 - 128))
                         :: decode_values r2
                  else REPLACEMENT :: decode_values r1
              | [] => [REPLACEMENT]
              end
            else REPLACEMENT :: decode_values r0
        | [] => [REPLACEMENT]
        end
      else if (240 <=? b0) && (b0 <=? 244) then
        match r0 with
        | b1 :: r1 =>
            if second4 b0 b1 then
              match r1 with
              | b2 :: r2 =>
                  if cont b2 then
                    match r2 with
                    | b3 :: r3 =>
                        if cont b3
                        then ((b0 - 240) * 262144 + (b1 - 128) * 4096
                              + (b2 - 128) * 64 + (b3 - 128))
                               :: decode_values r3
                        else REPLACEMENT :: decode_values r2
                    | [] => [REPLACEMENT]
                    end
                  else REPLACEMENT :: decode_values r1
              | [] => [REPLACEMENT]
              end
            else REPLACEMENT :: decode_values r0
        | [] => [REPLACEMENT]
        end
      else REPLACEMENT :: decode_values r0
  end.

(** [bytes.decode('utf-8', errors='replace')]. *)
Definition decode_replace (bs : list Byte.byte) : text :=
  decode_values (map Byte.to_N bs).

Definition newline : Byte.byte := Byte.x0a.

(** [head -n n]: the first [n] lines, each with its newline. *)
Fixpoint head_n (n : Z) (bs : list Byte.byte) : list Byte.byte :=
  match bs with
  | [] => []
  | b :: r =>
      if (n <=? 0)%Z then []
      else b :: head_n (if Byte.eqb b newline then (n - 1)%Z else n) r
  end.

(** [head -c n]: the first [n] bytes. *)
Fixpoint head_c (n : Z) (bs : list Byte.byte) : list Byte.byte :=
  match bs with
  | [] => []
  | b :: r => if (n <=? 0)%Z then [] else b :: head_c (n - 1)%Z r
  end.

(** The slice [content[:n]] for [n >= 0]. *)
Fixpoint slice_to (n : Z) (content : text) : text :=
  match content with
  | [] => []
  | c :: r => if (n <=? 0)%Z then [] else c :: slice_to (n - 1)%Z r
  end.

(** [len(content)]. *)
Definition len (content : text) : Z := Z.of_nat (length content).

Definition MAX_DISPLAY_SIZE : Z := 5000000.
Definition MAX_LINES : Z := 50000.
Definition TRUNCATE_MESSAGE : text :=
  10 :: 10 :: of_string "[TRUNCATED - FILE TOO LARGE TO DISPLAY FULLY]".

(** The content [handle_file_content] stores for a remote file with the
    bytes [file]: [stat -c%s] reports their number; above the threshold
    the text comes from [head -n MAX_LINES | head -c MAX_DISPLAY_SIZE],
    otherwise from [cat]. *)
Definition load (file : list Byte.byte) : text :=
  let file_size := Z.of_nat (length file) in
  if (MAX_DISPLAY_SIZE <? file_size)%Z then
    let content := decode_replace (head_c MAX_DISPLAY_SIZE (head_n MAX_LINES file)) in
    if (MAX_DISPLAY_SIZE <=? len content)%Z
    then slice_to MAX_DISPLAY_SIZE content ++ TRUNCATE_MESSAGE
    else content
  else decode_replace file.

(** The buffer is marked as truncated: it ends with the marker. *)
Definition truncated (content : text) : Prop := TRUNCATE_MESSAGE `suffix_of` content.

(** The sample of the large-file case: five million and one empty
    lines. *)
Definition many_lines : list Byte.byte := replicate (Z.to_nat 5000001) newline.

End Editor.

(** ** The HPC session: reactive values, remote commands, handlers *)

Module Hpc.

Local Open Scope Z_scope.

(** The line feed as a string. *)
Definition nl : string := String "010" EmptyString.

(** The [type] argument of [ui.notification_show]. *)
Inductive level : Type := Message | Warning | Error.

Record notification : Type := Notify { note_text : string; note_type : level }.

(** A row of the listing: the dictionary with the keys [name], [type],
    [size], [owner] and [perms]. *)
Record item : Type := Item {
  item_name : string;
  item_type : string;
  item_size : string;
  item_owner : string;
  item_perms : string
}.

Global Instance item_eq_dec : EqDecision item.
Proof. solve_decision. Defined.

(** A row of the job queue table ([Job ID], [Name], [Status], [Time]). *)
Record job : Type := Job {
  job_id : string;
  job_name : string;
  job_status : string;
  job_time : string
}.

(** The live [paramiko.SSHClient]. *)
Record client : Type := Client { client_host : string; client_user : string }.

(** What [exec_command] and the reads of its streams come to: an
    exception, or the decoded standard output and error with the exit
    status. *)
Inductive outcome : Type :=
| Raised (e : string)
| Done (stdout stderr : string) (exit_status : Z).

(** The reactive values of the server function (lines 1690 to 1704 of
    [app.py]), with what the user interface was told: the notifications
    shown, oldest first, and whether the editor's modal is up; the rows
    the calculation [get_hpc_files] returned when it last ran, which the
    grid shows; and, for [current_dir] and [ssh_client], whose
    dependents are told of another object and not of another value, the
    number of objects the value has held. *)
Record state : Type := State {
  ssh_client : option client;
  current_dir : string;
  hpc_connected : bool;
  hpc_output_log : string;
  file_content : Editor.text;
  editor_visible : bool;
  selected_hpc_item : option item;
  hpc_refresh_trigger : Z;
  available_modules : list string;
  selected_modules : list string;
  job_queue_df : list job;
  notifications : list notification;
  modal_shown : bool;
  hpc_files : list item;
  current_dir_object : nat;
  ssh_client_object : nat
}.

(** The session as the server function creates it. *)
Definition initial : state :=
  {| ssh_client := None; current_dir := "~"; hpc_connected := false;
     hpc_output_log := "Waiting for command output..."; file_content := [];
     editor_visible := false; selected_hpc_item := None;
     hpc_refresh_trigger := 0; available_modules := []; selected_modules := [];
     job_queue_df := []; notifications := []; modal_shown := false;
     hpc_files := []; current_dir_object := 0; ssh_client_object := 0 |}.

(** [Value.set] does nothing when the object it is given is the one it
    holds, and tells the dependents of the value otherwise.  [None] is
    one object, and a client that [connect_hpc] has just built is
    another object than any the value held. *)
Definition set_ssh_client (v : option client) (st : state) : state :=
  match v, ssh_client st with
  | None, None => st
  | _, _ =>
      State v (current_dir st) (hpc_connected st) (hpc_output_log st) (file_content st)
        (editor_visible st) (selected_hpc_item st) (hpc_refresh_trigger st)
        (available_modules st) (selected_modules st) (job_queue_df st)
        (notifications st) (modal_shown st)
        (hpc_files st) (current_dir_object st) (S (ssh_client_object st))
  end.

(** The strings the handlers store in [current_dir] are the literal [~]
    or built by the call that stores them ([decode] and [strip],
    [normpath]).  CPython keeps one object for the empty string and for
    each string of one character, and builds another object for every
    longer string: the string stored is the object held exactly when it
    is equal to the one held and that short. *)
Definition same_object (held new : string) : bool :=
  bool_decide (new = held) && (String.length new <=? 1)%nat.

Definition set_current_dir (v : string) (st : state) : state :=
  if same_object (current_dir st) v then st
  else
    State (ssh_client st) v (hpc_connected st) (hpc_output_log st) (file_content st)
      (editor_visible st) (selected_hpc_item st) (hpc_refresh_trigger st)
      (available_modules st) (selected_modules st) (job_queue_df st)
      (notifications st) (modal_shown st)
      (hpc_files st) (S (current_dir_object st)) (ssh_client_object st).

Definition set_hpc_connected (v : bool) (st : state) : state :=
  State (ssh_client st) (current_dir st) v (hpc_output_log st) (file_content st)
    (editor_visible st) (selected_hpc_item st) (hpc_refresh_trigger st)
    (available_modules st) (selected_modules st) (job_queue_df st)
    (notifications st) (modal_shown st)
    (hpc_files st) (current_dir_object st) (ssh_client_object st).

Definition set_hpc_output_log (v : string) (st : state) : state :=
  State (ssh_client st) (current_dir st) (hpc_connected st) v (file_content st)
    (editor_visible st) (selected_hpc_item st) (hpc_refresh_trigger st)
    (available_modules st) (selected_modules st) (job_queue_df st)
    (notifications st) (modal_shown st)
    (hpc_files st) (current_dir_object st) (ssh_client_object st).

Definition set_file_content (v : Editor.text) (st : state) : state :=
  State (ssh_client st) (current_dir st) (hpc_connected st) (hpc_output_log st) v
    (editor_visible st) (selected_hpc_item st) (hpc_refresh_trigger st)
    (available_modules st) (selected_modules st) (job_queue_df st)
    (notifications st) (modal_shown st)
    (hpc_files st) (current_dir_object st) (ssh_client_object st).

Definition set_editor_visible (v : bool) (st : state) : state :=
  State (ssh_client st) (current_dir st) (hpc_connected st) (hpc_output_log st)
    (file_content st) v (selected_hpc_item st) (hpc_refresh_trigger st)
    (available_modules st) (selected_modules st) (job_queue_df st)
    (notifications st) (modal_shown st)
    (hpc_files st) (current_dir_object st) (ssh_client_object st).

Definition set_selected_hpc_item (v : option item) (st : state) : state :=
  State (ssh_client st) (current_dir st) (hpc_connected st) (hpc_output_log st)
    (file_content st) (editor_visible st) v (hpc_refresh_trigger st)
    (available_modules st) (selected_modules st) (job_queue_df st)
    (notifications st) (modal_shown st)
    (hpc_files st) (current_dir_object st) (ssh_client_object st).

(** [hpc_refresh_trigger.set(hpc_refresh_trigger() + 1)]. *)
Definition bump_refresh (st : state) : state :=
  State (ssh_client st) (current_dir st) (hpc_connected st) (hpc_output_log st)
    (file_content st) (editor_visible st) (selected_hpc_item st)
    (hpc_refresh_trigger st + 1)
    (available_modules st) (selected_modules st) (job_queue_df st)
    (notifications st) (modal_shown st)
    (hpc_files st) (current_dir_object st) (ssh_client_object st).

Definition set_available_modules (v : list string) (st : state) : state :=
  State (ssh_client st) (current_dir st) (hpc_connected st) (hpc_output_log st)
    (file_content st) (editor_visible st) (selected_hpc_item st)
    (hpc_refresh_trigger st) v (selected_modules st) (job_queue_df st)
    (notifications st) (modal_shown st)
    (hpc_files st) (current_dir_object st) (ssh_client_object st).

Definition set_selected_modules (v : list string) (st : state) : state :=
  State (ssh_client st) (current_dir st) (hpc_connected st) (hpc_output_log st)
    (file_content st) (editor_visible st) (selected_hpc_item st)
    (hpc_refresh_trigger st) (available_modules st) v (job_queue_df st)
    (notifications st) (modal_shown st)
    (hpc_files st) (current_dir_object st) (ssh_client_object st).

Definition set_job_queue_df (v : list job) (st : state) : state :=
  State (ssh_client st) (current_dir st) (hpc_connected st) (hpc_output_log st)
    (file_content st) (editor_visible st) (selected_hpc_item st)
    (hpc_refresh_trigger st) (available_modules st) (selected_modules st) v
    (notifications st) (modal_shown st)
    (hpc_files st) (current_dir_object st) (ssh_client_object st).

(** [ui.notification_show(text, type=...)]. *)
Definition notify (text : string) (l : level) (st : state) : state :=
  State (ssh_client st) (current_dir st) (hpc_connected st) (hpc_output_log st)
    (file_content st) (editor_visible st) (selected_hpc_item st)
    (hpc_refresh_trigger st) (available_modules st) (selected_modules st)
    (job_queue_df st) (notifications st ++ [Notify text l]) (modal_shown st)
    (hpc_files st) (current_dir_object st) (ssh_client_object st).

(** [ui.modal_show] and [ui.modal_remove]. *)
Definition set_modal_shown (v : bool) (st : state) : state :=
  State (ssh_client st) (current_dir st) (hpc_connected st) (hpc_output_log st)
    (file_content st) (editor_visible st) (selected_hpc_item st)
    (hpc_refresh_trigger st) (available_modules st) (selected_modules st)
    (job_queue_df st) (notifications st) v
    (hpc_files st) (current_dir_object st) (ssh_client_object st).

(** The rows of the calculation [get_hpc_files], kept until it runs
    again. *)
Definition set_hpc_files (v : list item) (st : state) : state :=
  State (ssh_client st) (current_dir st) (hpc_connected st) (hpc_output_log st)
    (file_content st) (editor_visible st) (selected_hpc_item st)
    (hpc_refresh_trigger st) (available_modules st) (selected_modules st)
    (job_queue_df st) (notifications st) (modal_shown st)
    v (current_dir_object st) (ssh_client_object st).

(** *** The command lines the handlers build *)

(** [get_hpc_files]: the long listing without its summary line. *)
Definition ls_cmd (cwd : string) : string :=
  "ls -l " +:+ cwd +:+ " | awk 'NR>1 {print $0}'".

(** [execute_command]: [full_cmd]. *)
Definition console_cmd (cwd cmd : string) : string :=
  "cd " +:+ cwd +:+ " && bash -l -c '" +:+ cmd +:+ "'".

(** [handle_open_action]: the existence test of the target directory. *)
Definition test_dir_cmd (new_path : string) : string :=
  "[ -d " +:+ String Shell.dquote new_path +:+ String Shell.dquote " ]".

(** [delete_selected_item]: [cmd]. *)
Definition delete_cmd (cwd : string) (it : item) : string :=
  let full_path := PosixPath.join cwd (item_name it) in
  if bool_decide (item_type it = "Directory")
  then "rm -rf '" +:+ full_path +:+ "'"
  else "rm '" +:+ full_path +:+ "'".

(** [handle_job_submission]: [mkdir_cmd], with the working directory
    passed through [shlex.quote]. *)
Definition mkdir_cmd (working_dir : string) : string :=
  "mkdir -p " +:+ Shell.shlex_quote working_dir.

Definition squeue_cmd (user : string) : string :=
  "squeue -u " +:+ user +:+ " --format='%A|%j|%T|%M'".

Definition sinfo_cmd : string :=
  "bash -l -c 'sinfo --format=" +:+ String Shell.dquote ("%P" +:+ String Shell.dquote "'").

Definition module_avail_cmd : string := "bash -l -c 'module -t avail 2>&1'".

(** *** The listing *)

(** The synthetic entry of the parent directory. *)
Definition dotdot : item :=
  {| item_name := ".."; item_type := "Directory"; item_size := "";
     item_owner := ""; item_perms := "drwxr-xr-x" |}.

(** The body of the loop over the lines of the listing: the entry a
    line contributes, if any. *)
Definition parse_line (line : string) : option item :=
  let parts := Py.split_ws line in
  if bool_decide (9 <= length parts)%nat then
    let name := Py.join " " (drop 8 parts) in
    if Py.startswith name "." then None
    else Some {| item_name := name;
                 item_type := if Py.startswith (default "" (parts !! 0%nat)) "d"
                              then "Directory" else "File";
                 item_size := default "" (parts !! 4%nat);
                 item_owner := default "" (parts !! 2%nat);
                 item_perms := default "" (parts !! 0%nat) |}
  else None.

(** The rows [get_hpc_files] builds from the output of the listing
    command in the directory [cwd]. *)
Definition parse_listing (cwd output : string) : list item :=
  (if bool_decide (cwd ≠ "/") then [dotdot] else [])
    ++ omap parse_line (Py.splitlines output).

(** *** The partitions *)

(** The body of the inner loop of [get_hpc_partitions]: [acc] holds
    [partitions] and [default]. *)
Definition scan_part (acc : list string * string) (part : string)
    : list string * string :=
  let clean_part := Py.strip part in
  if Py.truthy clean_part then
    if Py.contains "*" clean_part then
      let clean_part := Py.remove_char "*" clean_part in
      (acc.1 ++ [clean_part],
       if negb (Py.truthy acc.2) then clean_part else acc.2)
    else (acc.1 ++ [clean_part], acc.2)
  else acc.

(** What [get_hpc_partitions] returns for the stripped output
    [raw_output] of the partition query. *)
Definition parse_partitions (raw_output : string) : list string * string :=
  if Py.truthy raw_output then
    let lines := Py.split "010" raw_output in
    let acc :=
      foldl (fun acc line => foldl scan_part acc (Py.split "," line))
            ([], "") (tail lines) in
    let partitions := Py.sorted (Py.list_set acc.1) in
    let default :=
      if negb (Py.truthy acc.2)
      then match partitions with p :: _ => p | [] => acc.2 end
      else acc.2 in
    (partitions, default)
  else ([], "").

(** *** The selected modules *)

(** [add_selected_module] on the list of selected modules. *)
Definition add_module (m : string) (selected : list string) : list string :=
  if Py.truthy m && negb (bool_decide (m ∈ selected))
  then selected ++ [m] else selected.

(** The handler of [input.module_to_remove] on the list of selected
    modules. *)
Definition remove_module (m : string) (selected : list string) : list string :=
  if Py.truthy m && bool_decide (m ∈ selected)
  then filter (fun x => x ≠ m) selected else selected.

(** *** The environment of one cycle *)

(** The form fields and the answers of the outside world while one user
    action is served: whether [client.connect], [client.close] and
    [session.send_custom_message] raise (and with what text), what each
    remote command line comes to, the bytes behind each remote path (what
    [stat], [cat] and [head] read), the frame pandas builds from the text
    of the job queue ([None] when it raises), and the test of a module
    line against the pattern of [load_modules]. *)
Record env : Type := Env {
  hpc_host : string;
  hpc_user : string;
  connect_error : option string;
  exec_command : string -> outcome;
  close_error : option string;
  send_error : option string;
  remote_file : string -> option (list Byte.byte);
  queue_frame : string -> option (list job);
  module_line : string -> bool
}.

Section Handlers.

Variable E : env.

(** [ssh_client().exec_command(cmd)] and the reads that follow it. *)
Definition run (st : state) (cmd : string) : outcome :=
  match ssh_client st with
  | Some _ => exec_command E cmd
  | None => Raised "'NoneType' object has no attribute 'exec_command'"
  end.

Definition connect_hpc (st : state) : state :=
  let failed e :=
    set_hpc_connected false
      (set_ssh_client None (notify ("Connection failed: " +:+ e) Error st)) in
  match connect_error E with
  | Some e => failed e
  | None =>
      match exec_command E "echo $HOME" with
      | Raised e => failed e
      | Done stdout _ _ =>
          let home_path := Py.strip stdout in
          notify "HPC connection established" Message
            (set_hpc_connected true
               (set_ssh_client (Some (Client (hpc_host E) (hpc_user E)))
                  (set_current_dir home_path st)))
      end
  end.

Definition disconnect_hpc (st : state) : state :=
  match ssh_client st with
  | Some _ =>
      let st1 :=
        match close_error E with
        | None => notify "Disconnected from HPC" Message st
        | Some e => notify ("Error disconnecting: " +:+ e) Error st
        end in
      bump_refresh
        (set_current_dir "~" (set_hpc_connected false (set_ssh_client None st1)))
  | None => notify "Not connected to HPC" Warning st
  end.

(** The body of the calculation [get_hpc_files]: the listing, with the
    notification it shows when the remote command raises. *)
Definition get_hpc_files (st : state) : list item * option notification :=
  if negb (hpc_connected st) then ([], None)
  else
    match run st (ls_cmd (current_dir st)) with
    | Raised e => ([], Some (Notify ("Error listing directory: " +:+ e) Error))
    | Done output _ _ => (parse_listing (current_dir st) output, None)
    end.

Definition refresh_hpc_listing (st : state) : state := bump_refresh st.

(** [handle_selection]: [get_hpc_files()] is read where the calculation
    is valid (the grid whose rows are selected has been rendered from
    it), so it gives the rows it returned when it last ran. *)
Definition handle_selection (selected : list Z) (st : state) : state :=
  let df := hpc_files st in
  match selected with
  | selected_idx :: _ =>
      if bool_decide (df = []) then
        set_editor_visible false (set_selected_hpc_item None st)
      else if (0 <=? selected_idx) && (selected_idx <? Z.of_nat (length df)) then
        set_selected_hpc_item (df !! Z.to_nat selected_idx) st
      else st
  | [] => set_editor_visible false (set_selected_hpc_item None st)
  end.

Definition execute_command (hpc_command : string) (st : state) : state :=
  if negb (hpc_connected st) then notify "Not connected to HPC" Warning st
  else
    let cmd := Py.strip hpc_command in
    if negb (Py.truthy cmd) then st
    else
      let full_cmd := console_cmd (current_dir st) cmd in
      match run st full_cmd with
      | Raised e => notify ("Execution failed: " +:+ e) Error st
      | Done output error _ =>
          let new_content := "$ " +:+ full_cmd +:+ nl +:+ output +:+ error in
          let st1 :=
            set_hpc_output_log (hpc_output_log st +:+ nl +:+ nl +:+ new_content) st in
          match send_error E with
          | Some e => notify ("Execution failed: " +:+ e) Error st1
          | None =>
              if Py.truthy error
              then notify ("Command error: " +:+ error) Warning st1
              else st1
          end
      end.

(** The effect on [current_dir]. *)
Definition reset_selection (st : state) : state :=
  match send_error E with
  | Some _ => st
  | None =>
      set_file_content []
        (set_editor_visible false (set_selected_hpc_item None st))
  end.

(** The effect on [current_dir] and on the selected rows. *)
Definition auto_close_editor (st : state) : state := set_modal_shown false st.

(** [handle_file_content]: the state and the returned truth value. *)
Definition handle_file_content (selected_row : item) (st : state) : state * bool :=
  let filename := item_name selected_row in
  let full_path := PosixPath.join (current_dir st) filename in
  match ssh_client st with
  | None =>
      (notify "File handling error: 'NoneType' object has no attribute 'exec_command'"
         Error st, false)
  | Some _ =>
      match remote_file E full_path with
      | None =>
          (notify "File handling error: invalid literal for int() with base 10: ''"
             Error st, false)
      | Some file =>
          let st1 :=
            if Editor.MAX_DISPLAY_SIZE <? Z.of_nat (length file)
            then notify "Large file detected - showing first portion only" Warning st
            else st in
          (set_file_content (Editor.load file) st1, true)
      end
  end.

(** The path [handle_open_action] tests and moves to. *)
Definition target_path (cwd : string) (it : item) : string :=
  let current_path := Py.rstrip_char "/" cwd in
  let target_name := item_name it in
  PosixPath.normpath
    (if negb (bool_decide (target_name = ".."))
     then PosixPath.join current_path target_name
     else PosixPath.dirname current_path).

Definition handle_open_action (st : state) : state :=
  match selected_hpc_item st with
  | None => st
  | Some it =>
      if bool_decide (item_type it = "Directory") then
        let new_path := target_path (current_dir st) it in
        match run st (test_dir_cmd new_path) with
        | Raised e => notify ("Open action failed: " +:+ e) Error st
        | Done _ _ exit_status =>
            if exit_status =? 0
            then bump_refresh (set_current_dir new_path st)
            else notify ("Invalid directory: " +:+ new_path) Warning st
        end
      else
        let r := handle_file_content it st in
        if r.2 then set_modal_shown true r.1 else r.1
  end.

Definition delete_selected_item (st : state) : state :=
  match selected_hpc_item st with
  | None => st
  | Some it =>
      match run st (delete_cmd (current_dir st) it) with
      | Raised e => notify ("Deletion error: " +:+ e) Error st
      | Done _ error exit_status =>
          if exit_status =? 0
          then set_selected_hpc_item None
                 (bump_refresh (notify ("Deleted " +:+ item_name it) Message st))
          else notify ("Deletion failed: " +:+ error) Error st
      end
  end.

(** The effect on [input.refresh_queue] and [hpc_connected]. *)
Definition update_slurm_queue (st : state) : state :=
  if negb (hpc_connected st) then set_job_queue_df [] st
  else if negb (Py.truthy (hpc_user E)) then set_job_queue_df [] st
  else
    match run st (squeue_cmd (hpc_user E)) with
    | Raised _ => set_job_queue_df [] st
    | Done stdout stderr _ =>
        let output := Py.strip stdout in
        let error := Py.strip stderr in
        if Py.truthy error then set_job_queue_df [] st
        else if negb (Py.truthy output) then set_job_queue_df [] st
        else match queue_frame E output with
             | Some df => set_job_queue_df df st
             | None => set_job_queue_df [] st
             end
    end.

Definition load_modules (st : state) : state :=
  match run st module_avail_cmd with
  | Raised e =>
      set_available_modules [] (notify ("Module load failed: " +:+ e) Error st)
  | Done raw_output _ _ =>
      set_available_modules
        (Py.sorted (map Py.strip (filter (fun line => module_line E line)
                                         (Py.splitlines raw_output))))
        st
  end.

(** The effects on [input.create_job]: the modules are loaded when the
    session is connected, and the dialog is shown. *)
Definition show_job_creator (st : state) : state :=
  if negb (hpc_connected st) then notify "Connect to HPC first!" Error st
  else set_modal_shown true st.

Definition create_job (st : state) : state :=
  show_job_creator (if hpc_connected st then load_modules st else st).

Definition add_selected_module (module_select : string) (st : state) : state :=
  set_selected_modules (add_module module_select (selected_modules st)) st.

Definition remove_selected_module (module_to_remove : string) (st : state) : state :=
  set_selected_modules (remove_module module_to_remove (selected_modules st)) st.

(** [get_hpc_partitions]. *)
Definition get_hpc_partitions (st : state) : list string * string :=
  match ssh_client st with
  | None => ([], "")
  | Some _ =>
      if negb (hpc_connected st) then ([], "")
      else match exec_command E sinfo_cmd with
           | Raised _ => ([], "")
           | Done stdout _ _ => parse_partitions (Py.strip stdout)
           end
  end.

(** *** One user action and the effects it triggers *)

(** The inputs whose change starts a cycle. *)
Inductive action : Type :=
| Hpc_connect
| Hpc_disconnect
| Hpc_refresh
| Selected_rows (rows : list Z)
| Hpc_open
| Hpc_delete
| Hpc_execute (hpc_command : string)
| Refresh_queue
| Create_job
| Add_module (module_select : string)
| Module_to_remove (m : string).

(** The effect that listens to the input. *)
Definition handler (a : action) (st : state) : state :=
  match a with
  | Hpc_connect => connect_hpc st
  | Hpc_disconnect => disconnect_hpc st
  | Hpc_refresh => refresh_hpc_listing st
  | Selected_rows rows => auto_close_editor (handle_selection rows st)
  | Hpc_open => handle_open_action st
  | Hpc_delete => delete_selected_item st
  | Hpc_execute c => execute_command c st
  | Refresh_queue => update_slurm_queue st
  | Create_job => create_job st
  | Add_module m => add_selected_module m st
  | Module_to_remove m => remove_selected_module m st
  end.

(** The effects that listen to reactive values, run in the same flush
    as the handler: those on [current_dir] when the handler gave it
    another object, the one on [hpc_connected] when the handler gave it
    the other truth value (the two truth values are two objects). *)
Definition effects (before after : state) : state :=
  let st1 :=
    if bool_decide (current_dir_object after = current_dir_object before) then after
    else auto_close_editor (reset_selection after) in
  if bool_decide (hpc_connected after = hpc_connected before) then st1
  else update_slurm_queue st1.

(** Whether a value the calculation [get_hpc_files] read when it last
    ran was set: it reads the refresh trigger and [hpc_connected], and
    the client and the directory when the session is connected. *)
Definition files_invalidated (before after : state) : bool :=
  negb (bool_decide (hpc_refresh_trigger after = hpc_refresh_trigger before))
  || negb (bool_decide (hpc_connected after = hpc_connected before))
  || (hpc_connected before
      && (negb (bool_decide (current_dir_object after = current_dir_object before))
          || negb (bool_decide (ssh_client_object after = ssh_client_object before)))).

(** The grid asks for the rows in the same flush: the calculation runs
    again when it was invalidated, and shows its notification when the
    listing raises. *)
Definition render_files (before after : state) : state :=
  if files_invalidated before after then
    let r := get_hpc_files after in
    set_hpc_files r.1
      (match r.2 with
       | Some n => notify (note_text n) (note_type n) after
       | None => after
       end)
  else after.

(** One flush: the handler, then the effects and the calculation of the
    rows; the outputs are rendered from the state it ends in, and the
    browser is sent them when the flush is over. *)
Definition cycle (a : action) (st : state) : state :=
  render_files st (effects st (handler a st)).

End Handlers.

(** A session: each action with the environment it is served in. *)
Definition run_session (tr : list (env * action)) (st : state) : state :=
  foldl (fun s ea => cycle ea.1 ea.2 s) st tr.

(** The module selection after a sequence of additions and removals. *)
Inductive module_op : Type := Add (m : string) | Remove (m : string).

Definition apply_op (selected : list string) (o : module_op) : list string :=
  match o with
  | Add m => add_module m selected
  | Remove m => remove_module m selected
  end.

Definition apply_ops (ops : list module_op) (selected : list string) : list string :=
  foldl apply_op selected ops.

(** The selection holds no module twice and never the empty name. *)
Definition tidy (selected : list string) : Prop :=
  NoDup selected /\ "" ∉ selected.

(** The specification's sentence on [disconnect], as it is written:
    with a live client the cycle of [Hpc_disconnect] ends disconnected,
    in the directory [~], with the selection, the module catalog and the
    job queue emptied; without one it only reports that the session is
    not connected.  (The session keeps no partition catalog.) *)
Definition disconnect_resets_everything : Prop :=
  forall (E : env) (st : state),
    let st' := cycle E Hpc_disconnect st in
    match ssh_client st with
    | Some _ =>
        hpc_connected st' = false /\ current_dir st' = "~"
        /\ selected_hpc_item st' = None /\ available_modules st' = []
        /\ job_queue_df st' = []
    | None => st' = notify "Not connected to HPC" Warning st
    end.

(** The specification's sentence on the selection, as it is written:
    after every navigation that changes the directory and after every
    removal that succeeds, no item is selected. *)
Definition selection_always_cleared : Prop :=
  forall (E : env) (st : state),
    (current_dir (cycle E Hpc_open st) ≠ current_dir st ->
     selected_hpc_item (cycle E Hpc_open st) = None)
    /\ (forall it stdout stderr,
          selected_hpc_item st = Some it ->
          run E st (delete_cmd (current_dir st) it) = Done stdout stderr 0 ->
          selected_hpc_item (cycle E Hpc_delete st) = None).

End Hpc.

(** ** The partition list as the specification words it *)

Module PartitionSpec.

(** The rows below the header. *)
Definition rows (raw_output : string) : list string :=
  tail (Py.split "010" raw_output).

(** The stripped, non-empty fields of comma-separated lines. *)
Definition fields_of (parts : list string) : list string :=
  filter (fun f => f ≠ "") (map Py.strip parts).

(** A field without its default markers. *)
Definition unstarred (field : string) : string := Py.remove_char "*" field.

(** The names of the starred fields, in order, the empty ones dropped. *)
Definition starred_of (parts : list string) : list string :=
  filter (fun n => n ≠ "")
         (map unstarred (filter (fun f => Py.contains "*" f = true) (fields_of parts))).

(** The comma-separated fields of the rows. *)
Definition fields (raw_output : string) : list string :=
  fields_of (concat (map (Py.split ",") (rows raw_output))).

(** The partitions the rows name. *)
Definition names (raw_output : string) : list string :=
  map unstarred (fields raw_output).

(** The starred partitions of the rows, in order. *)
Definition starred_names (raw_output : string) : list string :=
  starred_of (concat (map (Py.split ",") (rows raw_output))).

(** The input of the specification's example. *)
Definition example : string :=
  "partition" +:+ Hpc.nl +:+ "debug*,batch" +:+ Hpc.nl +:+ "gpu".

End PartitionSpec.

(** ** The credential store ([auth_db.py]) *)

Module AuthDb.

Local Open Scope Z_scope.

(** A row of the table [users]; [created_at] is never read. *)
Record user : Type := User {
  user_id : Z;
  username : string;
  password_hash : string
}.

(** What a function of the module comes to: a value or an exception. *)
Inductive result (A : Type) : Type :=
| Return (a : A)
| Raise (e : string).
Arguments Return {A} a.
Arguments Raise {A} e.

(** A computation on the table [users], in row order. *)
Definition db (A : Type) : Type := list user -> result A * list user.

Definition ret {A : Type} (a : A) : db A := fun t => (Return a, t).

Definition raise {A : Type} (e : string) : db A := fun t => (Raise e, t).

Definition bind {A B : Type} (m : db A) (k : A -> db B) : db B :=
  fun t =>
    match m t with
    | (Return a, t') => k a t'
    | (Raise e, t') => (Raise e, t')
    end.

Notation "m >>= k" := (bind m k) (at level 58, left associativity).

(** [SELECT id, password_hash FROM users WHERE username = ?] followed by
    [fetchone]. *)
Definition select_user (name : string) : db (option (Z * string)) :=
  fun t =>
    (Return (match filter (fun u => username u = name) t with
             | u :: _ => Some (user_id u, password_hash u)
             | [] => None
             end), t).

(** The row id [AUTOINCREMENT] gives the next row. *)
Definition next_id (t : list user) : Z := 1 + foldr Z.max 0 (map user_id t).

(** [INSERT INTO users (username, password_hash) VALUES (?, ?)]: the
    column [username] is [UNIQUE]. *)
Definition insert_user (name stored : string) : db unit :=
  fun t =>
    if bool_decide (name ∈ map username t)
    then (Raise "IntegrityError: UNIQUE constraint failed: users.username", t)
    else (Return (), t ++ [User (next_id t) name stored]).

Definition byte_of_N (n : N) : Byte.byte := default Byte.x00 (Byte.of_N n).

(** [s.encode('utf-8')] for code points below 256. *)
Fixpoint encode_utf8 (s : string) : list Byte.byte :=
  match s with
  | EmptyString => []
  | String c s' =>
      let n := N_of_ascii c in
      if (n <? 128)%N then byte_of_N n :: encode_utf8 s'
      else byte_of_N (192 + n / 64) :: byte_of_N (128 + n mod 64) :: encode_utf8 s'
  end.

Definition hex_digit (n : N) : ascii :=
  if (n <? 10)%N then ascii_of_N (48 + n) else ascii_of_N (87 + n).

(** [bytes.hex()]. *)
Fixpoint hex (bs : list Byte.byte) : string :=
  match bs with
  | [] => EmptyString
  | b :: r =>
      let n := Byte.to_N b in
      String (hex_digit (n / 16)) (String (hex_digit (n mod 16)) (hex r))
  end.

Definition is_hex_digit (c : ascii) : bool :=
  let n := N_of_ascii c in
  (((48 <=? n) && (n <=? 57)) || ((97 <=? n) && (n <=? 102)))%N.

Fixpoint all_chars (p : ascii -> bool) (s : string) : bool :=
  match s with
  | EmptyString => true
  | String c s' => p c && all_chars p s'
  end.

(** A value [secrets.token_hex(16)] can return: 32 hexadecimal digits. *)
Definition is_token_hex (salt : string) : bool :=
  all_chars is_hex_digit salt && bool_decide (String.length salt = 32%nat).

Definition is_ascii (s : string) : bool :=
  all_chars (fun c => (N_of_ascii c <? 128)%N) s.

(** [secrets.compare_digest] on two strings. *)
Definition compare_digest (a b : string) : db bool :=
  if is_ascii a && is_ascii b then ret (bool_decide (a = b))
  else raise "TypeError: comparing strings with non-ASCII characters is not supported".

Section Hash.

(** [hashlib.pbkdf2_hmac(hash_name, password, salt, iterations)]. *)
Variable pbkdf2_hmac : string -> list Byte.byte -> list Byte.byte -> Z -> list Byte.byte.

(** The hash the module stores and compares. *)
Definition password_digest (password salt : string) : string :=
  hex (pbkdf2_hmac "sha256" (encode_utf8 password) (encode_utf8 salt) 100000).

Definition verify_user (name password : string) : db (option Z) :=
  select_user name >>= fun result =>
  match result with
  | None => ret None
  | Some (uid, stored_hash) =>
      match Py.split "$" stored_hash with
      | [salt; hashed] =>
          let new_hash := password_digest password salt in
          compare_digest hashed new_hash >>= fun same =>
          ret (if same then Some uid else None)
      | [] | [_] => raise "ValueError: not enough values to unpack (expected 2, got 1)"
      | _ => raise "ValueError: too many values to unpack (expected 2)"
      end
  end.

(** [create_user], with the salt [secrets.token_hex(16)] returned. *)
Definition create_user (salt name password : string) : db bool :=
  fun t =>
    match insert_user name (salt +:+ "$" +:+ password_digest password salt) t with
    | (Return _, t') => (Return true, t')
    | (Raise _, t') => (Return false, t')
    end.

(** The part of [init_db] that touches [users]: the administrator is
    added when no row has the name. *)
Definition init_db (salt : string) : db unit :=
  fun t =>
    if bool_decide (filter (fun u => username u = "admin") t = [])
    then insert_user "admin" (salt +:+ "$" +:+ password_digest "admin123" salt) t
    else (Return (), t).

(** The tables the module can bring about, from the empty one. *)
Inductive reachable : list user -> Prop :=
| reach_empty : reachable []
| reach_init salt t :
    reachable t -> is_token_hex salt = true -> reachable (init_db salt t).2
| reach_create salt name password t :
    reachable t -> is_token_hex salt = true ->
    reachable (create_user salt name password t).2.



End Hash.

(** A stand-in for the key derivation, for running the definitions:
    the salt followed by the password. *)
Definition toy_kdf (_ : string) (password salt : list Byte.byte) (_ : Z)
    : list Byte.byte := salt ++ password.

Definition toy_salt : string := "000102030405060708090a0b0c0d0e0f".

(** The table after [init_db] and the creation of the user [ada]. *)
Definition toy_table : list user :=
  (create_user toy_kdf toy_salt "ada" "s3cret" (init_db toy_kdf toy_salt []).2).2.

End AuthDb.

(** ** Sample sessions *)

Module Samples.
Import Hpc.

Local Open Scope Z_scope.

(** The long listing of the home directory on the sample cluster. *)
Definition listing_text : string :=
  "drwxr-xr-x 2 ada users 4096 Jan  1 10:00 results" +:+ nl
  +:+ "-rw-r--r-- 1 ada users 12 Jan  1 10:00 .bashrc" +:+ nl
  +:+ "-rw-r--r-- 1 ada users 120 Jan  1 10:00 run 1.log" +:+ nl.

Definition run_log : item :=
  {| item_name := "run 1.log"; item_type := "File"; item_size := "120";
     item_owner := "ada"; item_perms := "-rw-r--r--" |}.

(** What the sample cluster answers: the commands it knows succeed, any
    other command fails with status 1. *)
Definition answers (cmd : string) : outcome :=
  if bool_decide (cmd = "echo $HOME") then Done ("/home/ada" +:+ nl) "" 0
  else if bool_decide (cmd = ls_cmd "/home/ada") then Done listing_text "" 0
  else if bool_decide (cmd = test_dir_cmd "/home/ada/results") then Done "" "" 0
  else if bool_decide (cmd = delete_cmd "/home/ada" run_log) then Done "" "" 0
  else if bool_decide (cmd = module_avail_cmd)
       then Done ("gcc/12.2" +:+ nl +:+ "python/3.11" +:+ nl) "" 0
  else Done "" "No such file or directory" 1.

Definition cluster : env :=
  {| hpc_host := "hpc.example.org"; hpc_user := "ada"; connect_error := None;
     exec_command := answers; close_error := None; send_error := None;
     remote_file := fun _ => None; queue_frame := fun _ => None;
     module_line := fun _ => true |}.

(** The same cluster when every command fails. *)
Definition failing : env :=
  {| hpc_host := "hpc.example.org"; hpc_user := "ada"; connect_error := None;
     exec_command := fun _ => Done "" "No such file or directory" 1;
     close_error := None; send_error := None;
     remote_file := fun _ => None; queue_frame := fun _ => None;
     module_line := fun _ => true |}.

(** The same cluster when the browser has gone: the messages to it
    raise. *)
Definition closed_socket : env :=
  {| hpc_host := "hpc.example.org"; hpc_user := "ada"; connect_error := None;
     exec_command := answers; close_error := None;
     send_error := Some "WebSocket is closed";
     remote_file := fun _ => None; queue_frame := fun _ => None;
     module_line := fun _ => true |}.

(** Connected, in the home directory. *)
Definition at_home : state := cycle cluster Hpc_connect initial.

(** The directory [results] is selected (row 1; row 0 is the parent). *)
Definition results_selected : state := cycle cluster (Selected_rows [1]) at_home.

(** The file [run 1.log] is selected. *)
Definition log_selected : state := cycle cluster (Selected_rows [2]) at_home.

(** Connected, with the module catalog loaded by opening the job
    dialog. *)
Definition with_modules : state :=
  run_session [(cluster, Hpc_connect); (cluster, Create_job)] initial.

(** An entry whose name holds single quotes, and the entry of the
    specification's example. *)
Definition quoted_item : item :=
  {| item_name := "a'; touch pwned; 'b"; item_type := "File"; item_size := "0";
     item_owner := "ada"; item_perms := "-rw-r--r--" |}.

Definition spec_item : item :=
  {| item_name := "a; rm -rf /"; item_type := "File"; item_size := "0";
     item_owner := "ada"; item_perms := "-rw-r--r--" |}.

End Samples.

(** ** The commands and lines of a job submission *)

Module Jobs.

(** [handle_job_submission]: [remote_path], built from the quoted
    working directory and the quoted job name. *)
Definition script_path (working_dir job_name : string) : string :=
  Shell.shlex_quote working_dir +:+ "/" +:+ Shell.shlex_quote job_name +:+ ".sh".

(** The command that submits the script. *)
Definition sbatch_cmd (working_dir job_name : string) : string :=
  "sbatch " +:+ Shell.shlex_quote (script_path working_dir job_name).

(** The line of the script that loads the selected modules: empty when
    none is selected. *)
Definition module_load_line (selected_modules : list string) : string :=
  match selected_modules with
  | [] => ""
  | _ => "module load " +:+ Py.join " " (map Shell.shlex_quote selected_modules)
  end.

(** [needle in s]. *)
Fixpoint contains_str (needle s : string) : bool :=
  String.prefix needle s
  || match s with
     | EmptyString => false
     | String _ s' => contains_str needle s'
     end.

(** What the submission makes of the streams of [sbatch]. *)
Inductive submission : Type :=
| Submitted (job_id : string)
| Failed (message : string).

(** The end of [handle_job_submission]: the stripped output and error
    of [sbatch] are read for the success marker, and the job id is the
    last word of the output. *)
Definition read_sbatch (stdout stderr : string) : submission :=
  let output := Py.strip stdout in
  let error := Py.strip stderr in
  if negb (Py.truthy output)
  then Failed ("No output from sbatch. Error: " +:+ error)
  else if contains_str "Submitted batch job" output
  then Submitted (default "" (last (Py.split_ws output)))
  else Failed ("Submission failed. Output: " +:+ output +:+ " | Error: " +:+ error).

(** The characters that stand for themselves between double quotes,
    and the texts made of them. *)
Definition dq_plain (c : ascii) : bool :=
  negb (Shell.dq_escapable c).

Definition dq_literal (s : string) : bool := AuthDb.all_chars dq_plain s.

End Jobs.

(** ** Lines of a long listing *)

Module LsLine.

(** No character of the text is white space. *)
Fixpoint no_space (s : string) : bool :=
  match s with
  | EmptyString => true
  | String c s' => negb (Py.isspace c) && no_space s'
  end.

(** Every character of the text is white space. *)
Fixpoint all_space (s : string) : bool :=
  match s with
  | EmptyString => true
  | String c s' => Py.isspace c && all_space s'
  end.

(** A field of a line: not empty, no white space. *)
Definition is_word (s : string) : bool := Py.truthy s && no_space s.

(** A line of [ls -l]: the eight leading fields and the words of the
    name, separated by single blanks. *)
Definition long_line (perms links owner group size month day time : string)
    (name_words : list string) : string :=
  Py.join " " ([perms; links; owner; group; size; month; day; time] ++ name_words).

End LsLine.

(** ** Normal absolute paths *)

Module PathSpec.

(** The name of a directory entry: not empty, without a slash, and
    neither of the two dot entries. *)
Definition is_name (s : string) : bool :=
  Py.truthy s && negb (Py.contains "/" s)
  && negb (bool_decide (s = ".")) && negb (bool_decide (s = "..")).

(** The absolute path with the given components; the root for none. *)
Definition abs_path (comps : list string) : string := "/" +:+ Py.join "/" comps.

(** A listing entry with the given name. *)
Definition entry (name : string) : Hpc.item :=
  {| Hpc.item_name := name; Hpc.item_type := "Directory"; Hpc.item_size := "4096";
     Hpc.item_owner := "ada"; Hpc.item_perms := "drwxr-xr-x" |}.

End PathSpec.

(** ** What every session keeps *)

Module SessionInv.

Import Hpc.

(** The client and the connected flag go together, the selected modules
    are tidy and the refresh trigger is not negative. *)
Definition coherent (st : state) : Prop :=
  (ssh_client st = None <-> hpc_connected st = false)
  /\ tidy (selected_modules st)
  /\ 0 <= hpc_refresh_trigger st.

(** The scrollback, the notifications and the refresh trigger of
    [after] continue those of [before]. *)
Definition grows (before after : state) : Prop :=
  (exists more, hpc_output_log after = hpc_output_log before +:+ more)
  /\ notifications before `prefix_of` notifications after
  /\ hpc_refresh_trigger before <= hpc_refresh_trigger after.

End SessionInv.

(** ** The head of a large file *)

Module EditorHead.

Import Editor.

(** The text [handle_file_content] reads for a file above the
    threshold: [head -n 50000 | head -c 5000000], decoded. *)
Definition head_text (file : list Byte.byte) : text :=
  decode_replace (head_c MAX_DISPLAY_SIZE (head_n MAX_LINES file)).

End EditorHead.

(** ** Sessions of signed-in users ([auth_db.py], [auth.py]) *)

Module AuthSessions.

Import AuthDb.

Local Open Scope Z_scope.

(** The ids of the table [users]: positive, and no two rows share
    one. *)
Definition ids_ok (t : list user) : Prop :=
  NoDup (map user_id t) /\ Forall (fun u => 1 <= user_id u) t.

(** A row of the table [sessions]; [created_at] is never read. *)
Record session : Type := Session {
  session_id : string;
  session_user : Z
}.

(** [create_session], with the token [secrets.token_urlsafe(32)]
    returned: [session_id] is the primary key of the table. *)
Definition create_session (token : string) (uid : Z) (t : list session)
    : result string * list session :=
  if bool_decide (token ∈ map session_id t)
  then (Raise "IntegrityError: UNIQUE constraint failed: sessions.session_id", t)
  else (Return token, t ++ [Session token uid]).

(** [validate_session]. *)
Definition validate_session (sid : string) (t : list session) : option Z :=
  match filter (fun s => session_id s = sid) t with
  | s :: _ => Some (session_user s)
  | [] => None
  end.

(** The statement [DELETE FROM sessions WHERE session_id = ?] of the
    logout handler. *)
Definition delete_session (sid : string) (t : list session) : list session :=
  filter (fun s => session_id s ≠ sid) t.



Section Handlers.

Variable kdf : string -> list Byte.byte -> list Byte.byte -> Z -> list Byte.byte.




End Handlers.

End AuthSessions.

(** ** Downloading the proteomes *)

Module Download.

Local Open Scope Z_scope.

(** What one request for a proteome comes to: status 200 with the
    decompressed text, another status, a client error or a timeout, or
    any other exception (a body that does not decompress or decode). *)
Inductive response : Type :=
| Ok200 (text : string)
| OtherStatus
| ClientError
| Broken (e : string).

(** What [download_proteome_async] returns: the pair of the text and the
    taxon, the pair of [None] and the taxon, or [None] alone when the
    loop runs out; or the exception it lets through. *)
Inductive download : Type :=
| Fetched (text taxa : string)
| GaveUp (taxa : string)
| NoTuple
| Raised (e : string).

Definition RETRIES : nat := 3.
Definition BATCH_SIZE : nat := 50.

(** The loop [for attempt in range(retries)] from [attempt] on, with
    [remaining] rounds to go: the result and the seconds slept. *)
Fixpoint attempts (server : nat -> response) (taxa : string) (retries : nat)
    (attempt remaining : nat) : download * Z :=
  match remaining with
  | O => (NoTuple, 0)
  | S remaining' =>
      match server attempt with
      | Ok200 text => (Fetched text taxa, 0)
      | OtherStatus =>
          let r := attempts server taxa retries (S attempt) remaining' in
          (r.1, 2 ^ Z.of_nat attempt + r.2)
      | ClientError =>
          if bool_decide (attempt = (retries - 1)%nat) then (GaveUp taxa, 0)
          else
            let r := attempts server taxa retries (S attempt) remaining' in
            (r.1, 2 ^ Z.of_nat attempt + r.2)
      | Broken e => (Raised e, 0)
      end
  end.

(** [download_proteome_async]. *)
Definition download_proteome_async (server : nat -> response) (taxa : string)
    (retries : nat) : download * Z :=
  attempts server taxa retries 0 retries.

(** The written file, the failed taxa and the count of processed
    results. *)
Record progress : Type := Progress {
  fasta_file : string;
  failed_downloads : list string;
  processed : nat
}.

(** The preparation ran through, or an exception ended it with the
    file as far as it was written; the exception is one of [errors]. *)
Inductive outcome : Type :=
| Completed (p : progress)
| Aborted (p : progress) (errors : list string).

(** What Python says when [None] is unpacked into two names. *)
Definition UNPACK_ERROR : string := "cannot unpack non-iterable NoneType object".

(** The body of [for proteome_data, taxa in results]. *)
Fixpoint write_results (results : list download) (p : progress) : outcome :=
  match results with
  | [] => Completed p
  | Fetched text taxa :: rest =>
      if Py.truthy text
      then write_results rest
             (Progress (fasta_file p +:+ text) (failed_downloads p) (S (processed p)))
      else write_results rest
             (Progress (fasta_file p) (failed_downloads p ++ [taxa]) (S (processed p)))
  | GaveUp taxa :: rest =>
      write_results rest
        (Progress (fasta_file p) (failed_downloads p ++ [taxa]) (S (processed p)))
  | NoTuple :: _ => Aborted p [UNPACK_ERROR]
  | Raised e :: _ => Aborted p [e]
  end.

(** The exceptions the tasks of a batch raise: [asyncio.gather] lets the
    one through that is raised first, and returns the results in the
    order of the tasks when there is none. *)
Definition raised (batch : list download) : list string :=
  omap (fun d => match d with Raised e => Some e | _ => None end) batch.

(** The loop [for batch_num in range(0, len(tasks), BATCH_SIZE)] over
    the tasks that are left, [rounds] bounding the number of batches. *)
Fixpoint write_batches (rounds : nat) (size : nat) (tasks : list download)
    (p : progress) : outcome :=
  match rounds with
  | O => Completed p
  | S rounds' =>
      match tasks with
      | [] => Completed p
      | _ =>
          let batch := take size tasks in
          match raised batch with
          | [] =>
              match write_results batch p with
              | Completed p' => write_batches rounds' size (drop size tasks) p'
              | Aborted p' errors => Aborted p' errors
              end
          | errors => Aborted p errors
          end
      end
  end.

(** What [prepare_download_handler] raises for a table without rows. *)
Definition NO_PROTEOMES : string := "No proteomes selected for download".

(** [prepare_download_handler] on the results of the tasks, one per row
    of the table: an empty table raises before a file is opened;
    otherwise the loop over the batches runs, which ends within as many
    rounds as there are tasks.  ([fetch_fasta_data] has the loop
    without the test and without the count.) *)
Definition prepare (tasks : list download) : outcome :=
  match tasks with
  | [] => Aborted (Progress "" [] 0) [NO_PROTEOMES]
  | _ => write_batches (length tasks) BATCH_SIZE tasks (Progress "" [] 0)
  end.

(** A response after which the loop goes on. *)
Definition retryable (r : response) : bool :=
  match r with
  | OtherStatus | ClientError => true
  | _ => false
  end.

(** A task that came back with a pair. *)
Definition settled (d : download) : bool :=
  match d with
  | Fetched _ _ | GaveUp _ => true
  | _ => false
  end.

(** The text a settled task contributes, and the taxon it reports as
    failed. *)
Definition text_of (d : download) : string :=
  match d with
  | Fetched text _ => text
  | _ => ""
  end.

Definition failure_of (d : download) : list string :=
  match d with
  | Fetched text taxa => if Py.truthy text then [] else [taxa]
  | GaveUp taxa => [taxa]
  | _ => []
  end.

(** The texts of the tasks one after the other, and the taxa they
    report as failed. *)
Fixpoint all_text (tasks : list download) : string :=
  match tasks with
  | [] => ""
  | d :: rest => text_of d +:+ all_text rest
  end.

Definition all_failures (tasks : list download) : list string :=
  concat (map failure_of tasks).

End Download.

(** ** The pages of the proteome table *)

Module Paging.

Local Open Scope Z_scope.

(** [total_pages]: [max(1, math.ceil(len(data) / page_size))].  The
    quotient is a binary64 number; for a table of fewer than 2^53 rows
    its ceiling is the ceiling of the exact quotient, which is what is
    written here. *)
Definition total_pages (rows page_size : Z) : Z :=
  Z.max 1 ((rows + page_size - 1) / page_size).

(** [next_page] and [prev_page] on [current_page]. *)
Definition next_page (rows page_size current_page : Z) : Z :=
  if current_page <? total_pages rows page_size then current_page + 1
  else current_page.

Definition prev_page (current_page : Z) : Z :=
  if 1 <? current_page then current_page - 1 else current_page.

(** The rows [proteome_table] shows of a table with rows:
    [iloc[start:end]], for a page number of at least 1, so that
    [start] is not negative. *)
Definition page_rows {A : Type} (data : list A) (page_size current_page : Z) : list A :=
  let start := (current_page - 1) * page_size in
  take (Z.to_nat page_size) (drop (Z.to_nat start) data).

(** A click on one of the two buttons. *)
Inductive click : Type := Next | Prev.

Definition turn (rows page_size : Z) (current_page : Z) (c : click) : Z :=
  match c with
  | Next => next_page rows page_size current_page
  | Prev => prev_page current_page
  end.

(** The pages from [first] on, [count] of them. *)
Fixpoint pages_from {A : Type} (data : list A) (page_size first : Z) (count : nat)
    : list (list A) :=
  match count with
  | O => []
  | S count' =>
      page_rows data page_size first :: pages_from data page_size (first + 1) count'
  end.

End Paging.

(** * Properties *)

(** ** Strings *)

Module PyFacts.

Local Arguments String.append !_ _ / : simpl nomatch.

Lemma truthy_ne (s : string) : Py.truthy s = true <-> s ≠ "".
Proof. destruct s; simpl; split; intros; done. Qed.

Lemma truthy_false (s : string) : Py.truthy s = false <-> s = "".
Proof. destruct s; simpl; split; intros; done. Qed.

Lemma app_snoc (t : string) (c : ascii) (s : string) :
  (t +:+ String c EmptyString) +:+ s = t +:+ String c s.
Proof. induction t as [|x t IH]; simpl; [done | by rewrite IH]. Qed.

Lemma app_empty_r (t : string) : t +:+ EmptyString = t.
Proof. induction t as [|x t IH]; simpl; [done | by rewrite IH]. Qed.

Lemma remove_char_absent c s : Py.contains c (Py.remove_char c s) = false.
Proof.
  induction s as [|x s IH]; [done|]. simpl.
  case_bool_decide as Hx; [done|]. simpl. by rewrite (bool_decide_eq_false_2 _ Hx).
Qed.

Lemma remove_char_id c s : Py.contains c s = false -> Py.remove_char c s = s.
Proof.
  induction s as [|x s IH]; [done|]. simpl. intros [Hx Hs]%orb_false_iff.
  rewrite Hx. by rewrite IH.
Qed.

Lemma split_nonempty sep s : Py.split sep s ≠ [].
Proof.
  destruct s as [|c s]; simpl; [done|].
  case_bool_decide; [done|]. by destruct (Py.split sep s).
Qed.

(** Splitting at a separator splits the text before it and the text
    after it. *)
Lemma split_app sep a b :
  Py.split sep (a +:+ String sep b) = Py.split sep a ++ Py.split sep b.
Proof.
  induction a as [|c a IH]; simpl.
  - by rewrite bool_decide_eq_true_2.
  - case_bool_decide; [by rewrite IH|].
    rewrite IH. pose proof (split_nonempty sep a). by destruct (Py.split sep a).
Qed.

Lemma split_absent sep s : Py.contains sep s = false -> Py.split sep s = [s].
Proof.
  induction s as [|c s IH]; [done|]. simpl. intros [Hc Hs]%orb_false_iff.
  rewrite Hc. by rewrite IH.
Qed.


Lemma filter_keeps_all {A} (P : A -> Prop) `{!forall x, Decision (P x)} (l : list A) :
  (forall x, x ∈ l -> P x) -> filter P l = l.
Proof.
  induction l as [|a l IH]; intros Hall; [done|].
  rewrite filter_cons_True by (apply Hall; left).
  f_equal. apply IH. intros x Hx. apply Hall. by right.
Qed.

Lemma sorted_set_elem (l : list string) (x : string) :
  x ∈ Py.sorted (Py.list_set l) <-> x ∈ l.
Proof.
  unfold Py.sorted, Py.list_set. rewrite merge_sort_Permutation.
  rewrite elem_of_elements. apply elem_of_list_to_set.
Qed.

Lemma sorted_set_NoDup (l : list string) : NoDup (Py.sorted (Py.list_set l)).
Proof.
  unfold Py.sorted, Py.list_set. rewrite merge_sort_Permutation. apply NoDup_elements.
Qed.

Lemma sorted_set_Sorted (l : list string) :
  Sorted String.le (Py.sorted (Py.list_set l)).
Proof. apply (Sorted_merge_sort String.le). Qed.

(** The order in which the set gives up its elements does not matter:
    any enumeration without repetition sorts to the same list. *)
Lemma sorted_any_enumeration (l l' : list string) :
  NoDup l' -> (forall x, x ∈ l' <-> x ∈ l) ->
  Py.sorted l' = Py.sorted (Py.list_set l).
Proof.
  intros Hnd Hel. apply (Sorted_unique String.le).
  - apply (Sorted_merge_sort String.le).
  - apply sorted_set_Sorted.
  - unfold Py.sorted, Py.list_set. rewrite !merge_sort_Permutation.
    apply NoDup_Permutation; [done | apply NoDup_elements |].
    intros x. rewrite Hel, elem_of_elements. symmetry. apply elem_of_list_to_set.
Qed.

End PyFacts.

(** ** Command lines and the remote shell *)

Module ShellFacts.

Import Shell PyFacts.

Local Arguments String.append !_ _ / : simpl nomatch.

(** Between single quotes, text without a single quote is taken as it
    stands. *)
Lemma lex_squote_literal (s : string) : forall t e rest,
  Py.contains "'" s = false ->
  lex SQuote (Some (t, e)) (s +:+ String "'" rest)
  = lex Plain (Some (t +:+ s, e)) rest.
Proof.
  induction s as [|c s IH]; intros t e rest Hs; simpl in *.
  - by rewrite app_empty_r.
  - apply orb_false_iff in Hs as [Hc Hs].
    rewrite Hc. simpl. rewrite IH by done. by rewrite app_snoc.
Qed.

(** Between single quotes, what [shlex.quote] writes for [s] is read
    back as [s]. *)
Lemma lex_escape_squotes (s : string) : forall t e rest,
  lex SQuote (Some (t, e)) (escape_squotes s +:+ String "'" rest)
  = lex Plain (Some (t +:+ s, e)) rest.
Proof.
  induction s as [|c s IH]; intros t e rest; simpl.
  - by rewrite app_empty_r.
  - destruct (bool_decide (c = "'"%char)) eqn:Hc.
    + apply bool_decide_eq_true in Hc as ->.
      cbn. rewrite IH. by rewrite app_snoc.
    + simpl. rewrite Hc. rewrite IH. by rewrite app_snoc.
Qed.

Lemma is_safe_plain (c : ascii) :
  is_safe c = true ->
  bool_decide (c = "'"%char) = false /\ bool_decide (c = dquote) = false
  /\ bool_decide (c = "\"%char) = false /\ is_blank c = false
  /\ is_operator c = false /\ is_expansion c = false.
Proof.
  destruct c as [[] [] [] [] [] [] [] []]; vm_compute; intros; try done.
Qed.

Lemma lex_safe (s : string) : forall t e rest,
  all_safe s = true ->
  lex Plain (Some (t, e)) (s +:+ rest) = lex Plain (Some (t +:+ s, e)) rest.
Proof.
  induction s as [|c s IH]; intros t e rest Hs; simpl in *.
  - by rewrite app_empty_r.
  - apply andb_true_iff in Hs as [Hc Hs].
    destruct (is_safe_plain c Hc) as (-> & -> & -> & -> & -> & ->).
    simpl. rewrite IH by done. by rewrite app_snoc.
Qed.

(** What [shlex.quote] writes is read as one word, the text itself,
    with nothing to expand. *)
Lemma tokens_shlex_quote (s : string) :
  tokens (shlex_quote s) = Some [Word s false].
Proof.
  unfold tokens, shlex_quote. destruct s as [|c s]; [done|].
  cbn [Py.truthy negb]. destruct (all_safe (String c s)) eqn:Hs.
  - simpl in Hs. apply andb_true_iff in Hs as [Hc Hs].
    simpl. destruct (is_safe_plain c Hc) as (-> & -> & -> & -> & -> & ->).
    pose proof (lex_safe s (String c "") false "" Hs) as H.
    rewrite app_empty_r in H. simpl. rewrite H. done.
  - change (lex Plain None ("'" +:+ escape_squotes (String c s) +:+ "'"))
      with (lex SQuote (Some ("", false)) (escape_squotes (String c s) +:+ "'")).
    rewrite lex_escape_squotes. done.
Qed.

(** The sibling path: the directory of a job reaches [mkdir] as one
    literal argument, whatever it holds. *)
Lemma mkdir_cmd_literal (working_dir : string) :
  runs_exactly (Hpc.mkdir_cmd working_dir) ["mkdir"; "-p"; working_dir].
Proof.
  unfold runs_exactly, Hpc.mkdir_cmd, tokens. simpl.
  fold (tokens (shlex_quote working_dir)). by rewrite tokens_shlex_quote.
Qed.

(** An entry whose path holds no single quote is deleted by one [rm]
    with the path as its literal target. *)
Lemma delete_cmd_literal (cwd : string) (it : Hpc.item) :
  Py.contains "'" (PosixPath.join cwd (Hpc.item_name it)) = false ->
  runs_exactly (Hpc.delete_cmd cwd it)
    (if bool_decide (Hpc.item_type it = "Directory")
     then ["rm"; "-rf"; PosixPath.join cwd (Hpc.item_name it)]
     else ["rm"; PosixPath.join cwd (Hpc.item_name it)]).
Proof.
  intros Hq. unfold runs_exactly, Hpc.delete_cmd, tokens.
  case_bool_decide; simpl; by rewrite lex_squote_literal.
Qed.

(** The example of the specification: the name [a; rm -rf /] is the
    sole target of a single [rm]. *)
Lemma delete_spec_example :
  runs_exactly (Hpc.delete_cmd "/home/ada" Samples.spec_item)
    ["rm"; "/home/ada/a; rm -rf /"].
Proof. by vm_compute. Qed.

(** Claim C1, evaluated on the code.  The claim asks that a selected
    entry's name and a console command reach the remote shell as one
    literal argument.  For the entry named [a'; touch pwned; 'b] the
    command line [delete_selected_item] sends is three commands, where
    [shlex.quote], which the job submission uses, gives the single [rm]
    the claim describes; and the console command [echo 'a b'] does not
    reach [bash -c] as one argument. *)
Theorem delete_command_not_escaped :
  Hpc.delete_cmd "/home/ada" Samples.quoted_item
    = "rm '/home/ada/a'; touch pwned; 'b'"
  /\ tokens (Hpc.delete_cmd "/home/ada" Samples.quoted_item)
     = Some [Word "rm" false; Word "/home/ada/a" false; Op ";";
             Word "touch" false; Word "pwned" false; Op ";"; Word "b" false]
  /\ ~ runs_exactly (Hpc.delete_cmd "/home/ada" Samples.quoted_item)
         ["rm"; "/home/ada/a'; touch pwned; 'b"]
  /\ runs_exactly ("rm " +:+ shlex_quote "/home/ada/a'; touch pwned; 'b")
       ["rm"; "/home/ada/a'; touch pwned; 'b"]
  /\ tokens (Hpc.console_cmd "/home/ada" "echo 'a b'")
     = Some [Word "cd" false; Word "/home/ada" false; Op "&"; Op "&";
             Word "bash" false; Word "-l" false; Word "-c" false;
             Word "echo a" false; Word "b" false].
Proof.
  split_and!; [by vm_compute | by vm_compute | | by vm_compute | by vm_compute].
  unfold runs_exactly. by vm_compute.
Qed.

End ShellFacts.

(** ** The directory listing *)

Module ListingFacts.

Import Hpc.

(** An entry read from a line of the listing has no leading dot. *)
Lemma parse_line_visible line it :
  parse_line line = Some it -> Py.startswith (item_name it) "." = false.
Proof.
  unfold parse_line. case_bool_decide; [|done].
  destruct (Py.startswith (Py.join " " (drop 8 (Py.split_ws line))) ".") eqn:Hdot;
    [done|].
  by intros [= <-].
Qed.

(** A line whose name field starts with a dot contributes nothing. *)
Lemma parse_line_hidden line :
  Py.startswith (Py.join " " (drop 8 (Py.split_ws line))) "." = true ->
  parse_line line = None.
Proof.
  intros Hdot. unfold parse_line. case_bool_decide; [|done]. by rewrite Hdot.
Qed.

Lemma parsed_rows_visible output it :
  it ∈ omap parse_line (Py.splitlines output) ->
  Py.startswith (item_name it) "." = false.
Proof.
  rewrite list_elem_of_omap. intros (line & _ & Hline). by eapply parse_line_visible.
Qed.

(** The listing is empty (not connected, or the remote command raised)
    or read from the output of the listing command. *)
Lemma get_hpc_files_rows E st :
  (get_hpc_files E st).1 = []
  \/ exists output, (get_hpc_files E st).1 = parse_listing (current_dir st) output.
Proof.
  unfold get_hpc_files. destruct (hpc_connected st); simpl; [|by left].
  destruct (run E st _); simpl; [by left | right; eauto].
Qed.

(** Claim C4.  In every listing the navigator produces (the session is
    connected and the listing command returned), an entry named [..] is
    present exactly when the current directory is not the root, it is
    the first entry, and it is the synthetic one. *)
Theorem dotdot_first_unless_root E st output err status :
  hpc_connected st = true ->
  run E st (ls_cmd (current_dir st)) = Done output err status ->
  let listing := (get_hpc_files E st).1 in
  ((exists it, it ∈ listing /\ item_name it = "..") <-> current_dir st ≠ "/")
  /\ (current_dir st ≠ "/" -> head listing = Some dotdot)
  /\ (forall i it, listing !! i = Some it -> item_name it = ".." ->
        i = 0%nat /\ it = dotdot).
Proof.
  intros Hc Hrun listing. subst listing.
  unfold get_hpc_files. rewrite Hc, Hrun. simpl. unfold parse_listing.
  assert (forall it, it ∈ omap parse_line (Py.splitlines output) ->
                     item_name it ≠ "..") as Hrows.
  { intros it Hit Hn. apply parsed_rows_visible in Hit. by rewrite Hn in Hit. }
  case_bool_decide as Hroot; simpl.
  - split_and!.
    + split; [done|]. intros _. exists dotdot. split; [left | done].
    + done.
    + intros [|i] it Hi Hn; simpl in Hi; [by injection Hi as <-|].
      apply list_elem_of_lookup_2 in Hi. by apply Hrows in Hi.
  - split_and!.
    + split; [|done]. intros (it & Hit & Hn). by apply Hrows in Hit.
    + done.
    + intros i it Hi Hn. apply list_elem_of_lookup_2 in Hi. by apply Hrows in Hi.
Qed.

(** The listing of the sample home directory starts with the parent
    entry. *)
Lemma dotdot_first_unless_root_witness :
  ((exists it, it ∈ (get_hpc_files Samples.cluster Samples.at_home).1
               /\ item_name it = "..")
   <-> current_dir Samples.at_home ≠ "/")
  /\ (current_dir Samples.at_home ≠ "/" ->
      head (get_hpc_files Samples.cluster Samples.at_home).1 = Some dotdot)
  /\ (forall i it,
        (get_hpc_files Samples.cluster Samples.at_home).1 !! i = Some it ->
        item_name it = ".." -> i = 0%nat /\ it = dotdot).
Proof.
  apply (dotdot_first_unless_root Samples.cluster Samples.at_home
           Samples.listing_text "" 0).
  - reflexivity.
  - reflexivity.
Defined.

(** Claim C5.  Every entry of the listing whose name starts with a dot
    is the synthetic parent entry; the other entries are those the
    lines of the remote listing give, and a line whose name field
    starts with a dot gives none. *)
Theorem hidden_rows_excluded E st :
  Forall (fun it => Py.startswith (item_name it) "." = true -> it = dotdot)
         (get_hpc_files E st).1
  /\ (forall cwd output it,
        it ∈ parse_listing cwd output ->
        it = dotdot
        \/ (exists line, line ∈ Py.splitlines output /\ parse_line line = Some it
                         /\ Py.startswith (item_name it) "." = false))
  /\ (forall line,
        Py.startswith (Py.join " " (drop 8 (Py.split_ws line))) "." = true ->
        parse_line line = None).
Proof.
  assert (forall cwd output it,
    it ∈ parse_listing cwd output ->
    it = dotdot
    \/ (exists line, line ∈ Py.splitlines output /\ parse_line line = Some it
                     /\ Py.startswith (item_name it) "." = false)) as Hrows.
  { intros cwd output it. unfold parse_listing. rewrite elem_of_app.
    intros [Hit|Hit].
    - case_bool_decide; [|by apply elem_of_nil in Hit].
      apply list_elem_of_singleton in Hit. by left.
    - right. apply list_elem_of_omap in Hit as (line & Hline & Hp).
      exists line. split_and!; [done | done | by eapply parse_line_visible]. }
  split_and!.
  - destruct (get_hpc_files_rows E st) as [-> | [output ->]]; [constructor|].
    apply Forall_forall. intros it Hit Hdot.
    destruct (Hrows _ _ _ Hit) as [-> | (line & _ & _ & Hvis)]; [done|].
    by rewrite Hvis in Hdot.
  - exact Hrows.
  - apply parse_line_hidden.
Qed.

End ListingFacts.

(** ** The flush *)

Module FlushFacts.

Import Hpc.

Local Open Scope Z_scope.

(** The effects leave the fields they do not own alone. *)
Lemma effects_fields E before after :
  let st' := effects E before after in
  ssh_client st' = ssh_client after /\ current_dir st' = current_dir after
  /\ hpc_connected st' = hpc_connected after
  /\ hpc_refresh_trigger st' = hpc_refresh_trigger after
  /\ available_modules st' = available_modules after
  /\ selected_modules st' = selected_modules after
  /\ notifications st' = notifications after
  /\ hpc_output_log st' = hpc_output_log after
  /\ hpc_files st' = hpc_files after
  /\ current_dir_object st' = current_dir_object after
  /\ ssh_client_object st' = ssh_client_object after.
Proof.
  unfold effects, update_slurm_queue, reset_selection, auto_close_editor.
  repeat case_bool_decide; repeat (case_match; simpl); simpl; done.
Qed.

(** The calculation of the rows changes the rows it keeps, and adds its
    notification when the listing raises. *)
Lemma render_files_fields E before after :
  let st' := render_files E before after in
  ssh_client st' = ssh_client after /\ current_dir st' = current_dir after
  /\ hpc_connected st' = hpc_connected after
  /\ hpc_refresh_trigger st' = hpc_refresh_trigger after
  /\ available_modules st' = available_modules after
  /\ selected_modules st' = selected_modules after
  /\ hpc_output_log st' = hpc_output_log after
  /\ selected_hpc_item st' = selected_hpc_item after
  /\ job_queue_df st' = job_queue_df after
  /\ current_dir_object st' = current_dir_object after
  /\ ssh_client_object st' = ssh_client_object after
  /\ file_content st' = file_content after
  /\ editor_visible st' = editor_visible after
  /\ modal_shown st' = modal_shown after
  /\ notifications after `prefix_of` notifications st'.
Proof.
  unfold render_files. destruct (files_invalidated before after); [|done].
  destruct (get_hpc_files E after) as [rows [n|]]; simpl; split_and!; try done.
  by apply prefix_app_r.
Qed.

Lemma effects_same E before after :
  current_dir_object after = current_dir_object before ->
  hpc_connected after = hpc_connected before ->
  effects E before after = after.
Proof. intros H1 H2. unfold effects. by rewrite !bool_decide_eq_true_2. Qed.

Lemma render_files_same E before after :
  hpc_refresh_trigger after = hpc_refresh_trigger before ->
  hpc_connected after = hpc_connected before ->
  current_dir_object after = current_dir_object before ->
  ssh_client_object after = ssh_client_object before ->
  render_files E before after = after.
Proof.
  intros H1 H2 H3 H4. unfold render_files, files_invalidated.
  rewrite !bool_decide_eq_true_2 by done. simpl. by rewrite andb_false_r.
Qed.

(** A handler that sets none of the values the effects and the
    calculation listen to ends the flush. *)
Lemma flush_quiet E a st :
  hpc_refresh_trigger (handler E a st) = hpc_refresh_trigger st ->
  hpc_connected (handler E a st) = hpc_connected st ->
  current_dir_object (handler E a st) = current_dir_object st ->
  ssh_client_object (handler E a st) = ssh_client_object st ->
  cycle E a st = handler E a st.
Proof.
  intros H1 H2 H3 H4. unfold cycle.
  rewrite effects_same by done. by apply render_files_same.
Qed.

(** A bumped refresh trigger makes the calculation run again. *)
Lemma render_files_bumped E before after :
  hpc_refresh_trigger after ≠ hpc_refresh_trigger before ->
  render_files E before after
  = set_hpc_files (get_hpc_files E after).1
      (match (get_hpc_files E after).2 with
       | Some n => notify (note_text n) (note_type n) after
       | None => after
       end).
Proof.
  intros H. unfold render_files, files_invalidated.
  by rewrite (bool_decide_eq_false_2 _ H).
Qed.

(** Storing a directory of another value stores another object. *)
Lemma set_current_dir_fields v st :
  let st' := set_current_dir v st in
  current_dir st' = v
  /\ (current_dir_object st' = current_dir_object st -> current_dir st = v)
  /\ (current_dir_object st' = current_dir_object st
      \/ current_dir_object st' = S (current_dir_object st)).
Proof.
  unfold set_current_dir, same_object. case_bool_decide as Hv; simpl.
  - destruct (String.length v <=? 1)%nat; simpl; split_and!; auto; lia.
  - split_and!; auto. lia.
Qed.

End FlushFacts.

(** ** The selected modules *)

Module ModuleFacts.

Import Hpc PyFacts FlushFacts.

Lemma add_module_tidy m s : tidy s -> tidy (add_module m s).
Proof.
  intros [Hnd He]. unfold add_module.
  destruct (Py.truthy m) eqn:Hm; [|done].
  case_bool_decide as Hin; simpl; [done|].
  apply truthy_ne in Hm. split.
  - apply NoDup_app. split_and!; [done | | apply NoDup_singleton].
    intros x Hx ->%list_elem_of_singleton. done.
  - rewrite elem_of_app, list_elem_of_singleton. intros [?|?]; done.
Qed.

(** Removal is the filter, whether or not the module is selected. *)
Lemma remove_module_filter m s :
  "" ∉ s -> remove_module m s = filter (fun x => x ≠ m) s.
Proof.
  intros He. unfold remove_module.
  assert (m ∉ s -> filter (fun x => x ≠ m) s = s) as Hkeep.
  { intros Hm. apply filter_keeps_all. intros x Hx ->. done. }
  destruct (Py.truthy m) eqn:Hm; simpl.
  - case_bool_decide as Hin; [done|]. by rewrite Hkeep.
  - destruct m; [|done]. by rewrite Hkeep.
Qed.

Lemma remove_module_tidy m s : tidy s -> tidy (remove_module m s).
Proof.
  intros [Hnd He]. rewrite remove_module_filter by done. split.
  - by apply NoDup_filter.
  - rewrite list_elem_of_filter. intros [_ ?]. done.
Qed.

Lemma apply_ops_tidy ops : forall s, tidy s -> tidy (apply_ops ops s).
Proof.
  induction ops as [|o ops IH]; intros s Hs; [done|].
  simpl. apply IH.
  destruct o; [by apply add_module_tidy | by apply remove_module_tidy].
Qed.

Lemma tidy_nil : tidy [].
Proof. split; [constructor | by intros ?%elem_of_nil]. Qed.

(** Claim C9.  After any sequence of additions and removals from the
    empty selection: no module is selected twice; adding a selected
    module and removing an unselected one change nothing; an addition
    appends at the end or changes nothing, a removal keeps the others
    in their order; and the next operation again leaves no duplicate. *)
Theorem module_selection_laws (ops : list module_op) :
  let s := apply_ops ops [] in
  NoDup s
  /\ (forall m, m ∈ s -> add_module m s = s)
  /\ (forall m, m ∉ s -> remove_module m s = s)
  /\ (forall m, add_module m s = s \/ ((m ∉ s) /\ add_module m s = s ++ [m]))
  /\ (forall m, remove_module m s = filter (fun x => x ≠ m) s
                /\ remove_module m s `sublist_of` s)
  /\ (forall o, NoDup (apply_op s o)).
Proof.
  intros s. destruct (apply_ops_tidy ops [] tidy_nil) as [Hnd He].
  fold s in Hnd, He.
  split_and!.
  - done.
  - intros m Hm. unfold add_module. rewrite bool_decide_eq_true_2 by done.
    by rewrite andb_false_r.
  - intros m Hm. unfold remove_module. rewrite bool_decide_eq_false_2 by done.
    by rewrite andb_false_r.
  - intros m. unfold add_module. destruct (Py.truthy m); [|by left].
    case_bool_decide; simpl; [by left | by right].
  - intros m. rewrite remove_module_filter by done. split; [done|].
    apply sublist_filter.
  - intros o. assert (tidy (apply_op s o)) as [? _]; [|done].
    destruct o; [by apply add_module_tidy | by apply remove_module_tidy].
Qed.

(** The handlers act on the selection as the operations do. *)
Lemma module_handlers_apply E st o :
  selected_modules
    (cycle E (match o with Add m => Add_module m | Remove m => Module_to_remove m end) st)
  = apply_op (selected_modules st) o.
Proof.
  destruct o; by rewrite flush_quiet.
Qed.

End ModuleFacts.

(** ** The partitions *)

Module PartitionFacts.

Import Hpc PartitionSpec PyFacts.

Lemma fields_of_cons part parts :
  fields_of (part :: parts)
  = if Py.truthy (Py.strip part) then Py.strip part :: fields_of parts
    else fields_of parts.
Proof.
  unfold fields_of. cbn [map].
  destruct (Py.truthy (Py.strip part)) eqn:Hs.
  - apply truthy_ne in Hs. by rewrite filter_cons_True.
  - apply truthy_false in Hs. rewrite filter_cons_False; [done|]. by intros [].
Qed.

Lemma starred_of_cons part parts :
  starred_of (part :: parts)
  = if Py.truthy (Py.strip part) && Py.contains "*" (Py.strip part)
       && Py.truthy (unstarred (Py.strip part))
    then unstarred (Py.strip part) :: starred_of parts
    else starred_of parts.
Proof.
  unfold starred_of. rewrite fields_of_cons.
  destruct (Py.truthy (Py.strip part)); [|done].
  destruct (Py.contains "*" (Py.strip part)) eqn:Hstar; cbn [andb].
  - rewrite (filter_cons_True (fun f => Py.contains "*" f = true)) by done.
    cbn [map]. destruct (Py.truthy (unstarred (Py.strip part))) eqn:Hn.
    + apply truthy_ne in Hn. by rewrite filter_cons_True.
    + apply truthy_false in Hn. rewrite filter_cons_False; [done|]. by intros [].
  - rewrite (filter_cons_False (fun f => Py.contains "*" f = true)); [done|].
    by rewrite Hstar.
Qed.

(** The inner loop appends the names of the fields and keeps the first
    default it meets. *)
Lemma scan_parts (parts : list string) : forall acc,
  foldl scan_part acc parts
  = (acc.1 ++ map unstarred (fields_of parts),
     if Py.truthy acc.2 then acc.2 else default "" (head (starred_of parts))).
Proof.
  induction parts as [|part parts IH]; intros [ps d].
  - cbn. rewrite app_nil_r. by destruct d.
  - cbn [foldl]. rewrite IH, fields_of_cons, starred_of_cons.
    unfold scan_part. cbn [fst snd].
    destruct (Py.truthy (Py.strip part)); cbn [andb]; [|done].
    destruct (Py.contains "*" (Py.strip part)) eqn:Hstar; cbn [andb fst snd map].
    + fold (unstarred (Py.strip part)). rewrite <- app_assoc. f_equal.
      destruct (Py.truthy d) eqn:Hd; cbn [negb]; [by rewrite Hd|].
      by destruct (Py.truthy (unstarred (Py.strip part))).
    + unfold unstarred. rewrite remove_char_id by done. by rewrite <- app_assoc.
Qed.

(** The two nested loops are one loop over all the fields. *)
Lemma scan_lines (lines : list string) : forall acc,
  foldl (fun acc line => foldl scan_part acc (Py.split "," line)) acc lines
  = foldl scan_part acc (concat (map (Py.split ",") lines)).
Proof.
  induction lines as [|line lines IH]; intros acc; simpl; [done|].
  by rewrite foldl_app, IH.
Qed.

(** Claim C8.  On the specification's example the partitions are
    [batch], [debug] and [gpu] with [debug] as the default.  On every
    output: the header row is skipped, the result is sorted and free of
    duplicates, it holds exactly the names of the comma-separated
    fields of the rows with the stars removed, and the default is the
    name of the first starred field (the first whose name is not empty
    once the stars are removed), or the first partition when there is
    none. *)
Theorem partitions_parsed :
  parse_partitions example = (["batch"; "debug"; "gpu"], "debug")
  /\ parse_partitions "" = ([], "")
  /\ forall raw_output, raw_output ≠ "" ->
       let r := parse_partitions raw_output in
       Sorted String.le r.1 /\ NoDup r.1
       /\ (forall p, p ∈ r.1 <-> p ∈ names raw_output)
       /\ Forall (fun p => Py.contains "*" p = false) r.1
       /\ r.2 = match starred_names raw_output with
                | d :: _ => d
                | [] => default "" (head r.1)
                end.
Proof.
  split_and!; [by vm_compute | done |].
  intros raw Hraw r. subst r. unfold parse_partitions.
  apply truthy_ne in Hraw. rewrite Hraw.
  rewrite scan_lines, scan_parts. cbn [fst snd Py.truthy app].
  fold (rows raw). fold (fields raw). fold (starred_names raw). fold (names raw).
  split_and!.
  - apply sorted_set_Sorted.
  - apply sorted_set_NoDup.
  - intros p. apply sorted_set_elem.
  - apply Forall_forall. intros p Hp. apply (proj1 (sorted_set_elem _ _)) in Hp.
    unfold names in Hp. apply list_elem_of_fmap in Hp as (f & -> & _).
    apply remove_char_absent.
  - destruct (starred_names raw) as [|d ds] eqn:Hst; simpl.
    + by destruct (Py.sorted (Py.list_set (names raw))).
    + assert (d ≠ "") as Hd.
      { assert (d ∈ starred_names raw) as Hin by (rewrite Hst; left).
        unfold starred_names, starred_of in Hin.
        by apply list_elem_of_filter in Hin as [? _]. }
      apply truthy_ne in Hd. by rewrite Hd.
Qed.

(** The example, read off the theorem: the three partitions and the
    starred one. *)
Lemma partitions_parsed_witness :
  parse_partitions example = (["batch"; "debug"; "gpu"], "debug")
  /\ names example = ["debug"; "batch"; "gpu"]
  /\ starred_names example = ["debug"]
  /\ (forall p, p ∈ (parse_partitions example).1 <-> p ∈ names example).
Proof.
  destruct partitions_parsed as (Hex & _ & Hall).
  destruct (Hall example) as (_ & _ & Hel & _); [done|].
  split_and!; [exact Hex | by vm_compute | by vm_compute | exact Hel].
Defined.

(** Without a live client or a connected session there is no remote
    query and no partition. *)
Lemma get_hpc_partitions_disconnected E st :
  ssh_client st = None \/ hpc_connected st = false ->
  get_hpc_partitions E st = ([], "").
Proof.
  unfold get_hpc_partitions. intros [-> | ->]; [done|].
  by destruct (ssh_client st).
Qed.

End PartitionFacts.


(** ** The session: disconnecting, navigating, deleting *)

Module SessionFacts.

Import Hpc Samples FlushFacts.

Local Open Scope Z_scope.

Lemma update_slurm_queue_disconnected E st :
  hpc_connected st = false -> job_queue_df (update_slurm_queue E st) = [].
Proof. intros H. unfold update_slurm_queue. by rewrite H. Qed.

Lemma update_slurm_queue_selection E st :
  selected_hpc_item (update_slurm_queue E st) = selected_hpc_item st.
Proof. unfold update_slurm_queue. repeat (case_match; simpl); done. Qed.

(** The effects on another directory object clear the selection when
    the message to the grid is sent. *)
Lemma effects_clear_selection E before after :
  current_dir_object after ≠ current_dir_object before ->
  send_error E = None ->
  selected_hpc_item (effects E before after) = None.
Proof.
  intros Hobj Hsend. unfold effects.
  rewrite (bool_decide_eq_false_2 _ Hobj).
  case_bool_decide; rewrite ?update_slurm_queue_selection;
    unfold reset_selection; by rewrite Hsend.
Qed.

(** The rows depend on the session through the connection and the
    directory only. *)
Lemma get_hpc_files_ext E st st' :
  hpc_connected st' = hpc_connected st -> ssh_client st' = ssh_client st ->
  current_dir st' = current_dir st ->
  get_hpc_files E st' = get_hpc_files E st.
Proof. intros H1 H2 H3. unfold get_hpc_files, run. by rewrite H1, H2, H3. Qed.

(** After a flush that bumped the refresh trigger the rows kept are
    those of the state the flush ends in. *)
Lemma cycle_bumped_files E a st :
  hpc_refresh_trigger (handler E a st) ≠ hpc_refresh_trigger st ->
  hpc_files (cycle E a st) = (get_hpc_files E (cycle E a st)).1.
Proof.
  intros Hb. unfold cycle.
  set (mid := effects E st (handler E a st)).
  destruct (effects_fields E st (handler E a st)) as (_ & _ & _ & Ht & _).
  fold mid in Ht.
  destruct (render_files_fields E st mid) as (Hc & Hd & Hn & _).
  rewrite (get_hpc_files_ext E mid) by done.
  rewrite render_files_bumped by (by rewrite Ht).
  done.
Qed.

(** The state [disconnect_hpc] leaves when there is a client. *)
Lemma disconnect_hpc_fields E st c :
  ssh_client st = Some c ->
  let after := disconnect_hpc E st in
  ssh_client after = None /\ hpc_connected after = false
  /\ current_dir after = "~"
  /\ hpc_refresh_trigger after = hpc_refresh_trigger st + 1
  /\ available_modules after = available_modules st
  /\ selected_modules after = selected_modules st
  /\ (current_dir st ≠ "~" -> current_dir_object after ≠ current_dir_object st).
Proof.
  intros Hc. unfold disconnect_hpc. rewrite Hc.
  unfold set_current_dir, same_object, set_ssh_client.
  destruct (close_error E); simpl; rewrite Hc; simpl;
    (case_bool_decide as Hd; simpl;
     [ rewrite <- Hd; simpl; split_and!; try done; by intros [] 
     | split_and!; try done; intros _; lia ]).
Qed.

(** Claim C2, as amended.  With a live client the cycle of
    [Hpc_disconnect] drops the client, sets [hpc_connected] to false and
    [current_dir] to [~] and bumps the refresh trigger; the effect on
    [hpc_connected] empties the job queue of a connected session, and
    the effect on [current_dir] clears the selection when the directory
    was another one and the message to the grid was sent; the module
    catalog and the selected modules stay as they were.  Without a
    client the cycle only adds the warning that the session is not
    connected. *)
Theorem disconnect_cycle E st :
  let st' := cycle E Hpc_disconnect st in
  match ssh_client st with
  | Some _ =>
      ssh_client st' = None /\ hpc_connected st' = false /\ current_dir st' = "~"
      /\ hpc_refresh_trigger st' = hpc_refresh_trigger st + 1
      /\ (hpc_connected st = true -> job_queue_df st' = [])
      /\ (current_dir st ≠ "~" -> send_error E = None -> selected_hpc_item st' = None)
      /\ available_modules st' = available_modules st
      /\ selected_modules st' = selected_modules st
  | None => st' = notify "Not connected to HPC" Warning st
  end.
Proof.
  intros st'. subst st'.
  destruct (ssh_client st) as [c|] eqn:Hc.
  - unfold cycle. change (handler E Hpc_disconnect st) with (disconnect_hpc E st).
    destruct (disconnect_hpc_fields E st c Hc) as (Ha1 & Ha2 & Ha3 & Ha4 & Ha5 & Ha6 & Ha7).
    set (after := disconnect_hpc E st) in *.
    destruct (effects_fields E st after) as (H1 & H2 & H3 & H4 & H5 & H6 & _).
    destruct (render_files_fields E st (effects E st after))
      as (R1 & R2 & R3 & R4 & R5 & R6 & _ & R8 & R9 & _).
    rewrite R1, R2, R3, R4, R5, R6, R8, R9, H1, H2, H3, H4, H5, H6.
    split_and!; [exact Ha1 | exact Ha2 | exact Ha3 | exact Ha4 | | | exact Ha5 | exact Ha6].
    + intros Hconn. unfold effects.
      rewrite (bool_decide_eq_false_2 (hpc_connected after = hpc_connected st))
        by (rewrite Hconn, Ha2; done).
      apply update_slurm_queue_disconnected.
      case_bool_decide; unfold reset_selection;
        try destruct (send_error E); simpl; exact Ha2.
    + intros Hdir Hsend. apply effects_clear_selection; [by apply Ha7 | done].
  - rewrite flush_quiet; simpl; unfold disconnect_hpc; by rewrite Hc.
Qed.

(** Claim C2 as stated fails: the session that connected and loaded the
    module catalog still holds the catalog after it disconnected. *)
Lemma disconnect_keeps_module_catalog :
  ssh_client with_modules ≠ None
  /\ available_modules with_modules = ["gcc/12.2"; "python/3.11"]
  /\ available_modules (cycle cluster Hpc_disconnect with_modules)
     = ["gcc/12.2"; "python/3.11"]
  /\ ~ disconnect_resets_everything.
Proof.
  split_and!; [done | by vm_compute | by vm_compute |].
  intros H. specialize (H cluster with_modules).
  vm_compute in H. destruct H as (_ & _ & _ & H & _). done.
Qed.

(** The amended claim on the sample sessions: connected with a
    selection, and never connected. *)
Lemma disconnect_cycle_witness :
  ssh_client (cycle cluster Hpc_disconnect results_selected) = None
  /\ selected_hpc_item (cycle cluster Hpc_disconnect results_selected) = None
  /\ cycle cluster Hpc_disconnect initial
     = notify "Not connected to HPC" Warning initial.
Proof.
  pose proof (disconnect_cycle cluster results_selected) as H1.
  pose proof (disconnect_cycle cluster initial) as H2.
  cbv zeta in H1, H2.
  change (ssh_client results_selected)
    with (Some (Client "hpc.example.org" "ada")) in H1.
  change (ssh_client initial) with (@None client) in H2.
  cbv iota beta in H1, H2.
  destruct H1 as (H & _ & _ & _ & _ & Hs & _).
  split_and!; [exact H | apply Hs; [by vm_compute | done] | exact H2].
Defined.

(** Claim C6.  When the existence test of the target returns a status
    other than zero, the cycle of [Hpc_open] changes nothing but the
    notifications, to which it adds the warning naming the target, so
    [current_dir] is as before; and whenever the cycle changes
    [current_dir], a directory was selected, the test returned status
    zero, and the new directory is the tested target. *)
Theorem open_checks_directory E st :
  (forall it stdout stderr exit_status,
     selected_hpc_item st = Some it -> item_type it = "Directory" ->
     run E st (test_dir_cmd (target_path (current_dir st) it))
       = Done stdout stderr exit_status ->
     exit_status ≠ 0 ->
     cycle E Hpc_open st
       = notify ("Invalid directory: " +:+ target_path (current_dir st) it) Warning st
     /\ current_dir (cycle E Hpc_open st) = current_dir st)
  /\ (current_dir (cycle E Hpc_open st) ≠ current_dir st ->
      exists it stdout stderr,
        selected_hpc_item st = Some it /\ item_type it = "Directory"
        /\ run E st (test_dir_cmd (target_path (current_dir st) it))
           = Done stdout stderr 0
        /\ current_dir (cycle E Hpc_open st) = target_path (current_dir st) it).
Proof.
  split.
  - intros it out err status Hsel Hty Hrun Hne.
    assert (handle_open_action E st
            = notify ("Invalid directory: " +:+ target_path (current_dir st) it) Warning st) as Hh.
    { unfold handle_open_action. rewrite Hsel, (bool_decide_eq_true_2 _ Hty), Hrun.
      by rewrite (proj2 (Z.eqb_neq _ _) Hne). }
    rewrite flush_quiet; simpl; rewrite Hh; done.
  - intros Hch. unfold cycle in *. simpl in *.
    destruct (effects_fields E st (handle_open_action E st)) as (_ & Hd & _).
    destruct (render_files_fields E st (effects E st (handle_open_action E st)))
      as (_ & Hr & _).
    rewrite Hr, Hd in *. clear Hd Hr. revert Hch. unfold handle_open_action.
    destruct (selected_hpc_item st) as [it|]; [|done].
    case_bool_decide as Hty.
    + destruct (run E st _) as [e|out err status] eqn:Hrun; [done|].
      destruct (status =? 0) eqn:Hst; [|done].
      apply Z.eqb_eq in Hst as ->. intros _. exists it, out, err.
      split_and!; try done.
      apply (set_current_dir_fields (target_path (current_dir st) it) st).
    + unfold handle_file_content.
      repeat (case_match; simpl); done.
Qed.

(** On the sample session: the test fails and the directory stays; the
    test succeeds and the directory is the target. *)
Lemma open_checks_directory_witness :
  cycle failing Hpc_open results_selected
  = notify "Invalid directory: /home/ada/results" Warning results_selected
  /\ current_dir (cycle failing Hpc_open results_selected) = "/home/ada"
  /\ current_dir (cycle cluster Hpc_open results_selected) = "/home/ada/results".
Proof.
  destruct (open_checks_directory failing results_selected) as [H _].
  destruct (H (Item "results" "Directory" "4096" "ada" "drwxr-xr-x")
              "" "No such file or directory" 1) as [H1 H2];
    [by vm_compute | done | by vm_compute | done |].
  split_and!; [exact H1 | exact H2 | by vm_compute].
Defined.

(** Every handler that gives [current_dir] another value gives it
    another object. *)
Lemma handler_dir_object E a st :
  current_dir (handler E a st) ≠ current_dir st ->
  current_dir_object (handler E a st) ≠ current_dir_object st.
Proof.
  intros Hv Ho. apply Hv. clear Hv. revert Ho.
  destruct a; simpl;
    unfold connect_hpc, disconnect_hpc, refresh_hpc_listing, auto_close_editor,
      handle_selection, handle_open_action, handle_file_content,
      delete_selected_item, execute_command, update_slurm_queue, create_job,
      show_job_creator, load_modules, add_selected_module, remove_selected_module,
      set_current_dir, set_ssh_client;
    repeat (case_match; simpl); simplify_eq; simpl; try done; try lia.
Qed.

(** With no selected item the handlers of the open and delete buttons
    do nothing. *)
Lemma no_selection_no_action E st :
  selected_hpc_item st = None ->
  handler E Hpc_open st = st /\ handler E Hpc_delete st = st.
Proof.
  intros Hs. simpl. unfold handle_open_action, delete_selected_item. by rewrite Hs.
Qed.

(** Claim C7, as amended.  When the handler of a cycle gives
    [current_dir] another object (in particular another value: a
    navigation, a connection, a disconnection) and the message that
    clears the grid's rows is sent, the state the cycle ends in has no
    selected item, so that the open and delete buttons then act on
    nothing.  After a navigation whose existence test returned status
    zero the directory is the tested target, and the rows computed for
    the grid in the same cycle are those of the state the cycle ends
    in: when the target is another directory and the message is sent,
    the listing of the new directory is shown with the selection
    already cleared.  When the remote removal returns status zero, the
    cycle of [Hpc_delete] ends with no selected item, whether or not
    the message is sent, in the same directory, with the refresh
    trigger bumped and the rows computed anew.  When the message
    cannot be sent, the effects leave the selection as the handler
    left it. *)
Theorem selection_cleared E st :
  (send_error E = None ->
   forall a,
     current_dir (cycle E a st) ≠ current_dir st
     \/ current_dir_object (cycle E a st) ≠ current_dir_object st ->
     selected_hpc_item (cycle E a st) = None
     /\ forall E', handler E' Hpc_open (cycle E a st) = cycle E a st
                   /\ handler E' Hpc_delete (cycle E a st) = cycle E a st)
  /\ (forall it stdout stderr,
        selected_hpc_item st = Some it -> item_type it = "Directory" ->
        run E st (test_dir_cmd (target_path (current_dir st) it))
          = Done stdout stderr 0 ->
        current_dir (cycle E Hpc_open st) = target_path (current_dir st) it
        /\ hpc_refresh_trigger (cycle E Hpc_open st) = hpc_refresh_trigger st + 1
        /\ hpc_files (cycle E Hpc_open st)
           = (get_hpc_files E (cycle E Hpc_open st)).1
        /\ (send_error E = None ->
            target_path (current_dir st) it ≠ current_dir st ->
            selected_hpc_item (cycle E Hpc_open st) = None))
  /\ (forall it stdout stderr,
        selected_hpc_item st = Some it ->
        run E st (delete_cmd (current_dir st) it) = Done stdout stderr 0 ->
        selected_hpc_item (cycle E Hpc_delete st) = None
        /\ current_dir (cycle E Hpc_delete st) = current_dir st
        /\ hpc_refresh_trigger (cycle E Hpc_delete st) = hpc_refresh_trigger st + 1
        /\ hpc_files (cycle E Hpc_delete st)
           = (get_hpc_files E (cycle E Hpc_delete st)).1)
  /\ (forall e a,
        send_error E = Some e ->
        selected_hpc_item (cycle E a st) = selected_hpc_item (handler E a st)).
Proof.
  split_and!.
  - intros Hsend a Hch.
    assert (selected_hpc_item (cycle E a st) = None) as Hnone.
    { unfold cycle in *.
      destruct (effects_fields E st (handler E a st))
        as (_ & Hd & _ & _ & _ & _ & _ & _ & _ & Ho & _).
      destruct (render_files_fields E st (effects E st (handler E a st)))
        as (_ & Rd & _ & _ & _ & _ & _ & Rs & _ & Ro & _).
      rewrite Rd, Ro, Hd, Ho in Hch. rewrite Rs.
      apply effects_clear_selection; [|done].
      destruct Hch as [Hv | Hobj]; [by apply handler_dir_object | done]. }
    split; [done|]. intros E'. by apply no_selection_no_action.
  - intros it out err Hsel Hty Hrun.
    assert (handler E Hpc_open st
            = bump_refresh (set_current_dir (target_path (current_dir st) it) st)) as Hh.
    { simpl. unfold handle_open_action.
      by rewrite Hsel, (bool_decide_eq_true_2 _ Hty), Hrun. }
    assert (hpc_refresh_trigger (handler E Hpc_open st) = hpc_refresh_trigger st + 1) as Ht.
    { rewrite Hh. unfold set_current_dir. by case_match. }
    split_and!.
    + unfold cycle.
      destruct (effects_fields E st (handler E Hpc_open st)) as (_ & Hd & _).
      destruct (render_files_fields E st (effects E st (handler E Hpc_open st)))
        as (_ & Rd & _).
      rewrite Rd, Hd, Hh. simpl.
      apply (set_current_dir_fields (target_path (current_dir st) it) st).
    + unfold cycle.
      destruct (effects_fields E st (handler E Hpc_open st)) as (_ & _ & _ & He & _).
      destruct (render_files_fields E st (effects E st (handler E Hpc_open st)))
        as (_ & _ & _ & Rt & _).
      by rewrite Rt, He.
    + apply cycle_bumped_files. rewrite Ht. lia.
    + intros Hsend Hne. unfold cycle.
      destruct (render_files_fields E st (effects E st (handler E Hpc_open st)))
        as (_ & _ & _ & _ & _ & _ & _ & Rs & _).
      rewrite Rs. apply effects_clear_selection; [|done].
      apply handler_dir_object. rewrite Hh. simpl.
      pose proof (set_current_dir_fields (target_path (current_dir st) it) st) as [Hv _].
      simpl in Hv. by rewrite Hv.
  - intros it out err Hsel Hrun.
    assert (handler E Hpc_delete st
            = set_selected_hpc_item None
                (bump_refresh (notify ("Deleted " +:+ item_name it) Message st))) as Hh.
    { simpl. unfold delete_selected_item. by rewrite Hsel, Hrun. }
    assert (hpc_refresh_trigger (handler E Hpc_delete st) = hpc_refresh_trigger st + 1) as Ht
      by (by rewrite Hh).
    unfold cycle.
    rewrite (effects_same E st (handler E Hpc_delete st)) by (by rewrite Hh).
    destruct (render_files_fields E st (handler E Hpc_delete st))
      as (_ & Rd & _ & Rt & _ & _ & _ & Rs & _).
    split_and!.
    + by rewrite Rs, Hh.
    + by rewrite Rd, Hh.
    + by rewrite Rt.
    + pose proof (cycle_bumped_files E Hpc_delete st) as Hf. unfold cycle in Hf.
      rewrite (effects_same E st (handler E Hpc_delete st)) in Hf by (by rewrite Hh).
      apply Hf. rewrite Ht. lia.
  - intros e a Hsend. unfold cycle.
    destruct (render_files_fields E st (effects E st (handler E a st)))
      as (_ & _ & _ & _ & _ & _ & _ & Rs & _).
    rewrite Rs. unfold effects, reset_selection, auto_close_editor. rewrite Hsend.
    repeat case_bool_decide; rewrite ?update_slurm_queue_selection; done.
Qed.

(** Claim C7 as stated fails: when the message to the grid cannot be
    sent, the navigation into [results] changes the directory and the
    entry stays selected. *)
Lemma navigation_keeps_selection :
  current_dir results_selected = "/home/ada"
  /\ current_dir (cycle closed_socket Hpc_open results_selected) = "/home/ada/results"
  /\ selected_hpc_item (cycle closed_socket Hpc_open results_selected)
     = Some (Item "results" "Directory" "4096" "ada" "drwxr-xr-x")
  /\ ~ selection_always_cleared.
Proof.
  split_and!; [by vm_compute | by vm_compute | by vm_compute |].
  intros H. destruct (H closed_socket results_selected) as [H1 _].
  assert (selected_hpc_item (cycle closed_socket Hpc_open results_selected) = None) as Hn
    by (apply H1; by vm_compute).
  vm_compute in Hn. done.
Qed.

(** On the sample sessions: a selection before, none after the
    navigation, which shows the rows of the new directory, and none
    after the removal. *)
Lemma selection_cleared_witness :
  selected_hpc_item results_selected ≠ None
  /\ selected_hpc_item (cycle cluster Hpc_open results_selected) = None
  /\ hpc_files (cycle cluster Hpc_open results_selected)
     = (get_hpc_files cluster (cycle cluster Hpc_open results_selected)).1
  /\ selected_hpc_item log_selected ≠ None
  /\ selected_hpc_item (cycle cluster Hpc_delete log_selected) = None.
Proof.
  destruct (selection_cleared cluster results_selected) as (H1 & H2 & _).
  destruct (selection_cleared cluster log_selected) as (_ & _ & H3 & _).
  split_and!.
  - by vm_compute.
  - apply H1; [done | left; by vm_compute].
  - by destruct (H2 (Item "results" "Directory" "4096" "ada" "drwxr-xr-x") "" "")
      as (_ & _ & ? & _); [by vm_compute | done | by vm_compute |].
  - by vm_compute.
  - by destruct (H3 run_log "" "") as (? & _); [by vm_compute | by vm_compute |].
Defined.

End SessionFacts.


(** ** Loading a file into the editor *)

Module EditorFacts.

Import Editor.

Local Open Scope Z_scope.

Lemma head_c_all (bs : list Byte.byte) : forall n,
  Z.of_nat (length bs) <= n -> head_c n bs = bs.
Proof.
  induction bs as [|b bs IH]; intros n Hn; [done|].
  simpl in *. destruct (Z.leb_spec n 0); [lia|]. f_equal. apply IH. lia.
Qed.

Lemma head_c_length (bs : list Byte.byte) : forall n,
  0 <= n -> Z.of_nat (length (head_c n bs)) <= n.
Proof.
  induction bs as [|b bs IH]; intros n Hn; simpl; [lia|].
  destruct (Z.leb_spec n 0); simpl; [lia|]. specialize (IH (n - 1)). lia.
Qed.

Lemma slice_to_length (content : text) : forall n,
  0 <= n -> len (slice_to n content) <= n.
Proof.
  unfold len. induction content as [|c r IH]; intros n Hn; simpl; [lia|].
  destruct (Z.leb_spec n 0); simpl; [lia|]. specialize (IH (n - 1)). lia.
Qed.

(** The first [k] lines of [n] empty lines. *)
Lemma head_n_newlines (n : nat) : forall k,
  0 <= k -> head_n k (replicate n newline) = replicate (Nat.min (Z.to_nat k) n) newline.
Proof.
  induction n as [|n IH]; intros k Hk.
  - by rewrite Nat.min_0_r.
  - cbn [replicate head_n]. destruct (Z.leb_spec k 0).
    + by replace (Z.to_nat k) with 0%nat by lia.
    + change (Byte.eqb newline newline) with true. cbn match.
      rewrite IH by lia.
      replace (Z.to_nat k) with (S (Z.to_nat (k - 1))) by lia. done.
Qed.

Lemma decode_values_newlines (n : nat) :
  decode_values (replicate n 10%N) = replicate n 10%N.
Proof. induction n as [|n IH]; [done|]. cbn [replicate]. simpl. by rewrite IH. Qed.

Lemma decode_replace_newlines (n : nat) :
  decode_replace (replicate n newline) = replicate n 10%N.
Proof.
  unfold decode_replace. rewrite fmap_replicate. apply decode_values_newlines.
Qed.

(** Text made of line feeds does not end with the marker. *)
Lemma newlines_not_truncated (n : nat) : ~ truncated (replicate n 10%N).
Proof.
  intros [pre Hpre].
  assert (91%N ∈ replicate n 10%N) as Hin.
  { rewrite Hpre. apply elem_of_app. right. unfold TRUNCATE_MESSAGE.
    do 2 right. left. }
  apply elem_of_replicate in Hin as [? _]. done.
Qed.

Lemma load_many_lines : load many_lines = replicate (Z.to_nat 50000) 10%N.
Proof.
  unfold load, many_lines. rewrite length_replicate.
  unfold MAX_DISPLAY_SIZE, MAX_LINES.
  destruct (Z.ltb_spec 5000000 (Z.of_nat (Z.to_nat 5000001))); [|lia].
  rewrite head_n_newlines by lia.
  replace (Nat.min (Z.to_nat 50000) (Z.to_nat 5000001)) with (Z.to_nat 50000) by lia.
  rewrite head_c_all by (rewrite length_replicate; lia).
  rewrite decode_replace_newlines.
  unfold len. rewrite length_replicate.
  destruct (Z.leb_spec 5000000 (Z.of_nat (Z.to_nat 50000))); [lia|]. done.
Qed.

(** Claim C3, evaluated on the code.  The claim asks for the marker
    whenever the size exceeds the threshold.  The file of 5,000,001
    empty lines exceeds it; [head -n] keeps 50,000 of its bytes, fewer
    than the threshold, so the content stored is those 50,000 line
    feeds: it is not the whole file and it carries no marker. *)
Theorem large_file_loaded_without_marker :
  MAX_DISPLAY_SIZE < Z.of_nat (length many_lines)
  /\ load many_lines = replicate (Z.to_nat 50000) 10%N
  /\ ~ truncated (load many_lines)
  /\ load many_lines ≠ decode_replace many_lines.
Proof.
  split_and!.
  - unfold many_lines, MAX_DISPLAY_SIZE. rewrite length_replicate. lia.
  - apply load_many_lines.
  - rewrite load_many_lines. apply newlines_not_truncated.
  - rewrite load_many_lines. unfold many_lines. rewrite decode_replace_newlines.
    intros Heq. apply (f_equal length) in Heq. rewrite !length_replicate in Heq. lia.
Qed.

(** At or below the threshold the content is the decoded file. *)
Lemma load_small (file : list Byte.byte) :
  Z.of_nat (length file) <= MAX_DISPLAY_SIZE -> load file = decode_replace file.
Proof. intros H. unfold load. destruct (Z.ltb_spec MAX_DISPLAY_SIZE (Z.of_nat (length file))); [lia|done]. Qed.

(** Above the threshold, when the decoded head fills the threshold, the
    content is cut at the threshold and ends with the marker. *)
Lemma load_large_marked (file : list Byte.byte) :
  MAX_DISPLAY_SIZE < Z.of_nat (length file) ->
  MAX_DISPLAY_SIZE
    <= len (decode_replace (head_c MAX_DISPLAY_SIZE (head_n MAX_LINES file))) ->
  truncated (load file)
  /\ len (load file) <= MAX_DISPLAY_SIZE + len TRUNCATE_MESSAGE.
Proof.
  intros Hbig Hfull. unfold load.
  destruct (Z.ltb_spec MAX_DISPLAY_SIZE (Z.of_nat (length file))); [|lia].
  destruct (Z.leb_spec MAX_DISPLAY_SIZE
              (len (decode_replace (head_c MAX_DISPLAY_SIZE (head_n MAX_LINES file)))));
    [|lia].
  split.
  - by apply suffix_app_r.
  - pose proof (slice_to_length
      (decode_replace (head_c MAX_DISPLAY_SIZE (head_n MAX_LINES file)))
      MAX_DISPLAY_SIZE) as Hs.
    unfold len in *. rewrite length_app.
    assert (0 <= MAX_DISPLAY_SIZE) as Hpos by (unfold MAX_DISPLAY_SIZE; lia).
    specialize (Hs Hpos). lia.
Qed.

End EditorFacts.


(** ** Verifying a user *)

Module AuthFacts.

Import AuthDb PyFacts.

Local Arguments String.append !_ _ / : simpl nomatch.

Lemma all_chars_impl (p q : ascii -> bool) s :
  (forall c, p c = true -> q c = true) -> all_chars p s = true -> all_chars q s = true.
Proof.
  intros Hpq. induction s as [|c s IH]; [done|]. simpl.
  intros [Hc Hs]%andb_true_iff. by rewrite (Hpq _ Hc), IH.
Qed.

Lemma hex_digit_is_hex n : (n < 16)%N -> is_hex_digit (hex_digit n) = true.
Proof.
  intros Hn. 
  assert (n ∈ (N.of_nat <$> seq 0 16)) as Hin.
  { apply list_elem_of_fmap. exists (N.to_nat n). split; [lia|]. apply elem_of_seq. lia. }
  simpl in Hin. repeat (apply elem_of_cons in Hin as [->|Hin]; [by vm_compute|]).
  by apply elem_of_nil in Hin.
Qed.

Lemma hex_is_hex bs : all_chars is_hex_digit (hex bs) = true.
Proof.
  induction bs as [|b bs IH]; [done|]. cbn [hex all_chars].
  pose proof (Byte.to_N_bounded b).
  rewrite !hex_digit_is_hex, IH; [done | | ].
  - apply N.mod_lt. done.
  - apply N.Div0.div_lt_upper_bound. lia.
Qed.

Lemma hex_digit_facts c :
  is_hex_digit c = true -> c ≠ "$"%char /\ (N_of_ascii c <? 128)%N = true.
Proof. destruct c as [[] [] [] [] [] [] [] []]; vm_compute; intros; split; done. Qed.

Lemma hex_string_no_dollar s :
  all_chars is_hex_digit s = true -> Py.contains "$" s = false.
Proof.
  induction s as [|c s IH]; [done|]. simpl. intros [Hc Hs]%andb_true_iff.
  destruct (hex_digit_facts c Hc) as [Hne _].
  by rewrite (bool_decide_eq_false_2 _ Hne), IH.
Qed.

Lemma hex_string_ascii s : all_chars is_hex_digit s = true -> is_ascii s = true.
Proof. apply all_chars_impl. intros c Hc. by destruct (hex_digit_facts c Hc). Qed.

Section WithKdf.

Variable kdf : string -> list Byte.byte -> list Byte.byte -> Z -> list Byte.byte.



Lemma split_stored salt digest :
  all_chars is_hex_digit salt = true -> all_chars is_hex_digit digest = true ->
  Py.split "$" (salt +:+ "$" +:+ digest) = [salt; digest].
Proof.
  intros Hs Hd. change (salt +:+ "$" +:+ digest) with (salt +:+ String "$" digest).
  rewrite split_app.
  by rewrite !split_absent by by apply hex_string_no_dollar.
Qed.

Lemma same_username_same_row t u v :
  NoDup (map username t) -> u ∈ t -> v ∈ t -> username u = username v -> u = v.
Proof.
  induction t as [|w t IH]; intros Hnd Hu Hv Heq; [by apply elem_of_nil in Hu|].
  apply NoDup_cons in Hnd as [Hw Hnd].
  assert (forall x, x ∈ t -> username x ≠ username w) as Hfresh.
  { intros x Hx Hn. apply Hw. rewrite <- Hn. by apply (list_elem_of_fmap_2 username). }
  apply elem_of_cons in Hu as [->|Hu]; apply elem_of_cons in Hv as [->|Hv].
  - done.
  - by apply Hfresh in Hv.
  - symmetry in Heq. by apply Hfresh in Hu.
  - by apply IH.
Qed.

Lemma select_user_found t u :
  NoDup (map username t) -> u ∈ t ->
  select_user (username u) t = (Return (Some (user_id u, password_hash u)), t).
Proof.
  intros Hnd Hu. unfold select_user.
  destruct (filter (fun v => username v = username u) t) as [|v vs] eqn:Hf.
  - assert (u ∈ filter (fun v => username v = username u) t) as Hin
      by by apply list_elem_of_filter.
    rewrite Hf in Hin. by apply elem_of_nil in Hin.
  - assert (v ∈ filter (fun v => username v = username u) t) as Hin by (rewrite Hf; left).
    apply list_elem_of_filter in Hin as [Hn Hv].
    by rewrite (same_username_same_row t v u Hnd Hv Hu Hn).
Qed.


(** On a row the module wrote, [verify_user] compares the digest of the
    password under the row's salt with the stored digest. *)
Lemma verify_user_row t u salt pw password :
  NoDup (map username t) -> u ∈ t -> is_token_hex salt = true ->
  password_hash u = salt +:+ "$" +:+ password_digest kdf pw salt ->
  verify_user kdf (username u) password t
  = (Return (if bool_decide (password_digest kdf pw salt = password_digest kdf password salt)
             then Some (user_id u) else None), t).
Proof.
  intros Hnd Hu Hsalt Hst. unfold verify_user, bind.
  rewrite select_user_found by done. rewrite Hst.
  apply andb_true_iff in Hsalt as [Hsalt _].
  rewrite split_stored by (done || apply hex_is_hex).
  unfold compare_digest.
  rewrite !hex_string_ascii by apply hex_is_hex. simpl. done.
Qed.


End WithKdf.

(** The hexadecimal text of bytes and the bytes of a text, on
    examples. *)
Lemma hex_encode_examples :
  hex [Byte.x00; Byte.x1a; Byte.xff] = "001aff"
  /\ encode_utf8 "pw$1" = [Byte.x70; Byte.x77; Byte.x24; Byte.x31]
  /\ encode_utf8 (String (ascii_of_N 233) "") = [Byte.xc3; Byte.xa9].
Proof. split_and!; reflexivity. Qed.



(** On the sample table another password, another user name and an
    unknown name are refused, and the table stays as it is. *)
Lemma verify_user_refuses :
  verify_user toy_kdf "ada" "WRONG-PASSWORD" toy_table = (Return None, toy_table)
  /\ verify_user toy_kdf "admin" "s3cret" toy_table = (Return None, toy_table)
  /\ verify_user toy_kdf "grace" "s3cret" toy_table = (Return None, toy_table).
Proof. split_and!; by vm_compute. Qed.

(** A row that the module did not write, with no dollar sign in the
    stored text, makes [verify_user] raise instead of returning. *)
Lemma verify_user_malformed_row :
  (verify_user toy_kdf "x" "p" [User 1 "x" "nodollar"]).1
  = Raise "ValueError: not enough values to unpack (expected 2, got 1)"
  /\ (verify_user toy_kdf "x" "p" [User 1 "x" "a$b$c"]).1
     = Raise "ValueError: too many values to unpack (expected 2)".
Proof. split; reflexivity. Qed.

End AuthFacts.

(** ** Words and white space *)

Module WordFacts.

Import PyFacts LsLine.

Local Arguments String.append !_ _ / : simpl nomatch.

Lemma string_app_assoc (a b c : string) : (a +:+ b) +:+ c = a +:+ (b +:+ c).
Proof. induction a as [|x a IH]; simpl; [done | by rewrite IH]. Qed.

Lemma is_word_inv s :
  is_word s = true -> exists c s', s = String c s' /\ Py.isspace c = false /\ no_space s' = true.
Proof.
  unfold is_word. destruct s as [|c s']; [done|]. simpl.
  intros [Hc Hs]%andb_true_iff. apply negb_true_iff in Hc. eauto.
Qed.

(** A word before white space is the first part of the split. *)
Lemma split_ws_word_then (w : string) : forall c rest,
  is_word w = true -> Py.isspace c = true ->
  Py.split_ws (w +:+ String c rest) = w :: Py.split_ws rest.
Proof.
  induction w as [|x w IH]; intros c rest Hw Hc; [done|].
  apply is_word_inv in Hw as (x' & w' & [= <- <-] & Hx & Hw).
  destruct w as [|y w].
  - simpl. by rewrite Hx, Hc.
  - assert (is_word (String y w) = true) as Hyw by done.
    specialize (IH c rest Hyw Hc).
    simpl in Hw. apply andb_true_iff in Hw as [Hy Hw']. apply negb_true_iff in Hy.
    change (Py.split_ws (String x (String y w) +:+ String c rest))
      with (if Py.isspace x then Py.split_ws (String y w +:+ String c rest)
            else if Py.isspace y then String x "" :: Py.split_ws (String y w +:+ String c rest)
            else match Py.split_ws (String y w +:+ String c rest) with
                 | h :: t => String x h :: t
                 | [] => [String x ""]
                 end).
    by rewrite Hx, Hy, IH.
Qed.

Lemma split_ws_word (w : string) : is_word w = true -> Py.split_ws w = [w].
Proof.
  induction w as [|x w IH]; intros Hw; [done|].
  apply is_word_inv in Hw as (x' & w' & [= <- <-] & Hx & Hw).
  destruct w as [|y w].
  - simpl. by rewrite Hx.
  - assert (is_word (String y w) = true) as Hyw by done.
    specialize (IH Hyw).
    simpl in Hw. apply andb_true_iff in Hw as [Hy Hw']. apply negb_true_iff in Hy.
    change (Py.split_ws (String x (String y w)))
      with (if Py.isspace x then Py.split_ws (String y w)
            else if Py.isspace y then String x "" :: Py.split_ws (String y w)
            else match Py.split_ws (String y w) with
                 | h :: t => String x h :: t
                 | [] => [String x ""]
                 end).
    by rewrite Hx, Hy, IH.
Qed.

(** Words joined by single blanks split back into the words. *)
Lemma split_ws_join (words : list string) :
  Forall (fun w => is_word w = true) words ->
  Py.split_ws (Py.join " " words) = words.
Proof.
  induction words as [|w ws IH]; intros Hall; [done|].
  apply Forall_cons in Hall as [Hw Hws].
  destruct ws as [|w' ws]; [by apply split_ws_word|].
  change (Py.join " " (w :: w' :: ws)) with (w +:+ String " " (Py.join " " (w' :: ws))).
  rewrite split_ws_word_then by done. by rewrite IH.
Qed.

End WordFacts.

(** ** Reading a line of the listing *)

Module LsLineFacts.

Import Hpc LsLine PyFacts WordFacts.

(** A line of [ls -l] whose eight leading fields and name words are
    separated by single blanks is read back field by field: the name is
    the words of the name joined by blanks, the type is [Directory] when
    the permissions start with [d] and [File] otherwise, and the size,
    the owner and the permissions are the fields of the line.  A name
    that starts with a dot gives no entry. *)
Theorem long_line_parsed perms links owner group size month day time name_words :
  Forall (fun w => is_word w = true)
         ([perms; links; owner; group; size; month; day; time] ++ name_words) ->
  name_words ≠ [] ->
  parse_line (long_line perms links owner group size month day time name_words)
  = if Py.startswith (Py.join " " name_words) "." then None
    else Some {| item_name := Py.join " " name_words;
                 item_type := if Py.startswith perms "d" then "Directory" else "File";
                 item_size := size; item_owner := owner; item_perms := perms |}.
Proof.
  intros Hall Hne. unfold parse_line, long_line.
  rewrite split_ws_join by done.
  rewrite bool_decide_eq_true_2.
  2: { destruct name_words; [done|]. simpl. lia. }
  done.
Qed.


(** On a line of a directory whose name has a blank. *)
Lemma long_line_parsed_witness :
  parse_line "drwxr-xr-x 2 ada users 4096 Jan 5 10:30 my results"
  = Some {| item_name := "my results"; item_type := "Directory";
            item_size := "4096"; item_owner := "ada"; item_perms := "drwxr-xr-x" |}.
Proof.
  apply (long_line_parsed "drwxr-xr-x" "2" "ada" "users" "4096" "Jan" "5" "10:30"
           ["my"; "results"]).
  - repeat (apply Forall_cons; split; [reflexivity|]). apply Forall_nil_2.
  - discriminate.
Defined.

End LsLineFacts.

(** ** The paths of the navigation *)

Module PathFacts.

Import PyFacts PathSpec WordFacts.

Local Arguments String.append !_ _ / : simpl nomatch.

Lemma is_name_inv s :
  is_name s = true ->
  s ≠ "" /\ Py.contains "/" s = false /\ s ≠ "." /\ s ≠ "..".
Proof.
  unfold is_name. intros H.
  repeat (apply andb_true_iff in H as [H ?]).
  repeat match goal with Hx : negb _ = true |- _ => apply negb_true_iff in Hx end.
  split_and!; [by apply truthy_ne | done | by eapply bool_decide_eq_false_1
              | by eapply bool_decide_eq_false_1].
Qed.

Lemma join_cons2 sep x y l :
  Py.join sep (x :: y :: l) = x +:+ sep +:+ Py.join sep (y :: l).
Proof. done. Qed.

Lemma join_snoc sep l x :
  l ≠ [] -> Py.join sep (l ++ [x]) = Py.join sep l +:+ sep +:+ x.
Proof.
  induction l as [|a l IH]; [done|]. intros _.
  destruct l as [|b l]; [done|].
  change ((a :: b :: l) ++ [x]) with (a :: b :: (l ++ [x])).
  rewrite !join_cons2. change (b :: l ++ [x]) with ((b :: l) ++ [x]).
  rewrite IH by done. by rewrite !string_app_assoc.
Qed.

Lemma contains_app c a b :
  Py.contains c (a +:+ b) = Py.contains c a || Py.contains c b.
Proof. induction a as [|x a IH]; simpl; [done|]. by rewrite IH, orb_assoc. Qed.

(** Slash-free components joined by slashes split back into them. *)
Lemma split_join (comps : list string) :
  comps ≠ [] -> Forall (fun c => Py.contains "/" c = false) comps ->
  Py.split "/" (Py.join "/" comps) = comps.
Proof.
  induction comps as [|c cs IH]; [done|]. intros _ Hall.
  apply Forall_cons in Hall as [Hc Hcs].
  destruct cs as [|c' cs]; [by apply split_absent|].
  rewrite join_cons2. change (c +:+ "/" +:+ Py.join "/" (c' :: cs))
    with (c +:+ String "/" (Py.join "/" (c' :: cs))).
  rewrite split_app, split_absent by done. by rewrite IH.
Qed.

Lemma norm_comps_names (slashes : bool) (names : list string) : forall rev_new,
  Forall (fun c => is_name c = true) names ->
  PosixPath.norm_comps slashes rev_new names = rev rev_new ++ names.
Proof.
  induction names as [|c names IH]; intros rev_new Hall; simpl.
  - by rewrite app_nil_r.
  - apply Forall_cons in Hall as [Hc Hall].
    destruct (is_name_inv c Hc) as (H1 & _ & H2 & H3).
    rewrite !bool_decide_eq_false_2 by done. simpl.
    rewrite IH by done. simpl. by rewrite <- app_assoc.
Qed.

Lemma names_slash_free (comps : list string) :
  Forall (fun c => is_name c = true) comps ->
  Forall (fun c => Py.contains "/" c = false) comps.
Proof.
  intros H. eapply Forall_impl; [exact H|].
  intros c Hc. by destruct (is_name_inv c Hc) as (_ & ? & _).
Qed.

Lemma startswith_char x s c :
  Py.startswith (String x s) (String c "") = bool_decide (x = c).
Proof.
  unfold Py.startswith. cbn [String.prefix].
  destruct (ascii_dec c x) as [->|Hn].
  - rewrite bool_decide_eq_true_2 by done. by destruct s.
  - rewrite bool_decide_eq_false_2; [done|]. by intros ->.
Qed.

Lemma startswith_slash_name c rest :
  is_name c = true -> Py.startswith (c +:+ rest) "/" = false.
Proof.
  intros Hc. destruct (is_name_inv c Hc) as (Hne & Hs & _).
  destruct c as [|x c]; [done|]. simpl in Hs. apply orb_false_iff in Hs as [Hx _].
  apply bool_decide_eq_false in Hx.
  change (String x c +:+ rest) with (String x (c +:+ rest)).
  rewrite startswith_char. by apply bool_decide_eq_false_2.
Qed.

Lemma join_names_head (comps : list string) :
  comps ≠ [] -> Forall (fun c => is_name c = true) comps ->
  exists c rest, Py.join "/" comps = c +:+ rest /\ is_name c = true.
Proof.
  intros Hne Hall. destruct comps as [|c cs]; [done|].
  apply Forall_cons in Hall as [Hc _].
  destruct cs as [|c' cs].
  - exists c, "". split; [by rewrite app_empty_r | done].
  - exists c, ("/" +:+ Py.join "/" (c' :: cs)). done.
Qed.

Lemma split_slash_cons (p : string) :
  Py.split "/" (String "/" p) = "" :: Py.split "/" p.
Proof. done. Qed.

Lemma startswith_two_slashes (c rest : string) :
  is_name c = true ->
  Py.startswith (String "/" (c +:+ rest)) "//" = false.
Proof.
  intros Hc. pose proof (startswith_slash_name c rest Hc) as Hs.
  destruct (c +:+ rest) as [|a r]; [done|].
  rewrite startswith_char in Hs. apply bool_decide_eq_false in Hs.
  unfold Py.startswith. cbn [String.prefix].
  destruct (ascii_dec "/" "/"); [|done].
  destruct (ascii_dec "/" a) as [<-|]; done.
Qed.

(** A normal absolute path is left as it is by [normpath]. *)
Lemma normpath_abs_path (comps : list string) :
  Forall (fun c => is_name c = true) comps ->
  PosixPath.normpath (abs_path comps) = abs_path comps.
Proof.
  intros Hall. destruct comps as [|c0 cs]; [done|].
  destruct (join_names_head (c0 :: cs)) as (c & rest & Hj & Hc); [done | done |].
  pose proof (split_join (c0 :: cs)) as Hsp.
  unfold abs_path.
  remember (Py.join "/" (c0 :: cs)) as p eqn:Hp.
  change ("/" +:+ p) with (String "/" p).
  unfold PosixPath.normpath.
  change (Py.truthy (String "/" p)) with true.
  rewrite (startswith_char "/" p "/"), (bool_decide_eq_true_2 _ eq_refl).
  rewrite Hj, startswith_two_slashes by done. rewrite <- Hj.
  cbn [negb andb]. change (Py.truthy "/") with true.
  rewrite split_slash_cons, Hsp by (done || by apply names_slash_free).
  change (PosixPath.norm_comps true [] ("" :: c0 :: cs))
    with (PosixPath.norm_comps true [] (c0 :: cs)).
  rewrite norm_comps_names by done.
  change (rev [] ++ c0 :: cs) with (c0 :: cs). rewrite <- Hp.
  done.
Qed.

(** Stripping on the right leaves text alone that has none of the
    characters. *)
Lemma rstrip_none (p : ascii -> bool) (s : string) :
  (forall c, p c = true -> Py.contains c s = false) -> Py.rstrip_by p s = s.
Proof.
  induction s as [|x s IH]; intros Hp; [done|]. simpl.
  rewrite IH.
  2: { intros c Hc. specialize (Hp c Hc). simpl in Hp.
       by apply orb_false_iff in Hp as [_ ?]. }
  destruct s; [|done].
  destruct (p x) eqn:Hx; [|done].
  specialize (Hp x Hx). simpl in Hp. by rewrite bool_decide_eq_true_2 in Hp.
Qed.

Lemma rstrip_app (p : ascii -> bool) (a b : string) :
  Py.rstrip_by p b ≠ "" -> Py.rstrip_by p (a +:+ b) = a +:+ Py.rstrip_by p b.
Proof.
  intros Hb. induction a as [|x a IH]; [done|]. simpl. rewrite IH.
  destruct (a +:+ Py.rstrip_by p b) eqn:Hab; [|done].
  destruct a; [done|done].
Qed.

Lemma rstrip_app_nil (p : ascii -> bool) (a b : string) :
  Py.rstrip_by p b = "" -> Py.rstrip_by p (a +:+ b) = Py.rstrip_by p a.
Proof.
  intros Hb. induction a as [|x a IH]; [done|]. simpl. by rewrite IH.
Qed.

Lemma rstrip_slash_name (c : string) :
  is_name c = true -> Py.rstrip_char "/" c = c.
Proof.
  intros Hc. destruct (is_name_inv c Hc) as (_ & Hs & _).
  apply rstrip_none. intros x Hx. by apply bool_decide_eq_true in Hx as ->.
Qed.

Lemma rstrip_join_names (comps : list string) :
  comps ≠ [] -> Forall (fun c => is_name c = true) comps ->
  Py.rstrip_char "/" (Py.join "/" comps) = Py.join "/" comps
  /\ Py.join "/" comps ≠ "".
Proof.
  induction comps as [|c cs IH]; [done|]. intros _ Hall.
  apply Forall_cons in Hall as [Hc Hcs].
  destruct (is_name_inv c Hc) as (Hne & _).
  destruct cs as [|c' cs].
  - split; [by apply rstrip_slash_name | done].
  - destruct IH as [IH1 IH2]; [done | done |].
    rewrite join_cons2. split.
    + unfold Py.rstrip_char in *. rewrite !rstrip_app; rewrite ?IH1; try done.
      rewrite rstrip_app; rewrite IH1; done.
    + by destruct c.
Qed.

Lemma rstrip_abs_path (comps : list string) :
  comps ≠ [] -> Forall (fun c => is_name c = true) comps ->
  Py.rstrip_char "/" (abs_path comps) = abs_path comps.
Proof.
  intros Hne Hall. destruct (rstrip_join_names comps Hne Hall) as [H1 H2].
  unfold abs_path, Py.rstrip_char in *. rewrite rstrip_app; by rewrite H1.
Qed.

Lemma endswith_app (a b : string) (c : ascii) :
  b ≠ "" -> Py.endswith_char (a +:+ b) c = Py.endswith_char b c.
Proof.
  intros Hb. induction a as [|x a IH]; [done|]. simpl.
  destruct (a +:+ b) eqn:Hab; [by destruct a|]. done.
Qed.

Lemma endswith_absent (s : string) (c : ascii) :
  Py.contains c s = false -> Py.endswith_char s c = false.
Proof.
  induction s as [|x s IH]; [done|]. simpl. intros [Hx Hs]%orb_false_iff.
  destruct s; [done|]. by apply IH.
Qed.

Lemma endswith_abs_path (comps : list string) :
  comps ≠ [] -> Forall (fun c => is_name c = true) comps ->
  Py.endswith_char (abs_path comps) "/" = false.
Proof.
  intros Hne Hall. unfold abs_path.
  destruct (exists_last Hne) as (cs & c & ->).
  apply Forall_app in Hall as [_ Hc]. apply Forall_cons in Hc as [Hc _].
  destruct (is_name_inv c Hc) as (Hcne & Hs & _).
  destruct cs as [|c0 cs].
  - change (Py.join "/" ([] ++ [c])) with c.
    rewrite endswith_app by done. by apply endswith_absent.
  - rewrite join_snoc by done.
    rewrite <- !string_app_assoc. rewrite endswith_app by done.
    by apply endswith_absent.
Qed.

(** Entering a directory appends its name. *)
Lemma join_abs_path (comps : list string) (name : string) :
  comps ≠ [] -> Forall (fun c => is_name c = true) comps -> is_name name = true ->
  PosixPath.join (abs_path comps) name = abs_path (comps ++ [name]).
Proof.
  intros Hne Hall Hn. unfold PosixPath.join.
  pose proof (startswith_slash_name name "" Hn) as Hs.
  rewrite app_empty_r in Hs. rewrite Hs.
  rewrite endswith_abs_path by done.
  unfold abs_path. rewrite join_snoc by done.
  by rewrite !string_app_assoc.
Qed.

Lemma upto_last_slash_absent (s : string) :
  Py.contains "/" s = false -> PosixPath.upto_last_slash s = "".
Proof.
  destruct s as [|x s]; [done|]. simpl. intros [Hx Hs]%orb_false_iff.
  by rewrite Hs, Hx.
Qed.

Lemma upto_last_slash_app (a w : string) :
  Py.contains "/" w = false ->
  PosixPath.upto_last_slash (a +:+ String "/" w) = a +:+ "/".
Proof.
  intros Hw. induction a as [|x a IH]; simpl.
  - by rewrite Hw, upto_last_slash_absent.
  - rewrite contains_app. simpl. rewrite orb_true_r. simpl. by rewrite IH.
Qed.

(** The parent of a normal absolute path drops the last component. *)
Lemma dirname_abs_path (comps : list string) (name : string) :
  Forall (fun c => is_name c = true) comps -> is_name name = true ->
  PosixPath.dirname (abs_path (comps ++ [name])) = abs_path comps.
Proof.
  intros Hall Hn. destruct (is_name_inv name Hn) as (_ & Hs & _).
  unfold PosixPath.dirname, abs_path.
  destruct comps as [|c0 cs].
  - change ("/" +:+ Py.join "/" ([] ++ [name])) with ("" +:+ String "/" name).
    by rewrite upto_last_slash_app.
  - rewrite join_snoc by done.
    change ("/" +:+ Py.join "/" (c0 :: cs) +:+ "/" +:+ name)
      with (("/" +:+ Py.join "/" (c0 :: cs)) +:+ String "/" name).
    rewrite upto_last_slash_app by done.
    destruct (join_names_head (c0 :: cs)) as (c & rest & Hj & Hc); [done | done |].
    destruct (rstrip_join_names (c0 :: cs)) as [H1 H2]; [done | done |].
    pose proof (rstrip_abs_path (c0 :: cs)) as Hr. unfold abs_path in Hr.
    assert (Py.truthy (("/" +:+ Py.join "/" (c0 :: cs)) +:+ "/") = true) as ->
      by done.
    assert (Py.lstrip_by (fun x => bool_decide (x = "/"%char))
              (("/" +:+ Py.join "/" (c0 :: cs)) +:+ "/") ≠ "") as Hl.
    { rewrite Hj. destruct (is_name_inv c Hc) as (Hcne & Hcs & _).
      destruct c as [|x c]; [done|]. simpl in Hcs.
      apply orb_false_iff in Hcs as [Hx _]. simpl. by rewrite Hx. }
    apply truthy_ne in Hl. rewrite Hl. cbn [andb].
    unfold Py.rstrip_char in *. rewrite rstrip_app_nil by done.
    by apply Hr.
Qed.

(** Navigation on normal absolute paths.  Opening the parent entry in
    the directory [/c1/.../cn/name] targets [/c1/.../cn] (the root for
    no component).  In a directory other than the root, opening the
    entry [name] targets the directory with [name] appended, and
    opening the parent entry there leads back. *)
Theorem target_path_round_trip (comps : list string) (name : string) :
  Forall (fun c => is_name c = true) comps -> is_name name = true ->
  Hpc.target_path (abs_path (comps ++ [name])) Hpc.dotdot = abs_path comps
  /\ (comps ≠ [] ->
      Hpc.target_path (abs_path comps) (entry name) = abs_path (comps ++ [name])
      /\ Hpc.target_path (Hpc.target_path (abs_path comps) (entry name)) Hpc.dotdot
         = abs_path comps).
Proof.
  intros Hall Hn.
  assert (Forall (fun c => is_name c = true) (comps ++ [name])) as Hall'.
  { apply Forall_app. split; [done|]. by constructor. }
  assert (Hpc.target_path (abs_path (comps ++ [name])) Hpc.dotdot = abs_path comps) as H2.
  { unfold Hpc.target_path. cbn [Hpc.item_name Hpc.dotdot].
    rewrite (bool_decide_eq_true_2 _ eq_refl). cbn [negb].
    rewrite rstrip_abs_path by (done || by destruct comps).
    rewrite dirname_abs_path by done. by apply normpath_abs_path. }
  split; [done|]. intros Hne.
  assert (Hpc.target_path (abs_path comps) (entry name) = abs_path (comps ++ [name])) as H1.
  { unfold Hpc.target_path. cbn [Hpc.item_name entry].
    destruct (is_name_inv name Hn) as (_ & _ & _ & Hdd).
    rewrite (bool_decide_eq_false_2 _ Hdd). cbn [negb].
    rewrite rstrip_abs_path, join_abs_path by done.
    by apply normpath_abs_path. }
  split; [done | by rewrite H1].
Qed.

(** In [/home/ada]: into [results] and back. *)
Lemma target_path_round_trip_witness :
  Hpc.target_path "/home/ada/results" Hpc.dotdot = "/home/ada"
  /\ Hpc.target_path "/home/ada" (entry "results") = "/home/ada/results"
  /\ Hpc.target_path (Hpc.target_path "/home/ada" (entry "results")) Hpc.dotdot
     = "/home/ada".
Proof.
  destruct (target_path_round_trip ["home"; "ada"] "results") as (H1 & H2).
  - repeat (apply Forall_cons; split; [reflexivity|]). apply Forall_nil_2.
  - reflexivity.
  - destruct H2 as (H2 & H3); [discriminate|].
    split; [exact H1|]. split; [exact H2 | exact H3].
Defined.

Lemma normpath_name (name : string) :
  is_name name = true -> PosixPath.normpath name = name.
Proof.
  intros Hn. destruct (is_name_inv name Hn) as (Hne & Hs & Hd & Hdd).
  unfold PosixPath.normpath. apply truthy_ne in Hne. rewrite Hne. cbn [negb].
  pose proof (startswith_slash_name name "" Hn) as Hst.
  rewrite app_empty_r in Hst. rewrite Hst.
  change (Py.truthy "") with false.
  rewrite split_absent by done.
  rewrite (norm_comps_names false [name] []) by by repeat constructor.
  simpl. by rewrite Hne.
Qed.

(** In the root directory the path [handle_open_action] tests for an
    entry is the bare name of the entry, without a leading slash: the
    current directory is stripped of its slashes first, and joining the
    empty text with a name gives the name.  The remote test then reads
    it as a path relative to the directory the remote shell starts
    in. *)
Theorem target_path_at_root (name : string) :
  is_name name = true ->
  Hpc.target_path "/" (entry name) = name
  /\ Py.startswith (Hpc.target_path "/" (entry name)) "/" = false.
Proof.
  intros Hn.
  assert (Hpc.target_path "/" (entry name) = name) as H1.
  { unfold Hpc.target_path. cbn [Hpc.item_name entry].
    destruct (is_name_inv name Hn) as (_ & _ & _ & Hdd).
    rewrite (bool_decide_eq_false_2 _ Hdd). cbn [negb].
    change (Py.rstrip_char "/" "/") with "".
    unfold PosixPath.join.
    pose proof (startswith_slash_name name "" Hn) as Hst.
    rewrite app_empty_r in Hst. rewrite Hst. cbn.
    by apply normpath_name. }
  split; [done|]. rewrite H1.
  pose proof (startswith_slash_name name "" Hn) as Hst.
  by rewrite app_empty_r in Hst.
Qed.


(** From the root into [home]. *)
Lemma target_path_at_root_witness :
  Hpc.target_path "/" (entry "home") = "home"
  /\ Py.startswith (Hpc.target_path "/" (entry "home")) "/" = false.
Proof. apply (target_path_at_root "home"). reflexivity. Defined.

End PathFacts.

(** ** The command lines of the session *)

Module CommandFacts.

Import Shell PyFacts ShellFacts.

Local Arguments String.append !_ _ / : simpl nomatch.

(** A quoted word followed by a blank is read as the word, and reading
    goes on after the blank. *)
Lemma lex_shlex_quote_blank (s rest : string) :
  lex Plain None (shlex_quote s +:+ String " " rest)
  = option_map (cons (Word s false)) (lex Plain None rest).
Proof.
  unfold shlex_quote. destruct s as [|c s]; [done|].
  cbn [Py.truthy negb]. destruct (all_safe (String c s)) eqn:Hs.
  - simpl in Hs. apply andb_true_iff in Hs as [Hc Hs].
    simpl. destruct (is_safe_plain c Hc) as (-> & -> & -> & -> & -> & ->).
    rewrite (lex_safe s (String c "") false (String " " rest) Hs). done.
  - change (lex Plain None (("'" +:+ escape_squotes (String c s) +:+ "'") +:+ String " " rest))
      with (lex SQuote (Some ("", false))
              ((escape_squotes (String c s) +:+ "'") +:+ String " " rest)).
    rewrite app_snoc, lex_escape_squotes. done.
Qed.

(** The quoted words of a list, joined by blanks, are read back as the
    list. *)
Lemma tokens_quoted_words (words : list string) :
  words ≠ [] ->
  tokens (Py.join " " (map shlex_quote words))
  = Some (map (fun w => Word w false) words).
Proof.
  induction words as [|w ws IH]; [done|]. intros _.
  destruct ws as [|w' ws].
  - apply tokens_shlex_quote.
  - change (Py.join " " (map shlex_quote (w :: w' :: ws)))
      with (shlex_quote w +:+ String " " (Py.join " " (map shlex_quote (w' :: ws)))).
    unfold tokens in *. rewrite lex_shlex_quote_blank, IH by done. done.
Qed.

Lemma tokens_module_load (words : string) :
  tokens ("module load " +:+ words)
  = option_map (fun k => Word "module" false :: Word "load" false :: k) (tokens words).
Proof. unfold tokens. simpl. by destruct (lex Plain None words). Qed.

(** The line of the job script that loads the selected modules runs
    [module load] with exactly the selected module names as its
    arguments, whatever characters the names hold: each name is passed
    through [shlex.quote]. *)
Theorem module_load_line_words (selected_modules : list string) :
  selected_modules ≠ [] ->
  runs_exactly (Jobs.module_load_line selected_modules)
    ("module" :: "load" :: selected_modules).
Proof.
  intros Hne. unfold runs_exactly, Jobs.module_load_line.
  destruct selected_modules as [|m ms]; [done|].
  by rewrite tokens_module_load, tokens_quoted_words.
Qed.

(** Two modules, one with a blank and a semicolon in its name. *)
Lemma module_load_line_words_witness :
  runs_exactly (Jobs.module_load_line ["gcc/12.2"; "my mod; ls"])
    ["module"; "load"; "gcc/12.2"; "my mod; ls"].
Proof. apply (module_load_line_words ["gcc/12.2"; "my mod; ls"]). discriminate. Defined.

Lemma all_safe_quote (s : string) :
  s ≠ "" -> all_safe s = true -> shlex_quote s = s.
Proof. intros Hne Hs. unfold shlex_quote. destruct s; [done|]. simpl in *. by rewrite Hs. Qed.

Lemma length_append (a b : string) :
  String.length (a +:+ b) = (String.length a + String.length b)%nat.
Proof. induction a as [|x a IH]; simpl; [done | by rewrite IH]. Qed.

Lemma escape_squotes_length (s : string) :
  (String.length s <= String.length (escape_squotes s))%nat.
Proof.
  induction s as [|c s IH]; [done|]. cbn [escape_squotes].
  case_bool_decide.
  - rewrite length_append. simpl. lia.
  - simpl. lia.
Qed.

(** Quoting never shortens a text, and keeps its length only when it
    leaves the text alone. *)
Lemma shlex_quote_length (s : string) :
  (String.length s <= String.length (shlex_quote s))%nat
  /\ (String.length (shlex_quote s) = String.length s ->
      s ≠ "" /\ all_safe s = true).
Proof.
  unfold shlex_quote. destruct s as [|c s]; [simpl; split; [lia | done]|].
  cbn [Py.truthy negb]. destruct (all_safe (String c s)) eqn:Hs; [done|].
  rewrite !length_append.
  pose proof (escape_squotes_length (String c s)).
  change (String.length "'") with 1%nat. split; lia.
Qed.

(** The two commands of a job submission run one program each, with
    the working directory and the script path as one literal argument,
    whatever characters they hold.  The script path quotes the
    directory and the job name apart before joining them: it is
    [working_dir/job_name.sh] exactly when the directory and the job
    name are not empty and made of safe characters. *)
Theorem submission_commands_literal (working_dir job_name : string) :
  runs_exactly (Hpc.mkdir_cmd working_dir) ["mkdir"; "-p"; working_dir]
  /\ runs_exactly (Jobs.sbatch_cmd working_dir job_name)
       ["sbatch"; Jobs.script_path working_dir job_name]
  /\ (Jobs.script_path working_dir job_name = working_dir +:+ "/" +:+ job_name +:+ ".sh"
      <-> working_dir ≠ "" /\ job_name ≠ ""
          /\ all_safe working_dir = true /\ all_safe job_name = true).
Proof.
  split_and!.
  - apply mkdir_cmd_literal.
  - unfold runs_exactly, Jobs.sbatch_cmd, tokens. simpl.
    fold (tokens (shlex_quote (Jobs.script_path working_dir job_name))).
    by rewrite tokens_shlex_quote.
  - unfold Jobs.script_path. split.
    + intros Heq. apply (f_equal String.length) in Heq.
      rewrite !length_append in Heq.
      destruct (shlex_quote_length working_dir) as [Hw1 Hw2].
      destruct (shlex_quote_length job_name) as [Hj1 Hj2].
      destruct Hw2 as [? ?]; [lia|]. destruct Hj2 as [? ?]; [lia|]. done.
    + intros (? & ? & ? & ?). by rewrite !all_safe_quote.
Qed.

(** Between double quotes, text without a double quote, a backslash, a
    dollar or a back quote is taken as it stands. *)
Lemma lex_dquote_literal (s : string) : forall t e rest,
  Jobs.dq_literal s = true ->
  lex DQuote (Some (t, e)) (s +:+ String dquote rest)
  = lex Plain (Some (t +:+ s, e)) rest.
Proof.
  unfold Jobs.dq_literal.
  induction s as [|c s IH]; intros t e rest Hs; simpl in *.
  - by rewrite app_empty_r.
  - apply andb_true_iff in Hs as [Hc Hs].
    unfold Jobs.dq_plain, dq_escapable in Hc.
    apply negb_true_iff in Hc.
    apply orb_false_iff in Hc as [Hc Hbs]. apply orb_false_iff in Hc as [Hexp Hdq].
    rewrite Hdq, Hbs, Hexp. rewrite IH by done. by rewrite app_snoc.
Qed.

(** The existence test of the navigation runs [[ -d path ]] with the
    target path as one literal argument when the path holds no double
    quote, backslash, dollar or back quote: blanks, semicolons and
    single quotes in it are taken as they stand. *)
Theorem test_dir_cmd_literal (new_path : string) :
  Jobs.dq_literal new_path = true ->
  runs_exactly (Hpc.test_dir_cmd new_path) ["["; "-d"; new_path; "]"].
Proof.
  intros Hp. unfold runs_exactly, Hpc.test_dir_cmd, tokens. simpl.
  rewrite lex_dquote_literal by done. done.
Qed.

(** A directory with a blank and a semicolon in its name. *)
Lemma test_dir_cmd_literal_witness :
  runs_exactly (Hpc.test_dir_cmd "/home/ada/my results; old")
    ["["; "-d"; "/home/ada/my results; old"; "]"].
Proof. apply (test_dir_cmd_literal "/home/ada/my results; old"). reflexivity. Defined.

Lemma lex_safe_start (s rest : string) :
  s ≠ "" -> all_safe s = true ->
  lex Plain None (s +:+ rest) = lex Plain (Some (s, false)) rest.
Proof.
  intros Hne Hs. destruct s as [|c s]; [done|]. simpl in Hs.
  apply andb_true_iff in Hs as [Hc Hs].
  simpl. destruct (is_safe_plain c Hc) as (-> & -> & -> & -> & -> & ->).
  simpl. by rewrite (lex_safe s (String c "") false rest Hs).
Qed.

(** The command line of the console, for a current directory of safe
    characters and a command without a single quote: the shell changes
    to the directory and, if that succeeds, runs a login [bash] with
    the command text as the one argument of [-c]. *)
Theorem console_cmd_literal (cwd cmd : string) :
  cwd ≠ "" -> all_safe cwd = true -> Py.contains "'" cmd = false ->
  tokens (Hpc.console_cmd cwd cmd)
  = Some [Word "cd" false; Word cwd false; Op "&"; Op "&"; Word "bash" false;
          Word "-l" false; Word "-c" false; Word cmd false].
Proof.
  intros Hne Hs Hq. unfold Hpc.console_cmd, tokens. simpl.
  rewrite lex_safe_start by done. simpl.
  rewrite lex_squote_literal by done. done.
Qed.


(** A pipeline typed in [/home/ada]. *)
Lemma console_cmd_literal_witness :
  tokens (Hpc.console_cmd "/home/ada" "ls -la | wc -l")
  = Some [Word "cd" false; Word "/home/ada" false; Op "&"; Op "&"; Word "bash" false;
          Word "-l" false; Word "-c" false; Word "ls -la | wc -l" false].
Proof.
  apply (console_cmd_literal "/home/ada" "ls -la | wc -l");
    [discriminate | reflexivity | reflexivity].
Defined.

End CommandFacts.

(** ** The answer of the scheduler *)

Module SbatchFacts.

Import LsLine Jobs WordFacts PathFacts.

Local Arguments String.append !_ _ / : simpl nomatch.

Lemma rstrip_all_space (s : string) : all_space s = true -> Py.rstrip_by Py.isspace s = "".
Proof.
  induction s as [|c s IH]; [done|]. simpl. intros [Hc Hs]%andb_true_iff.
  by rewrite IH, Hc.
Qed.

Lemma lstrip_all_space (s : string) : all_space s = true -> Py.lstrip_by Py.isspace s = "".
Proof.
  induction s as [|c s IH]; [done|]. simpl. intros [Hc Hs]%andb_true_iff.
  by rewrite Hc, IH.
Qed.

Lemma rstrip_no_space (s : string) : no_space s = true -> Py.rstrip_by Py.isspace s = s.
Proof.
  induction s as [|c s IH]; [done|]. simpl. intros [Hc Hs]%andb_true_iff.
  apply negb_true_iff in Hc. rewrite IH, Hc by done. by destruct s.
Qed.

Lemma strip_word_then_blank (a w trail : string) :
  is_word w = true -> all_space trail = true ->
  Py.rstrip_by Py.isspace (a +:+ w +:+ trail) = a +:+ w.
Proof.
  intros Hw Ht. apply andb_true_iff in Hw as [Hne Hns].
  assert (Py.rstrip_by Py.isspace (w +:+ trail) = w) as Hwt.
  { rewrite rstrip_app_nil by (by apply rstrip_all_space). by apply rstrip_no_space. }
  rewrite rstrip_app; rewrite Hwt; [done|]. by destruct w.
Qed.

(** Reading the streams of [sbatch].  When the output is the line
    [Submitted batch job] followed by the job id and any trailing
    white space, the submission is reported as successful with that
    id, whatever the error stream holds.  When the output is white
    space only, the submission fails with the stripped error stream in
    its message. *)
Theorem read_sbatch_job_id (id trail blank stderr : string) :
  is_word id = true -> all_space trail = true -> all_space blank = true ->
  read_sbatch ("Submitted batch job " +:+ id +:+ trail) stderr = Submitted id
  /\ read_sbatch blank stderr
     = Failed ("No output from sbatch. Error: " +:+ Py.strip stderr).
Proof.
  intros Hw Ht Hb. split.
  - unfold read_sbatch, Py.strip.
    change (Py.lstrip_by Py.isspace ("Submitted batch job " +:+ id +:+ trail))
      with ("Submitted batch job " +:+ id +:+ trail).
    rewrite strip_word_then_blank by done.
    change (Py.truthy ("Submitted batch job " +:+ id)) with true.
    change (contains_str "Submitted batch job" ("Submitted batch job " +:+ id))
      with (true || contains_str "Submitted batch job" ("ubmitted batch job " +:+ id)).
    cbn [negb orb].
    change ("Submitted batch job " +:+ id)
      with (Py.join " " ["Submitted"; "batch"; "job"; id]).
    rewrite split_ws_join; [done|].
    repeat (apply Forall_cons; split; [done|]). apply Forall_nil_2.
  - unfold read_sbatch, Py.strip. rewrite lstrip_all_space by done. done.
Qed.


(** The line [sbatch] prints, with a warning on the error stream. *)
Lemma read_sbatch_job_id_witness :
  read_sbatch ("Submitted batch job 4711" +:+ Hpc.nl) "sbatch: warning" = Submitted "4711"
  /\ read_sbatch Hpc.nl "sbatch: warning"
     = Failed "No output from sbatch. Error: sbatch: warning".
Proof.
  apply (read_sbatch_job_id "4711" Hpc.nl Hpc.nl "sbatch: warning"); reflexivity.
Defined.

End SbatchFacts.

(** ** What every session keeps *)

Module InvariantFacts.

Import Hpc SessionInv PyFacts FlushFacts SessionFacts ModuleFacts WordFacts.

Local Open Scope Z_scope.

Lemma handler_coherent E a st : coherent st -> coherent (handler E a st).
Proof.
  intros (Hcoh & Ht & Hr). unfold coherent.
  destruct a; simpl;
    unfold connect_hpc, disconnect_hpc, refresh_hpc_listing, auto_close_editor,
      handle_selection, handle_open_action, handle_file_content,
      delete_selected_item, execute_command, update_slurm_queue, create_job,
      show_job_creator, load_modules, add_selected_module, remove_selected_module,
      set_current_dir, set_ssh_client;
    repeat (case_match; simpl); simplify_eq; simpl;
    (split_and!; [try done; try (intuition congruence) | | try done; try lia]);
    try done; try (by apply add_module_tidy); try (by apply remove_module_tidy);
    try (simpl in *; destruct (hpc_connected st); intuition congruence).
Qed.

Lemma cycle_coherent E a st : coherent st -> coherent (cycle E a st).
Proof.
  intros H. apply (handler_coherent E a) in H as (Hc & Ht & Hr).
  unfold cycle, coherent.
  destruct (render_files_fields E st (effects E st (handler E a st)))
    as (-> & _ & -> & -> & _ & -> & _).
  destruct (effects_fields E st (handler E a st)) as (-> & _ & -> & -> & _ & -> & _).
  done.
Qed.

Lemma run_session_coherent tr : forall st, coherent st -> coherent (run_session tr st).
Proof.
  induction tr as [|[E a] tr IH]; intros st Hst; [done|].
  simpl. apply IH. by apply cycle_coherent.
Qed.

(** After any sequence of user actions from the initial session,
    against any remote host: there is a client exactly when the session
    is connected, no module is selected twice, and the refresh trigger
    is not negative.  While the session is not connected, the listing
    and the partitions are empty and a queue update leaves an empty
    queue, without a remote command. *)
Theorem session_coherent (tr : list (env * action)) (E : env) :
  let st := run_session tr initial in
  (ssh_client st = None <-> hpc_connected st = false)
  /\ NoDup (selected_modules st)
  /\ 0 <= hpc_refresh_trigger st
  /\ (hpc_connected st = false ->
      (get_hpc_files E st).1 = [] /\ get_hpc_partitions E st = ([], "")
      /\ job_queue_df (update_slurm_queue E st) = []).
Proof.
  intros st.
  assert (coherent initial) as H0.
  { split_and!; [done | apply tidy_nil | done]. }
  destruct (run_session_coherent tr initial H0) as (Hc & [Ht _] & Hr).
  fold st in Hc, Ht, Hr. split_and!; try done.
  intros Hd. split_and!.
  - unfold get_hpc_files. by rewrite Hd.
  - unfold get_hpc_partitions. rewrite Hd. by destruct (ssh_client st).
  - by apply update_slurm_queue_disconnected.
Qed.

Lemma grows_refl st : grows st st.
Proof.
  split_and!; [exists ""; by rewrite app_empty_r | done | lia].
Qed.

Lemma grows_trans a b c : grows a b -> grows b c -> grows a c.
Proof.
  intros ([m1 H1] & P1 & T1) ([m2 H2] & P2 & T2). split_and!.
  - exists (m1 +:+ m2). by rewrite H2, H1, string_app_assoc.
  - by etrans.
  - lia.
Qed.

Lemma handler_grows E a st : grows st (handler E a st).
Proof.
  assert (forall t l s, grows s (notify t l s)) as Hn.
  { intros t l s. split_and!; simpl;
      [exists ""; by rewrite app_empty_r | by apply prefix_app_r | lia]. }
  assert (forall s, grows s (bump_refresh s)) as Hb.
  { intros s. split_and!; simpl; [exists ""; by rewrite app_empty_r | done | lia]. }
  assert (forall s s', hpc_output_log s' = hpc_output_log s ->
                       notifications s' = notifications s ->
                       hpc_refresh_trigger s' = hpc_refresh_trigger s -> grows s s') as Hsame.
  { intros s s' H1 H2 H3. split_and!;
      [exists ""; by rewrite H1, app_empty_r | by rewrite H2 | lia]. }
  destruct a; simpl.
  - unfold connect_hpc, set_current_dir, set_ssh_client. repeat (case_match; simpl);
      (eapply grows_trans; [apply Hn|]); by apply Hsame.
  - unfold disconnect_hpc, set_current_dir, set_ssh_client.
    repeat (case_match; simpl); try apply Hn;
      (eapply grows_trans; [apply Hn|]);
      (eapply grows_trans; [|apply Hb]); by apply Hsame.
  - apply Hb.
  - unfold auto_close_editor, handle_selection.
    repeat (case_match; simpl); by apply Hsame.
  - unfold handle_open_action, handle_file_content, set_current_dir.
    repeat (case_match; simpl); simplify_eq; simpl;
      try apply grows_refl; try apply Hn;
      try (eapply grows_trans; [|apply Hb]; by apply Hsame);
      try (eapply grows_trans; [apply Hn|]; by apply Hsame);
      try by apply Hsame.
  - unfold delete_selected_item.
    repeat (case_match; simpl); try apply grows_refl; try apply Hn.
    eapply grows_trans; [apply Hn|]. eapply grows_trans; [apply Hb|]. by apply Hsame.
  - unfold execute_command.
    repeat (case_match; simpl); try apply grows_refl; try apply Hn.
    + split_and!; simpl; [|by apply prefix_app_r | lia].
      by eexists.
    + split_and!; simpl; [|by apply prefix_app_r | lia].
      by eexists.
    + split_and!; simpl; [| done | lia].
      by eexists.
  - unfold update_slurm_queue. repeat (case_match; simpl); by apply Hsame.
  - unfold create_job, show_job_creator, load_modules.
    repeat (case_match; simpl); try apply Hn; try by apply Hsame.
    all: try (eapply grows_trans; [apply Hn|]; by apply Hsame).
    all: eapply grows_trans; [apply Hn|]; eapply grows_trans; [|apply Hn]; by apply Hsame.
  - by apply Hsame.
  - by apply Hsame.
Qed.

Lemma cycle_grows E a st : grows st (cycle E a st).
Proof.
  eapply grows_trans; [apply (handler_grows E a)|].
  unfold cycle.
  destruct (effects_fields E st (handler E a st))
    as (_ & _ & _ & H1 & _ & _ & H2 & H3 & _).
  destruct (render_files_fields E st (effects E st (handler E a st)))
    as (_ & _ & _ & R1 & _ & _ & R3 & _ & _ & _ & _ & _ & _ & _ & R2).
  split_and!; [exists ""; by rewrite R3, H3, app_empty_r | by rewrite <- H2 | lia].
Qed.

(** Over any sequence of user actions the console scrollback is only
    appended to, the notifications shown so far stay a prefix of the
    notifications, and the refresh trigger never decreases: no handler
    and no effect clears the scrollback, not even a disconnect. *)
Theorem session_only_grows (tr : list (env * action)) (st : state) :
  (exists more, hpc_output_log (run_session tr st) = hpc_output_log st +:+ more)
  /\ notifications st `prefix_of` notifications (run_session tr st)
  /\ hpc_refresh_trigger st <= hpc_refresh_trigger (run_session tr st).
Proof.
  change (grows st (run_session tr st)).
  revert st. induction tr as [|[E a] tr IH]; intros st; [apply grows_refl|].
  simpl. eapply grows_trans; [apply (cycle_grows E a)|apply IH].
Qed.

End InvariantFacts.

(** ** The size of the editor content *)

Module EditorBounds.

Import Editor EditorHead EditorFacts.

Local Open Scope Z_scope.

Lemma decode_values_length_le (n : nat) : forall bs,
  (length bs <= n)%nat -> (length (decode_values bs) <= length bs)%nat.
Proof.
  induction n as [|n IH]; intros bs Hn.
  - destruct bs; [done | simpl in Hn; lia].
  - destruct bs as [|b0 r0]; [done|].
    cbn [decode_values].
    repeat (case_match; lazy beta iota); subst; cbn [length] in *;
      repeat match goal with
             | |- context [decode_values ?r] =>
                 let H := fresh in
                 assert (length (decode_values r) <= length r)%nat as H
                   by (apply IH; cbn [length]; lia);
                 cbn [length] in H;
                 generalize dependent (decode_values r); intros
             end; lia.
Qed.

Lemma decode_replace_length (bs : list Byte.byte) :
  len (decode_replace bs) <= Z.of_nat (length bs).
Proof.
  unfold len, decode_replace.
  pose proof (decode_values_length_le (length (map Byte.to_N bs)) (map Byte.to_N bs)
                (le_n _)) as H.
  rewrite length_map in H. lia.
Qed.

Lemma slice_to_all (content : text) : forall n,
  len content <= n -> slice_to n content = content.
Proof.
  unfold len. induction content as [|c r IH]; intros n Hn; [done|].
  simpl in *. destruct (Z.leb_spec n 0); [lia|]. f_equal. apply IH. lia.
Qed.

(** The text the editor is given never exceeds the display threshold
    by more than the truncation marker.  A file at or below the
    threshold is shown decoded in full.  For a file above it the text
    is the decoded head of the file, which never exceeds the
    threshold, followed by the marker exactly when the decoded head
    fills the threshold. *)
Theorem load_bounded (file : list Byte.byte) :
  len (load file) <= MAX_DISPLAY_SIZE + len TRUNCATE_MESSAGE
  /\ (Z.of_nat (length file) <= MAX_DISPLAY_SIZE -> load file = decode_replace file)
  /\ (MAX_DISPLAY_SIZE < Z.of_nat (length file) ->
      len (head_text file) <= MAX_DISPLAY_SIZE
      /\ load file = if bool_decide (len (head_text file) = MAX_DISPLAY_SIZE)
                     then head_text file ++ TRUNCATE_MESSAGE
                     else head_text file).
Proof.
  assert (0 <= MAX_DISPLAY_SIZE) as Hpos by (unfold MAX_DISPLAY_SIZE; lia).
  assert (0 <= len TRUNCATE_MESSAGE) as Hm by (unfold len; lia).
  assert (len (head_text file) <= MAX_DISPLAY_SIZE) as Hhead.
  { unfold head_text.
    pose proof (decode_replace_length (head_c MAX_DISPLAY_SIZE (head_n MAX_LINES file))).
    pose proof (head_c_length (head_n MAX_LINES file) MAX_DISPLAY_SIZE Hpos). lia. }
  assert (MAX_DISPLAY_SIZE < Z.of_nat (length file) ->
          load file = if bool_decide (len (head_text file) = MAX_DISPLAY_SIZE)
                      then head_text file ++ TRUNCATE_MESSAGE
                      else head_text file) as Hlarge.
  { intros Hbig. unfold load. fold (head_text file).
    destruct (Z.ltb_spec MAX_DISPLAY_SIZE (Z.of_nat (length file))); [|lia].
    destruct (Z.leb_spec MAX_DISPLAY_SIZE (len (head_text file))).
    - rewrite bool_decide_eq_true_2 by lia. by rewrite slice_to_all by lia.
    - by rewrite bool_decide_eq_false_2 by lia. }
  split_and!.
  - destruct (Z.le_gt_cases (Z.of_nat (length file)) MAX_DISPLAY_SIZE) as [Hs|Hb].
    + rewrite load_small by done. pose proof (decode_replace_length file). lia.
    + rewrite Hlarge by lia. case_bool_decide; [|lia].
      unfold len in *. rewrite length_app. lia.
  - apply load_small.
  - intros Hbig. split; [done | by apply Hlarge].
Qed.

End EditorBounds.

(** ** Accounts *)

Module AccountFacts.

Import AuthDb AuthSessions PyFacts AuthFacts.

Local Open Scope Z_scope.
Local Arguments String.append !_ _ / : simpl nomatch.

Section WithKdf.

Variable kdf : string -> list Byte.byte -> list Byte.byte -> Z -> list Byte.byte.

Lemma ids_below_next (t : list user) (u : user) :
  u ∈ t -> user_id u < next_id t.
Proof.
  unfold next_id. induction t as [|v t IH]; intros Hu; [by apply elem_of_nil in Hu|].
  simpl. apply elem_of_cons in Hu as [->|Hu]; [lia|]. specialize (IH Hu). lia.
Qed.

Lemma next_id_positive (t : list user) : 1 <= next_id t.
Proof. unfold next_id. induction t as [|v t IH]; simpl; lia. Qed.

Lemma insert_user_ids name stored t : ids_ok t -> ids_ok (insert_user name stored t).2.
Proof.
  intros [Hnd Hpos]. unfold insert_user. case_bool_decide; simpl; [done|]. split.
  - change (map user_id (t ++ [User (next_id t) name stored]))
      with (user_id <$> (t ++ [User (next_id t) name stored])).
    rewrite fmap_app. apply NoDup_app. split_and!; [done | | apply NoDup_singleton].
    intros x Hx Hx'. apply list_elem_of_singleton in Hx'. simpl in Hx'. subst x.
    apply list_elem_of_fmap in Hx as (u & Hu & Hin).
    pose proof (ids_below_next t u Hin). lia.
  - apply Forall_app. split; [done|]. constructor; [|constructor].
    simpl. apply next_id_positive.
Qed.

Lemma reachable_ids t : reachable kdf t -> ids_ok t.
Proof.
  induction 1 as [|salt t _ IH Hsalt|salt name password t _ IH Hsalt].
  - split; constructor.
  - unfold init_db. case_bool_decide; [by apply insert_user_ids | done].
  - unfold create_user.
    pose proof (insert_user_ids name
      (salt +:+ "$" +:+ password_digest kdf password salt) t IH) as Hok.
    by destruct (insert_user _ _ t) as [[] ?].
Qed.



(** A name that is taken is refused and the table stays as it is. *)
Lemma create_user_taken salt name password t :
  name ∈ map username t ->
  create_user kdf salt name password t = (Return false, t).
Proof.
  intros Hin. unfold create_user, insert_user. by rewrite bool_decide_eq_true_2.
Qed.

Lemma init_db_admin salt t :
  "admin" ∈ map username (init_db kdf salt t).2.
Proof.
  unfold init_db. case_bool_decide as Hf.
  - unfold insert_user. case_bool_decide as Hin; [done|]. simpl.
    change (map username (t ++ [User (next_id t) "admin"
              (salt +:+ "$" +:+ password_digest kdf "admin123" salt)]))
      with (username <$> (t ++ [User (next_id t) "admin"
              (salt +:+ "$" +:+ password_digest kdf "admin123" salt)])).
    rewrite fmap_app. apply elem_of_app. right. left.
  - simpl. destruct (filter (fun u => username u = "admin") t) as [|u us] eqn:Hfu; [done|].
    assert (u ∈ filter (fun u => username u = "admin") t) as Hu by (rewrite Hfu; left).
    apply list_elem_of_filter in Hu as [Hn Hu]. rewrite <- Hn.
    by apply (list_elem_of_fmap_2 username).
Qed.

(** Initialising the database leaves an [admin] row in the table and
    is idempotent: a second initialisation changes nothing, whatever
    salt it draws.  On an empty table the default account [admin] with
    the password [admin123] verifies with the id 1. *)
Theorem init_db_bootstrap salt salt' t :
  "admin" ∈ map username (init_db kdf salt t).2
  /\ init_db kdf salt' (init_db kdf salt t).2 = (Return (), (init_db kdf salt t).2)
  /\ (is_token_hex salt = true ->
      verify_user kdf "admin" "admin123" (init_db kdf salt []).2
      = (Return (Some 1), (init_db kdf salt []).2)).
Proof.
  split_and!.
  - apply init_db_admin.
  - pose proof (init_db_admin salt t) as Hin.
    unfold init_db at 1. rewrite bool_decide_eq_false_2; [done|].
    intros Hf. apply list_elem_of_fmap in Hin as (u & Hu & Hin).
    assert (u ∈ filter (fun u => username u = "admin") (init_db kdf salt t).2) as Huf
      by by apply list_elem_of_filter.
    rewrite Hf in Huf. by apply elem_of_nil in Huf.
  - intros Hsalt.
    set (u := User 1 "admin" (salt +:+ "$" +:+ password_digest kdf "admin123" salt)).
    change ((init_db kdf salt []).2) with [u].
    pose proof (verify_user_row kdf [u] u salt "admin123" "admin123") as Hv.
    change (username u) with "admin" in Hv.
    rewrite Hv; [by rewrite bool_decide_eq_true_2 | | left | done | done].
    apply NoDup_singleton.
Qed.

End WithKdf.



End AccountFacts.

(** ** Sessions of signed-in users *)

Module SessionTableFacts.

Import AuthDb AuthSessions.

Local Open Scope Z_scope.

Lemma validate_none sid t :
  sid ∉ map session_id t -> validate_session sid t = None.
Proof.
  intros Hn. unfold validate_session.
  destruct (filter (fun s => session_id s = sid) t) as [|s ss] eqn:Hf; [done|].
  assert (s ∈ filter (fun s => session_id s = sid) t) as Hs by (rewrite Hf; left).
  apply list_elem_of_filter in Hs as [<- Hs].
  exfalso. apply Hn. by apply (list_elem_of_fmap_2 session_id).
Qed.

Lemma validate_app sid t t' :
  validate_session sid (t ++ t')
  = match validate_session sid t with
    | Some uid => Some uid
    | None => validate_session sid t'
    end.
Proof.
  unfold validate_session. rewrite filter_app.
  by destruct (filter (fun s => session_id s = sid) t).
Qed.

Lemma validate_created token uid t :
  token ∉ map session_id t ->
  validate_session token (t ++ [Session token uid]) = Some uid.
Proof.
  intros Hf. rewrite validate_app, validate_none by done.
  unfold validate_session. rewrite filter_cons_True by done. done.
Qed.

Lemma validate_deleted sid t : validate_session sid (delete_session sid t) = None.
Proof.
  apply validate_none. intros Hin.
  apply list_elem_of_fmap in Hin as (s & Hs & Hin).
  apply list_elem_of_filter in Hin as [Hn _]. done.
Qed.

(** The table of sessions.  A session created under a token that is
    not in the table validates to its user; a token that is in the
    table makes the insertion raise and leaves the table as it is.
    Creating a session does not change what another token validates
    to.  A deleted session no longer validates, and deleting it does
    not change what another token validates to. *)
Theorem session_round_trip token uid sid t :
  let r := create_session token uid t in
  (token ∉ map session_id t ->
   r.1 = Return token /\ validate_session token r.2 = Some uid)
  /\ (token ∈ map session_id t -> r.2 = t /\ exists e, r.1 = Raise e)
  /\ (sid ≠ token -> validate_session sid r.2 = validate_session sid t)
  /\ validate_session sid (delete_session sid t) = None
  /\ (sid ≠ token ->
      validate_session token (delete_session sid t) = validate_session token t).
Proof.
  intros r. subst r. unfold create_session. split_and!.
  - intros Hf. rewrite bool_decide_eq_false_2 by done. split; [done|]. cbn [snd].
    by apply validate_created.
  - intros Hin. rewrite bool_decide_eq_true_2 by done. split; [done | by eexists].
  - intros Hne. case_bool_decide; [done|]. cbn [snd].
    rewrite validate_app. destruct (validate_session sid t); [done|].
    unfold validate_session. rewrite filter_cons_False by (simpl; congruence). done.
  - apply validate_deleted.
  - intros Hne. unfold validate_session, delete_session.
    rewrite list_filter_filter.
    rewrite (list_filter_iff _ (fun s => session_id s = token)); [done|].
    intros s. split; [by intros [? _]|].
    intros Hs. split; [done|]. congruence.
Qed.

Section WithKdf.

Variable kdf : string -> list Byte.byte -> list Byte.byte -> Z -> list Byte.byte.


End WithKdf.



End SessionTableFacts.

(** ** Downloading the proteomes *)

Module DownloadFacts.

Import Download PyFacts WordFacts.

Local Open Scope Z_scope.
Local Arguments String.append !_ _ / : simpl nomatch.

(** The loop from one attempt on: what it returns is decided by the
    first response that is not retried, or by the last response. *)
Lemma attempts_spec (server : nat -> response) (taxa : string) (retries : nat) :
  forall remaining attempt,
  (attempt + remaining)%nat = retries ->
  let r := attempts server taxa retries attempt remaining in
  0 <= r.2 /\ r.2 + 2 ^ Z.of_nat attempt <= 2 ^ Z.of_nat retries
  /\ (forall text t, r.1 = Fetched text t <->
        t = taxa /\ exists i, (attempt <= i < retries)%nat /\ server i = Ok200 text
          /\ forall j, (attempt <= j < i)%nat -> retryable (server j) = true)
  /\ (forall e, r.1 = Raised e <->
        exists i, (attempt <= i < retries)%nat /\ server i = Broken e
          /\ forall j, (attempt <= j < i)%nat -> retryable (server j) = true)
  /\ (forall t, r.1 = GaveUp t <->
        t = taxa /\ (0 < remaining)%nat /\ server (retries - 1)%nat = ClientError
        /\ forall j, (attempt <= j < retries)%nat -> retryable (server j) = true)
  /\ (r.1 = NoTuple <->
        (remaining = 0%nat \/ server (retries - 1)%nat = OtherStatus)
        /\ forall j, (attempt <= j < retries)%nat -> retryable (server j) = true).
Proof.
  induction remaining as [|n IH]; intros attempt Hsum; cbn zeta.
  - simpl. replace attempt with retries by lia.
    split; [lia|]. split; [lia|].
    split; [intros text t; split; [done|intros (_ & i & Hi & _); lia]|].
    split; [intros e; split; [done|intros (i & Hi & _); lia]|].
    split; [intros t; split; [done|intros (_ & Hr & _); lia]|].
    split; [intros _; split; [by left|intros j Hj; lia]|done].
  - assert (2 ^ Z.of_nat (S attempt) = 2 * 2 ^ Z.of_nat attempt) as Hpow.
    { rewrite Nat2Z.inj_succ, Z.pow_succ_r by lia. done. }
    assert (0 < 2 ^ Z.of_nat attempt) as Hpos by (apply Z.pow_pos_nonneg; lia).
    assert (2 ^ Z.of_nat (S attempt) <= 2 ^ Z.of_nat retries) as Hle
      by (apply Z.pow_le_mono_r; lia).
    specialize (IH (S attempt) ltac:(lia)). cbn zeta in IH.
    destruct IH as (IH0 & IH1 & IHf & IHr & IHg & IHn).
    assert (forall P : nat -> Prop,
              (forall j, (attempt <= j < retries)%nat -> P j)
              <-> P attempt /\ forall j, (S attempt <= j < retries)%nat -> P j) as Hsplit.
    { intros P. split.
      - intros HP. split; [apply HP; lia|intros j Hj; apply HP; lia].
      - intros [Ha HP] j Hj. destruct (decide (j = attempt)) as [->|]; [done|apply HP; lia]. }
    assert (forall (P : nat -> Prop) i,
              (attempt < i)%nat ->
              (forall j, (attempt <= j < i)%nat -> P j)
              <-> P attempt /\ forall j, (S attempt <= j < i)%nat -> P j) as Hsplit'.
    { intros P i Hi. split.
      - intros HP. split; [apply HP; lia|intros j Hj; apply HP; lia].
      - intros [Ha HP] j Hj. destruct (decide (j = attempt)) as [->|]; [done|apply HP; lia]. }
    cbn [attempts]. destruct (server attempt) as [text0| | |e0] eqn:Hs.
    + cbn [fst snd]. split; [lia|]. split; [lia|].
      split.
      { intros text t. split.
        - intros [= <- <-]. split; [done|]. exists attempt.
          split; [lia|]. split; [done|]. intros j Hj; lia.
        - intros (-> & i & Hi & Hok & Hre). destruct (decide (i = attempt)) as [->|Hne].
          + congruence.
          + specialize (Hre attempt ltac:(lia)). by rewrite Hs in Hre. }
      split.
      { intros e. split; [done|]. intros (i & Hi & Hok & Hre).
        destruct (decide (i = attempt)) as [->|Hne]; [congruence|].
        specialize (Hre attempt ltac:(lia)). by rewrite Hs in Hre. }
      split.
      { intros t. split; [done|]. intros (_ & _ & _ & Hre).
        specialize (Hre attempt ltac:(lia)). by rewrite Hs in Hre. }
      split; [done|]. intros (_ & Hre).
      specialize (Hre attempt ltac:(lia)). by rewrite Hs in Hre.
    + cbn [fst snd]. split; [lia|]. split; [lia|].
      split.
      { intros text t. rewrite IHf. split.
        - intros (-> & i & Hi & Hok & Hre). split; [done|]. exists i.
          split; [lia|]. split; [done|]. apply Hsplit'; [lia|]. by rewrite Hs.
        - intros (-> & i & Hi & Hok & Hre). split; [done|].
          destruct (decide (i = attempt)) as [->|Hne]; [congruence|].
          exists i. split; [lia|]. split; [done|].
          apply Hsplit' in Hre; [|lia]. apply Hre. }
      split.
      { intros e. rewrite IHr. split.
        - intros (i & Hi & Hok & Hre). exists i.
          split; [lia|]. split; [done|]. apply Hsplit'; [lia|]. by rewrite Hs.
        - intros (i & Hi & Hok & Hre).
          destruct (decide (i = attempt)) as [->|Hne]; [congruence|].
          exists i. split; [lia|]. split; [done|].
          apply Hsplit' in Hre; [|lia]. apply Hre. }
      split.
      { intros t. rewrite IHg. rewrite (Hsplit (fun j => retryable (server j) = true)), Hs.
        split.
        - intros (-> & Hn & Hlast & Hre). repeat split; try done; lia.
        - intros (-> & _ & Hlast & _ & Hre). split; [done|]. split; [|by split].
          destruct n; [|lia]. replace (retries - 1)%nat with attempt in Hlast by lia.
          congruence. }
      rewrite IHn. rewrite (Hsplit (fun j => retryable (server j) = true)), Hs.
      split.
      * intros ([Hn|Hlast] & Hre); [|by auto].
        split; [right|done]. replace (retries - 1)%nat with attempt by lia. done.
      * intros ([Hn|Hlast] & _ & Hre); [done|].
        split; [|done]. destruct n; [by left|by right].
    + case_bool_decide as Hlast.
      * cbn [fst snd]. split; [lia|]. split; [lia|].
        assert (n = 0%nat) as -> by lia.
        split.
        { intros text t. split; [done|]. intros (_ & i & Hi & Hok & _).
          replace i with attempt in Hok by lia. congruence. }
        split.
        { intros e. split; [done|]. intros (i & Hi & Hok & _).
          replace i with attempt in Hok by lia. congruence. }
        split.
        { intros t. split.
          - intros [= <-]. split; [done|]. split; [lia|]. rewrite <- Hlast.
            split; [done|]. intros j Hj. replace j with attempt by lia. by rewrite Hs.
          - by intros (-> & _). }
        split; [done|]. intros ([Hr|Hr] & _); [done|]. rewrite <- Hlast in Hr. congruence.
      * cbn [fst snd]. split; [lia|]. split; [lia|].
        split.
        { intros text t. rewrite IHf. split.
          - intros (-> & i & Hi & Hok & Hre). split; [done|]. exists i.
            split; [lia|]. split; [done|]. apply Hsplit'; [lia|]. by rewrite Hs.
          - intros (-> & i & Hi & Hok & Hre). split; [done|].
            destruct (decide (i = attempt)) as [->|Hne]; [congruence|].
            exists i. split; [lia|]. split; [done|].
            apply Hsplit' in Hre; [|lia]. apply Hre. }
        split.
        { intros e. rewrite IHr. split.
          - intros (i & Hi & Hok & Hre). exists i.
            split; [lia|]. split; [done|]. apply Hsplit'; [lia|]. by rewrite Hs.
          - intros (i & Hi & Hok & Hre).
            destruct (decide (i = attempt)) as [->|Hne]; [congruence|].
            exists i. split; [lia|]. split; [done|].
            apply Hsplit' in Hre; [|lia]. apply Hre. }
        split.
        { intros t. rewrite IHg. rewrite (Hsplit (fun j => retryable (server j) = true)), Hs.
          split.
          - intros (-> & Hn & Hl & Hre). split; [done|]. split; [lia|]. done.
          - intros (-> & _ & Hl & _ & Hre). split; [done|]. split; [lia|]. done. }
        rewrite IHn. rewrite (Hsplit (fun j => retryable (server j) = true)), Hs.
        split.
        -- intros ([Hn|Hl] & Hre); [lia|]. split; [by right|done].
        -- intros ([Hn|Hl] & _ & Hre); [done|]. split; [by right|done].
    + cbn [fst snd]. split; [lia|]. split; [lia|].
      split.
      { intros text t. split; [done|]. intros (_ & i & Hi & Hok & Hre).
        destruct (decide (i = attempt)) as [->|Hne]; [congruence|].
        specialize (Hre attempt ltac:(lia)). by rewrite Hs in Hre. }
      split.
      { intros e. split.
        - intros [= <-]. exists attempt. split; [lia|]. split; [done|]. intros j Hj; lia.
        - intros (i & Hi & Hok & Hre).
          destruct (decide (i = attempt)) as [->|Hne]; [congruence|].
          specialize (Hre attempt ltac:(lia)). by rewrite Hs in Hre. }
      split.
      { intros t. split; [done|]. intros (_ & _ & _ & Hre).
        specialize (Hre attempt ltac:(lia)). by rewrite Hs in Hre. }
      split; [done|]. intros (_ & Hre).
      specialize (Hre attempt ltac:(lia)). by rewrite Hs in Hre.
Qed.

(** What one download comes to, read off the responses to its
    attempts.  It sleeps at most [2^retries - 1] seconds in all.  It
    returns the text of the first attempt answered with status 200,
    and lets the exception of the first broken body through, when
    every attempt before was answered with another status or a client
    error.  When all attempts are such, it returns the pair without a
    text if the last one was a client error, and returns no pair at
    all if the last one was answered with another status (or if there
    is no attempt). *)
Theorem download_result (server : nat -> response) (taxa : string) (retries : nat) :
  let r := download_proteome_async server taxa retries in
  0 <= r.2 <= 2 ^ Z.of_nat retries - 1
  /\ (forall text t, r.1 = Fetched text t <->
        t = taxa /\ exists i, (i < retries)%nat /\ server i = Ok200 text
          /\ forall j, (j < i)%nat -> retryable (server j) = true)
  /\ (forall e, r.1 = Raised e <->
        exists i, (i < retries)%nat /\ server i = Broken e
          /\ forall j, (j < i)%nat -> retryable (server j) = true)
  /\ (forall t, r.1 = GaveUp t <->
        t = taxa /\ (0 < retries)%nat /\ server (retries - 1)%nat = ClientError
        /\ forall j, (j < retries)%nat -> retryable (server j) = true)
  /\ (r.1 = NoTuple <->
        (retries = 0%nat \/ server (retries - 1)%nat = OtherStatus)
        /\ forall j, (j < retries)%nat -> retryable (server j) = true).
Proof.
  cbn zeta. unfold download_proteome_async.
  destruct (attempts_spec server taxa retries retries 0%nat eq_refl)
    as (H0 & H1 & Hf & Hr & Hg & Hn).
  change (2 ^ Z.of_nat 0) with 1 in H1.
  split; [lia|].
  split.
  { intros text t. rewrite Hf. split.
    - intros (-> & i & Hi & Hok & Hre). split; [done|]. exists i.
      split; [lia|]. split; [done|]. intros j Hj. apply Hre. lia.
    - intros (-> & i & Hi & Hok & Hre). split; [done|]. exists i.
      split; [lia|]. split; [done|]. intros j Hj. apply Hre. lia. }
  split.
  { intros e. rewrite Hr. split.
    - intros (i & Hi & Hok & Hre). exists i.
      split; [lia|]. split; [done|]. intros j Hj. apply Hre. lia.
    - intros (i & Hi & Hok & Hre). exists i.
      split; [lia|]. split; [done|]. intros j Hj. apply Hre. lia. }
  split.
  { intros t. rewrite Hg. split.
    - intros (-> & Hp & Hl & Hre). do 3 (split; [done|]). intros j Hj. apply Hre. lia.
    - intros (-> & Hp & Hl & Hre). do 3 (split; [done|]). intros j Hj. apply Hre. lia. }
  rewrite Hn. split.
  - intros (Hl & Hre). split; [done|]. intros j Hj. apply Hre. lia.
  - intros (Hl & Hre). split; [done|]. intros j Hj. apply Hre. lia.
Qed.

(** The results of settled tasks are written one after the other. *)
Lemma write_results_settled (results : list download) : forall p,
  Forall (fun d => settled d = true) results ->
  write_results results p
  = Completed (Progress (fasta_file p +:+ all_text results)
                 (failed_downloads p ++ all_failures results)
                 (processed p + length results)).
Proof.
  induction results as [|d rest IH]; intros p Hall.
  - simpl. rewrite app_empty_r. unfold all_failures. simpl.
    rewrite app_nil_r, Nat.add_0_r. by destruct p.
  - apply Forall_cons in Hall as [Hd Hrest].
    destruct d as [text taxa|taxa| |e]; try done.
    + cbn [write_results]. destruct (Py.truthy text) eqn:Ht.
      * rewrite IH by done. cbn [fasta_file failed_downloads processed].
        unfold all_failures. cbn [map concat failure_of all_text text_of]. rewrite Ht.
        rewrite string_app_assoc. cbn [app length]. do 2 f_equal. lia.
      * rewrite IH by done. cbn [fasta_file failed_downloads processed].
        unfold all_failures. cbn [map concat failure_of all_text text_of]. rewrite Ht.
        destruct text; [|done]. cbn [String.append].
        rewrite <- app_assoc. cbn [app length]. do 2 f_equal. lia.
    + cbn [write_results]. rewrite IH by done. cbn [fasta_file failed_downloads processed].
      unfold all_failures. cbn [map concat failure_of all_text text_of].
      cbn [String.append]. rewrite <- app_assoc. cbn [app length]. do 2 f_equal. lia.
Qed.

Lemma all_text_app (a b : list download) : all_text (a ++ b) = all_text a +:+ all_text b.
Proof.
  induction a as [|d a IH]; [done|]. cbn [app all_text]. by rewrite IH, string_app_assoc.
Qed.

Lemma all_failures_app (a b : list download) :
  all_failures (a ++ b) = all_failures a ++ all_failures b.
Proof. unfold all_failures. by rewrite map_app, concat_app. Qed.

Lemma raised_settled (batch : list download) :
  Forall (fun d => settled d = true) batch -> raised batch = [].
Proof.
  induction 1 as [|d rest Hd _ IH]; [done|].
  unfold raised in *. destruct d; try done; cbn [omap]; by rewrite IH.
Qed.

Lemma raised_app (a b : list download) : raised (a ++ b) = raised a ++ raised b.
Proof. unfold raised. apply omap_app. Qed.

(** The loop over the batches ends within as many rounds as there are
    tasks: more rounds change nothing. *)
Lemma write_batches_rounds (size : nat) : forall rounds rounds' tasks p,
  (0 < size)%nat -> (length tasks <= rounds)%nat -> (length tasks <= rounds')%nat ->
  write_batches rounds size tasks p = write_batches rounds' size tasks p.
Proof.
  induction rounds as [|rounds IH]; intros rounds' tasks p Hsize Hlen Hlen'.
  - destruct tasks; [|simpl in Hlen; lia]. by destruct rounds'.
  - destruct rounds' as [|rounds'].
    { destruct tasks; [done|simpl in Hlen'; lia]. }
    cbn [write_batches]. destruct tasks as [|d rest] eqn:Htasks; [done|].
    rewrite <- Htasks in *.
    destruct (raised (take size tasks)); [|done].
    destruct (write_results (take size tasks) p) as [p'|p' errors]; [|done].
    apply IH; [done | |]; rewrite length_drop; rewrite Htasks in *; simpl in *; lia.
Qed.

(** Settled tasks in batches: the file, the failures and the count are
    those of the tasks taken one after the other. *)
Lemma write_batches_settled (size : nat) : forall rounds tasks p,
  (0 < size)%nat -> (length tasks <= rounds)%nat ->
  Forall (fun d => settled d = true) tasks ->
  write_batches rounds size tasks p
  = Completed (Progress (fasta_file p +:+ all_text tasks)
                 (failed_downloads p ++ all_failures tasks)
                 (processed p + length tasks)).
Proof.
  induction rounds as [|rounds IH]; intros tasks p Hsize Hlen Hall.
  - destruct tasks; [|simpl in Hlen; lia]. simpl.
    rewrite app_empty_r. unfold all_failures. simpl.
    rewrite app_nil_r, Nat.add_0_r. by destruct p.
  - destruct tasks as [|d rest] eqn:Htasks.
    { simpl. rewrite app_empty_r. unfold all_failures. simpl.
      rewrite app_nil_r, Nat.add_0_r. by destruct p. }
    rewrite <- Htasks in *. cbn [write_batches].
    assert (tasks ≠ []) as Hne by (by rewrite Htasks).
    destruct tasks as [|d' rest'] eqn:Htasks'; [done|]. rewrite <- Htasks' in *.
    assert (Forall (fun d => settled d = true) (take size tasks)) as Htake
      by (by apply Forall_take).
    assert (Forall (fun d => settled d = true) (drop size tasks)) as Hdrop
      by (by apply Forall_drop).
    rewrite raised_settled, write_results_settled by done.
    rewrite IH; [| done | | done].
    + cbn [fasta_file failed_downloads processed].
      rewrite string_app_assoc, <- all_text_app, <- app_assoc, <- all_failures_app.
      rewrite <- Nat.add_assoc, <- length_app, take_drop. done.
    + rewrite length_drop. rewrite Htasks' in *. simpl in *. lia.
Qed.

(** When every task comes back with a pair, the preparation of the
    download completes for a table with rows: the file holds the texts
    in the order of the rows, whatever the batches, the failed taxa are
    those of the rows without a text, in their order, and every row is
    counted.  For a table without rows it ends with the error that no
    proteome is selected, and nothing is written. *)
Theorem prepare_settled (tasks : list download) :
  Forall (fun d => settled d = true) tasks ->
  prepare tasks
  = match tasks with
    | [] => Aborted (Progress "" [] 0) [NO_PROTEOMES]
    | _ => Completed (Progress (all_text tasks) (all_failures tasks) (length tasks))
    end.
Proof.
  intros Hall. unfold prepare. destruct tasks as [|d rest] eqn:Htasks; [done|].
  rewrite <- Htasks in *.
  rewrite (write_batches_settled BATCH_SIZE (length tasks) tasks (Progress "" [] 0));
    [done | unfold BATCH_SIZE; lia | done | done].
Qed.

(** Three rows: one fetched, one given up, one with an empty text. *)
Lemma prepare_settled_witness :
  prepare [Fetched ">P1" "E. coli"; GaveUp "B. subtilis"; Fetched "" "T. maritima"]
  = Completed (Progress ">P1" ["B. subtilis"; "T. maritima"] 3).
Proof.
  apply (prepare_settled
           [Fetched ">P1" "E. coli"; GaveUp "B. subtilis"; Fetched "" "T. maritima"]).
  repeat (apply Forall_cons; split; [reflexivity|]). apply Forall_nil_2.
Defined.

Lemma write_results_no_tuple (done_ rest : list download) : forall p,
  Forall (fun d => settled d = true) done_ ->
  write_results (done_ ++ NoTuple :: rest) p
  = Aborted (Progress (fasta_file p +:+ all_text done_)
               (failed_downloads p ++ all_failures done_)
               (processed p + length done_)) [UNPACK_ERROR].
Proof.
  induction done_ as [|d ds IH]; intros p Hall.
  - simpl. rewrite app_empty_r. unfold all_failures. simpl.
    rewrite app_nil_r, Nat.add_0_r. by destruct p.
  - apply Forall_cons in Hall as [Hd Hrest].
    destruct d as [text taxa|taxa| |e]; try done.
    + cbn [app write_results]. destruct (Py.truthy text) eqn:Ht.
      * rewrite IH by done. cbn [fasta_file failed_downloads processed].
        unfold all_failures. cbn [map concat failure_of all_text text_of]. rewrite Ht.
        rewrite string_app_assoc. cbn [app length]. do 2 f_equal. lia.
      * rewrite IH by done. cbn [fasta_file failed_downloads processed].
        unfold all_failures. cbn [map concat failure_of all_text text_of]. rewrite Ht.
        destruct text; [|done]. cbn [String.append].
        rewrite <- app_assoc. cbn [app length]. do 2 f_equal. lia.
    + cbn [app write_results]. rewrite IH by done.
      cbn [fasta_file failed_downloads processed].
      unfold all_failures. cbn [map concat failure_of all_text text_of].
      cbn [String.append]. rewrite <- app_assoc. cbn [app length]. do 2 f_equal. lia.
Qed.

Lemma raised_take (n : nat) (l : list download) : raised l = [] -> raised (take n l) = [].
Proof.
  intros Hl. rewrite <- (take_drop n l), raised_app in Hl.
  by apply app_eq_nil in Hl as [? _].
Qed.

Lemma raised_drop (n : nat) (l : list download) : raised l = [] -> raised (drop n l) = [].
Proof.
  intros Hl. rewrite <- (take_drop n l), raised_app in Hl.
  by apply app_eq_nil in Hl as [_ ?].
Qed.

Lemma write_batches_no_tuple (size : nat) : forall rounds done_ rest p,
  (0 < size)%nat -> (length (done_ ++ NoTuple :: rest) <= rounds)%nat ->
  Forall (fun d => settled d = true) done_ ->
  raised rest = [] ->
  write_batches rounds size (done_ ++ NoTuple :: rest) p
  = Aborted (Progress (fasta_file p +:+ all_text done_)
               (failed_downloads p ++ all_failures done_)
               (processed p + length done_)) [UNPACK_ERROR].
Proof.
  induction rounds as [|rounds IH]; intros done_ rest p Hsize Hlen Hall Hrest.
  - rewrite length_app in Hlen. simpl in Hlen. lia.
  - assert (raised (done_ ++ NoTuple :: rest) = []) as Hraised.
    { rewrite raised_app, raised_settled by done. done. }
    cbn [write_batches].
    destruct (done_ ++ NoTuple :: rest) as [|d0 l0] eqn:Htasks.
    { by destruct done_. }
    rewrite <- Htasks in *. clear d0 l0 Htasks.
    rewrite raised_take by done.
    destruct (decide (length done_ < size)%nat) as [Hlt|Hge].
    + rewrite take_app_ge by lia.
      destruct (size - length done_)%nat as [|k] eqn:Hk; [lia|].
      cbn [take]. by rewrite write_results_no_tuple.
    + rewrite take_app_le, drop_app_le by lia.
      rewrite write_results_settled by (by apply Forall_take).
      rewrite IH; [| done | | by apply Forall_drop | done].
      * cbn [fasta_file failed_downloads processed].
        rewrite string_app_assoc, <- all_text_app, <- app_assoc, <- all_failures_app.
        rewrite <- Nat.add_assoc, <- length_app, take_drop. done.
      * rewrite length_app, length_drop. rewrite length_app in Hlen. lia.
Qed.

(** One task that comes back without a pair ends the preparation of
    the download with the error of unpacking [None], when no task
    raises: the rows before it are written and counted, the rows after
    it are not, and the download is not made ready. *)
Theorem prepare_no_tuple (done_ rest : list download) :
  Forall (fun d => settled d = true) done_ ->
  raised rest = [] ->
  prepare (done_ ++ NoTuple :: rest)
  = Aborted (Progress (all_text done_) (all_failures done_) (length done_))
      [UNPACK_ERROR].
Proof.
  intros Hall Hrest. unfold prepare.
  destruct (done_ ++ NoTuple :: rest) as [|d tasks] eqn:Htasks; [by destruct done_|].
  rewrite <- Htasks.
  rewrite (write_batches_no_tuple BATCH_SIZE _ done_ rest (Progress "" [] 0));
    [done | unfold BATCH_SIZE; lia | done | done | done].
Qed.


(** The second of three rows comes back without a pair. *)
Lemma prepare_no_tuple_witness :
  prepare [Fetched ">P1" "E. coli"; NoTuple; Fetched ">P3" "T. maritima"]
  = Aborted (Progress ">P1" [] 1) [UNPACK_ERROR].
Proof.
  apply (prepare_no_tuple [Fetched ">P1" "E. coli"] [Fetched ">P3" "T. maritima"]).
  - repeat (apply Forall_cons; split; [reflexivity|]). apply Forall_nil_2.
  - reflexivity.
Defined.

End DownloadFacts.

(** ** The pages of the proteome table *)

Module PagingFacts.

Import Paging.

Local Open Scope Z_scope.

Lemma total_pages_fits (rows page_size : Z) :
  0 < page_size -> 0 <= rows ->
  1 <= total_pages rows page_size
  /\ rows <= total_pages rows page_size * page_size
  /\ (0 < rows -> (total_pages rows page_size - 1) * page_size < rows).
Proof.
  intros Hps Hn. unfold total_pages.
  pose proof (Z.mul_div_le (rows + page_size - 1) page_size Hps) as Hle.
  pose proof (Z.mul_succ_div_gt (rows + page_size - 1) page_size Hps) as Hgt.
  assert (0 <= (rows + page_size - 1) / page_size) as H0 by (apply Z.div_pos; lia).
  split; [lia|]. split; [nia|]. intros Hpos. nia.
Qed.

Lemma turn_in_range (rows page_size current_page : Z) (c : click) :
  1 <= current_page <= total_pages rows page_size ->
  1 <= turn rows page_size current_page c <= total_pages rows page_size.
Proof.
  intros Hr. destruct c; unfold turn, next_page, prev_page.
  - destruct (Z.ltb_spec current_page (total_pages rows page_size)); lia.
  - destruct (Z.ltb_spec 1 current_page); lia.
Qed.

Lemma turns_in_range (rows page_size : Z) (clicks : list click) : forall current_page,
  1 <= current_page <= total_pages rows page_size ->
  1 <= foldl (turn rows page_size) current_page clicks <= total_pages rows page_size.
Proof.
  induction clicks as [|c clicks IH]; intros p Hp; [done|].
  simpl. apply IH. by apply turn_in_range.
Qed.

(** Whatever the sequence of clicks on the two page buttons from page
    1, for a table that stays as it is: the current page lies between
    1 and the number of pages, and the page shown of a table with rows
    is not empty. *)
Theorem page_always_shown (rows page_size : Z) (clicks : list click) :
  0 < page_size -> 0 <= rows < 2 ^ 53 ->
  let current_page := foldl (turn rows page_size) 1 clicks in
  1 <= current_page <= total_pages rows page_size
  /\ (0 < rows -> (current_page - 1) * page_size < rows).
Proof.
  intros Hps Hn. cbn zeta.
  destruct (total_pages_fits rows page_size Hps ltac:(lia)) as (H1 & H2 & H3).
  assert (1 <= foldl (turn rows page_size) 1 clicks <= total_pages rows page_size) as Hr
    by (apply turns_in_range; lia).
  split; [done|]. intros Hpos. specialize (H3 Hpos). nia.
Qed.

(** 120 rows, 50 to a page: three clicks forward and one back end on
    page 2 of 3. *)
Lemma page_always_shown_witness :
  1 <= foldl (turn 120 50) 1 [Next; Next; Next; Prev] <= total_pages 120 50
  /\ (0 < 120 -> (foldl (turn 120 50) 1 [Next; Next; Next; Prev] - 1) * 50 < 120).
Proof.
  apply (page_always_shown 120 50 [Next; Next; Next; Prev]); [lia|].
  split; [lia | reflexivity].
Defined.

Lemma pages_from_concat {A : Type} (data : list A) (page_size : Z) : forall count first,
  0 < page_size -> 1 <= first ->
  concat (pages_from data page_size first count)
  = take (count * Z.to_nat page_size)
      (drop (Z.to_nat ((first - 1) * page_size)) data).
Proof.
  induction count as [|count IH]; intros first Hps Hf; [done|].
  cbn [pages_from concat]. rewrite IH by lia. unfold page_rows.
  replace (Z.to_nat ((first + 1 - 1) * page_size))
    with (Z.to_nat ((first - 1) * page_size) + Z.to_nat page_size)%nat by nia.
  rewrite <- drop_drop, take_take_drop. f_equal.
Qed.

(** The pages of a table, from the first to the last, hold every row
    once and in order.  No page holds more rows than the page size, a
    page of a table with rows is not empty, and a page beyond the last
    is empty (which is what the grid shows when the table shrinks
    under a page number that is kept). *)
Theorem pages_cover_table {A : Type} (data : list A) (page_size : Z) :
  0 < page_size -> Z.of_nat (length data) < 2 ^ 53 ->
  let last_page := total_pages (Z.of_nat (length data)) page_size in
  concat (pages_from data page_size 1 (Z.to_nat last_page)) = data
  /\ (forall page, 1 <= page ->
        Z.of_nat (length (page_rows data page_size page)) <= page_size)
  /\ (forall page, 1 <= page <= last_page -> data <> [] ->
        page_rows data page_size page <> [])
  /\ (forall page, last_page < page -> page_rows data page_size page = []).
Proof.
  intros Hps Hn. cbn zeta.
  destruct (total_pages_fits (Z.of_nat (length data)) page_size Hps ltac:(lia))
    as (H1 & H2 & H3).
  split.
  { rewrite pages_from_concat by lia. change (Z.to_nat ((1 - 1) * page_size)) with 0%nat.
    rewrite drop_0. apply take_ge. nia. }
  split.
  { intros page Hp. unfold page_rows. rewrite length_take. lia. }
  split.
  { intros page Hp Hne. unfold page_rows.
    assert (0 < Z.of_nat (length data)) as Hpos by (destruct data; [done|simpl; lia]).
    specialize (H3 Hpos).
    assert (Z.to_nat ((page - 1) * page_size) < length data)%nat as Hlt by nia.
    intros Hnil. apply (f_equal length) in Hnil.
    rewrite length_take, length_drop in Hnil. simpl in Hnil. lia. }
  intros page Hp. unfold page_rows. rewrite drop_ge; [by rewrite take_nil|]. nia.
Qed.


(** Seven rows, three to a page. *)
Lemma pages_cover_table_witness :
  concat (pages_from [1; 2; 3; 4; 5; 6; 7]%nat 3 1 3) = [1; 2; 3; 4; 5; 6; 7]%nat
  /\ page_rows [1; 2; 3; 4; 5; 6; 7]%nat 3 4 = [].
Proof.
  destruct (pages_cover_table [1; 2; 3; 4; 5; 6; 7]%nat 3) as (H1 & _ & _ & H4);
    [lia | reflexivity |].
  split; [exact H1 | apply H4; vm_compute; reflexivity].
Defined.

End PagingFacts.
